(** * Verification of the 1999 reactor-status scraper core

    Shallow embedding of [src/1999scraper.py]: the whitespace normaliser
    [_norm_space], the PSV serialiser [Row.to_psv], the streaming table
    scanner [_TableExtractor] and the header-driven classifier [parse_rows],
    followed by the properties established for them.

    Conventions of the embedding.
    - A Python [str] is a [string]; a character is the code point held by
      an [ascii], so the text domain is the code points 0..255 (Latin-1).
      On that domain [isspace] and [lower_char] are Python's
      [str.isspace] and [str.lower].
    - [HTMLParser.feed] belongs to the Python standard library.  The
      scanner is therefore driven by the sequence of callbacks that the
      library delivers: [handle_starttag], [handle_endtag], [handle_data].
      The attribute list passed to [handle_starttag] is never read by the
      source and is left out of the events.  A self-closing tag is
      delivered by the library as a start tag followed by an end tag.
    - A Python exception is the result [None] of a computation in
      [option]; the only operation of the core that can raise is list
      indexing. *)

From Stdlib Require Import String Ascii List Bool Arith NArith ZArith Lia.
From Stdlib Require Import DecimalString.
Import ListNotations.
Open Scope string_scope.

(** ** Python strings *)

Module PyStr.

(** [str.isspace] on one character: TAB..CR, FS..US, SPACE, NEL, NBSP.
    The regular expression class [\s] of [re] on [str] patterns is the
    same set. *)
Definition isspace (c : ascii) : bool :=
  let n := N_of_ascii c in
  ((9 <=? n) && (n <=? 13) || (28 <=? n) && (n <=? 32)
   || (n =? 133) || (n =? 160))%N.

(** [str.lower] on one character: A..Z and the Latin-1 capitals
    (0xC0..0xDE without the multiplication sign 0xD7) move up by 32. *)
Definition lower_char (c : ascii) : ascii :=
  let n := N_of_ascii c in
  if ((65 <=? n) && (n <=? 90)
      || (192 <=? n) && (n <=? 222) && negb (n =? 215))%N
  then ascii_of_N (n + 32) else c.

Fixpoint lower (s : string) : string :=
  match s with
  | EmptyString => EmptyString
  | String c r => String (lower_char c) (lower r)
  end.

(** [s.startswith(p)] *)
Definition startswith (s p : string) : bool := String.prefix p s.

(** [p in s] *)
Fixpoint contains (s p : string) : bool :=
  String.prefix p s ||
  match s with
  | EmptyString => false
  | String _ r => contains r p
  end.

(** [s.lstrip()], [s.rstrip()], [s.strip()] *)
Fixpoint lstrip (s : string) : string :=
  match s with
  | EmptyString => EmptyString
  | String c r => if isspace c then lstrip r else s
  end.

Fixpoint rstrip (s : string) : string :=
  match s with
  | EmptyString => EmptyString
  | String c r =>
      match rstrip r with
      | EmptyString => if isspace c then EmptyString else String c EmptyString
      | r' => String c r'
      end
  end.

Definition strip (s : string) : string := rstrip (lstrip s).

(** [re.sub(r"\s+", " ", s)]: every maximal run of white space becomes one
    space.  [in_run] tells that the previous character was white space, in
    which case the run's space has already been written. *)
Fixpoint sub_ws_from (in_run : bool) (s : string) : string :=
  match s with
  | EmptyString => EmptyString
  | String c r =>
      if isspace c
      then if in_run then sub_ws_from true r
           else String " " (sub_ws_from true r)
      else String c (sub_ws_from false r)
  end.

Definition sub_ws (s : string) : string := sub_ws_from false s.

(** [s.replace(old, new)] for one-character [old] and [new]. *)
Fixpoint replace_char (old new : ascii) (s : string) : string :=
  match s with
  | EmptyString => EmptyString
  | String c r =>
      String (if Ascii.eqb c old then new else c) (replace_char old new r)
  end.

(** ["".join(parts)] *)
Definition join (parts : list string) : string := String.concat "" parts.

(** [bool(s)]: a string is truthy when it is not empty. *)
Definition truthy (s : string) : bool :=
  match s with EmptyString => false | _ => true end.

End PyStr.

Import PyStr.

(** ** Source functions on strings *)

(** [_norm_space]: [re.sub(r"\s+", " ", s or "").strip()] *)
Definition _norm_space (s : string) : string := strip (sub_ws s).

(** [_safe_psv_field]: [(s or "").replace("|", " ").strip()] *)
Definition _safe_psv_field (s : string) : string :=
  strip (replace_char "|" " " s).

(** ** Output records *)

(** [datetime.date]: the three fields that [to_psv] reads. *)
Record date := mk_date { year : N; month : N; day : N }.

(** [str(n)] for a non-negative integer, as an f-string field prints it. *)
Definition str_of_int (n : N) : string :=
  NilZero.string_of_uint (N.to_uint n).

(** The frozen dataclass [Row]. *)
Record Row := mk_Row {
  report_date : date;
  unit : string;
  power : string;
  reason : string
}.

(** [Row.to_psv] *)
Definition to_psv (self : Row) : string :=
  let d := str_of_int (month (report_date self)) ++ "/"
           ++ str_of_int (day (report_date self)) ++ "/"
           ++ str_of_int (year (report_date self)) in
  d ++ "|" ++ _safe_psv_field (unit self)
    ++ "|" ++ _safe_psv_field (power self)
    ++ "|" ++ _safe_psv_field (reason self).

(** ** The table scanner [_TableExtractor] *)

(** The instance attributes set by [__init__]. *)
Record _TableExtractor := mk_extractor {
  _in_table : Z;
  _in_tr : bool;
  _in_cell : bool;
  _cell_buf : list string;
  _current_row : list string;
  _current_table : list (list string);
  tables : list (list (list string))
}.

(** [_TableExtractor()] *)
Definition new_extractor : _TableExtractor :=
  mk_extractor 0 false false [] [] [] [].

(** Attribute assignment [self.x = v], one function per attribute. *)
Definition set_in_table (self : _TableExtractor) (v : Z) :=
  mk_extractor v (_in_tr self) (_in_cell self) (_cell_buf self)
    (_current_row self) (_current_table self) (tables self).
Definition set_in_tr (self : _TableExtractor) (v : bool) :=
  mk_extractor (_in_table self) v (_in_cell self) (_cell_buf self)
    (_current_row self) (_current_table self) (tables self).
Definition set_in_cell (self : _TableExtractor) (v : bool) :=
  mk_extractor (_in_table self) (_in_tr self) v (_cell_buf self)
    (_current_row self) (_current_table self) (tables self).
Definition set_cell_buf (self : _TableExtractor) (v : list string) :=
  mk_extractor (_in_table self) (_in_tr self) (_in_cell self) v
    (_current_row self) (_current_table self) (tables self).
Definition set_current_row (self : _TableExtractor) (v : list string) :=
  mk_extractor (_in_table self) (_in_tr self) (_in_cell self) (_cell_buf self)
    v (_current_table self) (tables self).
Definition set_current_table (self : _TableExtractor)
    (v : list (list string)) :=
  mk_extractor (_in_table self) (_in_tr self) (_in_cell self) (_cell_buf self)
    (_current_row self) v (tables self).
Definition set_tables (self : _TableExtractor)
    (v : list (list (list string))) :=
  mk_extractor (_in_table self) (_in_tr self) (_in_cell self) (_cell_buf self)
    (_current_row self) (_current_table self) v.

(** [tag in {"td", "th"}] and [tag in {"br", "p"}] *)
Definition is_cell_tag (tag : string) : bool := (tag =? "td") || (tag =? "th").
Definition is_break_tag (tag : string) : bool := (tag =? "br") || (tag =? "p").

(** [bool(l)] for a list. *)
Definition nonempty {A} (l : list A) : bool :=
  match l with [] => false | _ => true end.

(** [_TableExtractor.handle_starttag]: four successive [if] statements,
    each reading the attributes as the previous ones left them. *)
Definition handle_starttag (self : _TableExtractor) (tag : string)
    : _TableExtractor :=
  let tag := lower tag in
  let self :=
    if tag =? "table" then
      let self := set_in_table self (_in_table self + 1) in
      if (_in_table self =? 1)%Z then set_current_table self [] else self
    else self in
  let self :=
    if (1 <=? _in_table self)%Z && (tag =? "tr") then
      set_current_row (set_in_tr self true) []
    else self in
  let self :=
    if (1 <=? _in_table self)%Z && _in_tr self && is_cell_tag tag then
      set_cell_buf (set_in_cell self true) []
    else self in
  let self :=
    if (1 <=? _in_table self)%Z && _in_cell self && is_break_tag tag then
      set_cell_buf self (_cell_buf self ++ [" "])
    else self in
  self.

(** [_TableExtractor.handle_endtag] *)
Definition handle_endtag (self : _TableExtractor) (tag : string)
    : _TableExtractor :=
  let tag := lower tag in
  let self :=
    if (1 <=? _in_table self)%Z && _in_tr self && is_cell_tag tag
       && _in_cell self then
      let self := set_in_cell self false in
      let cell_text := _norm_space (join (_cell_buf self)) in
      let self := set_current_row self (_current_row self ++ [cell_text]) in
      set_cell_buf self []
    else self in
  let self :=
    if (1 <=? _in_table self)%Z && (tag =? "tr") && _in_tr self then
      let self := set_in_tr self false in
      let self :=
        if existsb (fun c => truthy (strip c)) (_current_row self) then
          set_current_table self (_current_table self ++ [_current_row self])
        else self in
      set_current_row self []
    else self in
  let self :=
    if (tag =? "table") && (1 <=? _in_table self)%Z then
      let self := set_in_table self (_in_table self - 1) in
      if (_in_table self =? 0)%Z then
        let self :=
          if nonempty (_current_table self) then
            set_tables self (tables self ++ [_current_table self])
          else self in
        set_current_table self []
      else self
    else self in
  self.

(** [_TableExtractor.handle_data] *)
Definition handle_data (self : _TableExtractor) (d : string)
    : _TableExtractor :=
  if (1 <=? _in_table self)%Z && _in_cell self then
    set_cell_buf self (_cell_buf self ++ [d])
  else self.

(** The callbacks that [HTMLParser.feed] delivers, in document order. *)
Inductive Event :=
| starttag (tag : string)
| endtag (tag : string)
| data (d : string).

Definition dispatch (self : _TableExtractor) (e : Event) : _TableExtractor :=
  match e with
  | starttag tag => handle_starttag self tag
  | endtag tag => handle_endtag self tag
  | data d => handle_data self d
  end.

(** [parser.feed(html)], on the callbacks of [html]. *)
Definition feed (self : _TableExtractor) (html : list Event)
    : _TableExtractor :=
  fold_left dispatch html self.

(** ** The classifier [parse_rows] *)

(** Exceptions: [None] is a raised exception, [Some v] a normal result. *)
Notation "x <- e ;; k" :=
  (match e with Some x => k | None => None end)
  (at level 61, e at next level, right associativity).

(** [l[i]] for [i >= 0]: raises [IndexError] when [i >= len(l)]. *)
Definition getitem {A} (l : list A) (i : nat) : option A := nth_error l i.

(** [enumerate(l)] *)
Definition enumerate {A} (l : list A) : list (nat * A) :=
  combine (seq 0 (List.length l)) l.

(** The loop of [_find_col_idx] over [enumerate(headers)]. *)
Fixpoint find_col_loop (ihs : list (nat * string)) (pred : string -> bool)
    : option nat :=
  match ihs with
  | [] => None
  | (i, h) :: rest => if pred h then Some i else find_col_loop rest pred
  end.

(** [_find_col_idx] *)
Definition _find_col_idx (headers : list string) (pred : string -> bool)
    : option nat :=
  find_col_loop (enumerate headers) pred.

(** The three predicates that [parse_rows] passes to [_find_col_idx]. *)
Definition unit_pred (h : string) : bool :=
  (h =? "unit") || startswith h "unit ".
Definition power_pred (h : string) : bool :=
  (h =? "power") || startswith h "power ".
Definition reason_pred (h : string) : bool :=
  contains h "reason" && contains h "comment".

(** [[_norm_space(c).lower() for c in row]] *)
Definition lowered_row (row : list string) : list string :=
  map (fun c => lower (_norm_space c)) row.

(** The test of the header search on the lowered cells of one row. *)
Definition header_test (lowered : list string) : bool :=
  existsb (fun c => c =? "unit") lowered
  && existsb (fun c => startswith c "power" || (c =? "power")) lowered.

(** The header search: the loop over [enumerate(table)] with its [break];
    the result is the pair [(header_row_idx, headers)], which keeps its
    initial value [(None, [])] when no row passes the test. *)
Fixpoint header_loop (rows : list (nat * list string))
    : option nat * list string :=
  match rows with
  | [] => (None, [])
  | (ridx, row) :: rest =>
      let lowered := lowered_row row in
      if header_test lowered then (Some ridx, lowered) else header_loop rest
  end.

(** The loop over the rows after the header, appending to [out]. *)
Fixpoint rows_loop (report_date : date) (unit_idx power_idx : nat)
    (reason_idx : option nat) (rows : list (list string)) (out : list Row)
    : option (list Row) :=
  match rows with
  | [] => Some out
  | row :: rest =>
      if (List.length row <=? unit_idx)%nat
         || (List.length row <=? power_idx)%nat then
        rows_loop report_date unit_idx power_idx reason_idx rest out
      else
        u <- getitem row unit_idx ;;
        p <- getitem row power_idx ;;
        let unit := _norm_space u in
        let power := _norm_space p in
        reason <-
          match reason_idx with
          | Some ri =>
              if (ri <? List.length row)%nat
              then (r <- getitem row ri ;; Some (_norm_space r))
              else Some ""
          | None => Some ""
          end ;;
        if negb (truthy unit) || (lower unit =? "unit") then
          rows_loop report_date unit_idx power_idx reason_idx rest out
        else
          rows_loop report_date unit_idx power_idx reason_idx rest
            (out ++ [mk_Row report_date unit power reason])
  end.

(** The body of [for table in tables]. *)
Definition table_body (report_date : date) (table : list (list string))
    (out : list Row) : option (list Row) :=
  let '(header_row_idx, headers) := header_loop (enumerate table) in
  match header_row_idx with
  | None => Some out
  | Some hidx =>
      if negb (nonempty headers) then Some out
      else
        let unit_idx := _find_col_idx headers unit_pred in
        let power_idx := _find_col_idx headers power_pred in
        let reason_idx := _find_col_idx headers reason_pred in
        match unit_idx, power_idx with
        | Some ui, Some pi =>
            rows_loop report_date ui pi reason_idx (skipn (hidx + 1) table) out
        | _, _ => Some out
        end
  end.

Fixpoint tables_loop (report_date : date)
    (tbls : list (list (list string))) (out : list Row)
    : option (list Row) :=
  match tbls with
  | [] => Some out
  | table :: rest =>
      out' <- table_body report_date table out ;;
      tables_loop report_date rest out'
  end.

(** [parse_rows]; the argument [html] is given by its callbacks. *)
Definition parse_rows (report_date : date) (html : list Event)
    : option (list Row) :=
  let parser := feed new_extractor html in
  tables_loop report_date (tables parser) [].

(** ** The driver loop of [main] *)

(** ["\n"] *)
Definition newline : string := String (ascii_of_nat 10) EmptyString.

(** The [for] loop of [main] over the days.  Each day comes with the
    result of [fetch_html] for it, [None] when the fetch raised; [f] is
    the output file, as the list of the strings written to it.  The body
    runs under [try ... except Exception], so that a day whose fetch or
    parse raises writes nothing and the loop goes on. *)
Fixpoint main_loop (days : list (date * option (list Event)))
    (f : list string) (total_rows : nat) : list string * nat :=
  match days with
  | [] => (f, total_rows)
  | (d, fetched) :: rest =>
      match fetched with
      | Some html =>
          match parse_rows d html with
          | Some rows =>
              main_loop rest
                (f ++ map (fun r => (to_psv r ++ newline)%string) rows)%list
                (total_rows + List.length rows)
          | None => main_loop rest f total_rows
          end
      | None => main_loop rest f total_rows
      end
  end.

(** ** The days of 1999 and their addresses *)

(** The rest of the file embeds the functions around the core:
    [iter_dates_1999], [url_for_day], [fetch_html] and the whole of
    [main].  They reach outside the program, and the embedding makes what
    lies outside explicit:
    - [datetime.date] arithmetic and [strftime] follow the proleptic
      Gregorian calendar of the library;
    - the file system, the runs of [curl], the calls of [time.sleep] and
      the messages printed on the standard error are fields of a [World]
      that every function takes and returns;
    - a raised exception is a result [Error e] that carries [str(e)];
    - the text of a page reaches [parse_rows] through the callbacks of
      the library parser, a function [tokenize] that the driver takes as
      a parameter. *)

(** [d1 <= d2] on dates. *)
Definition date_leb (d1 d2 : date) : bool :=
  ((year d1 <? year d2)
   || (year d1 =? year d2)
      && ((month d1 <? month d2)
          || (month d1 =? month d2) && (day d1 <=? day d2)))%N.

Definition is_leap (y : N) : bool :=
  ((y mod 4 =? 0) && (negb (y mod 100 =? 0) || (y mod 400 =? 0)))%N.

Definition days_in_month (y m : N) : N :=
  if (m =? 2)%N then (if is_leap y then 29 else 28)%N
  else if ((m =? 4) || (m =? 6) || (m =? 9) || (m =? 11))%N then 30%N
  else 31%N.

(** [d + timedelta(days=1)]; [None] is the [OverflowError] raised past
    the last day of the year 9999. *)
Definition next_day (d : date) : option date :=
  if (day d <? days_in_month (year d) (month d))%N
  then Some (mk_date (year d) (month d) (day d + 1))
  else if (month d <? 12)%N then Some (mk_date (year d) (month d + 1) 1)
  else if (year d <? 9999)%N then Some (mk_date (year d + 1) 1 1)
  else None.

(** The [while d <= end] loop of [iter_dates_1999], which yields [d] and
    moves to the next day.  [fuel] bounds the number of tests of the loop
    condition; [None] tells that the loop has not ended within [fuel]
    tests, or has raised. *)
Fixpoint dates_loop (fuel : nat) (d end_ : date) : option (list date) :=
  match fuel with
  | O => None
  | S fuel' =>
      if date_leb d end_ then
        d' <- next_day d ;;
        rest <- dates_loop fuel' d' end_ ;;
        Some (d :: rest)
      else Some []
  end.

(** [iter_dates_1999], as the list of the dates it yields. *)
Definition iter_dates_1999 (fuel : nat) : option (list date) :=
  dates_loop fuel (mk_date 1999 1 1) (mk_date 1999 12 31).

Definition BASE_1999 : string :=
  "https://www.nrc.gov/reading-rm/doc-collections/event-status/reactor-status/1999".

(** [n] characters ["0"]. *)
Fixpoint zeros (n : nat) : string :=
  match n with
  | O => EmptyString
  | S k => String "0" (zeros k)
  end.

(** A decimal number padded with zeros on the left up to [width]. *)
Definition zfill (width : nat) (s : string) : string :=
  zeros (width - String.length s) ++ s.

(** [d.strftime('%Y%m%d')]: the year on four digits, the month and the
    day on two. *)
Definition strftime_Ymd (d : date) : string :=
  zfill 4 (str_of_int (year d)) ++ zfill 2 (str_of_int (month d))
  ++ zfill 2 (str_of_int (day d)).

(** [url_for_day] *)
Definition url_for_day (d : date) : string :=
  BASE_1999 ++ "/" ++ strftime_Ymd d ++ "ps.html".

(** ** The world outside the program *)

(** The result of one run of [curl] through [subprocess.run]: the process
    completed, with its return code and the characters of its two output
    streams, or the call raised the exception [e]. *)
Inductive Outcome :=
| Completed (returncode : Z) (stdout stderr : string)
| Raised (e : string).

(** The lines that [main] prints on the standard error. *)
Inductive LogLine :=
| WARN (d : date) (e : string)
| INFO (i : nat) (total_rows : nat)
| DONE (total_rows : nat).

(** - [files]: the text files, by path; a file is written whole and
      writing always succeeds;
    - [curl url n]: the outcome of the run of [curl] on [url] that is the
      [n]-th run of the process overall;
    - [runs]: the number of runs of [curl] so far;
    - [sleeps]: the attempt numbers passed to [time.sleep], each standing
      for a pause of [backoff_s * attempt] seconds;
    - [stderr]: the lines printed so far. *)
Record World := mk_World {
  files : string -> option string;
  curl : string -> nat -> Outcome;
  runs : nat;
  sleeps : list Z;
  stderr : list LogLine
}.

(** [s.replace("\r\n", "\n")] *)
Fixpoint replace_crlf (s : string) : string :=
  match s with
  | EmptyString => EmptyString
  | String c r =>
      match r with
      | String c' r' =>
          if Ascii.eqb c (ascii_of_nat 13) && Ascii.eqb c' (ascii_of_nat 10)
          then String (ascii_of_nat 10) (replace_crlf r')
          else String c (replace_crlf r)
      | EmptyString => String c EmptyString
      end
  end.

(** The translation of line ends that text mode applies to what is read
    from a pipe or a file: [s.replace("\r\n", "\n").replace("\r", "\n")]. *)
Definition translate_newlines (s : string) : string :=
  replace_char (ascii_of_nat 13) (ascii_of_nat 10) (replace_crlf s).

(** [path.read_text(encoding="utf-8", errors="replace")] on a file that
    exists. *)
Definition read_text (content : string) : string :=
  translate_newlines content.

(** [path.write_text(html, encoding="utf-8")], after the [mkdir] of the
    parent directory. *)
Definition write_text (w : World) (path html : string) : World :=
  mk_World (fun p => if String.eqb p path then Some html else files w p)
    (curl w) (runs w) (sleeps w) (stderr w).

(** [subprocess.run(["curl", "-fsSL", url], ...)] *)
Definition run_curl (w : World) (url : string) : World * Outcome :=
  (mk_World (files w) (curl w) (S (runs w)) (sleeps w) (stderr w),
   curl w url (runs w)).

(** [time.sleep(backoff_s * attempt)] *)
Definition sleep (w : World) (attempt : Z) : World :=
  mk_World (files w) (curl w) (runs w) (sleeps w ++ [attempt]) (stderr w).

(** [print(..., file=sys.stderr)] *)
Definition log (w : World) (l : LogLine) : World :=
  mk_World (files w) (curl w) (runs w) (sleeps w) (stderr w ++ [l]).

(** ** [fetch_html] *)

(** A returned value, or the [str] of the exception raised. *)
Inductive Result :=
| Ok (html : string)
| Error (e : string).

(** [str(n)] for an integer. *)
Definition str_of_Z (n : Z) : string :=
  if (n <? 0)%Z then "-" ++ str_of_int (Z.to_N (- n))
  else str_of_int (Z.to_N n).

(** [range(a, b)] *)
Definition range (a b : Z) : list Z :=
  map (fun k => (a + Z.of_nat k)%Z) (seq 0 (Z.to_nat (b - a))).

(** The body of the [try] statement: one run of [curl], the test of its
    return code, and the write to the cache. *)
Definition attempt_body (url : string) (cache_path : option string)
    (w : World) : World * Result :=
  let '(w, proc) := run_curl w url in
  match proc with
  | Raised e => (w, Error e)
  | Completed returncode stdout stderr =>
      if negb (returncode =? 0)%Z then
        let msg := _norm_space (translate_newlines stderr) in
        (w, Error (if truthy msg then msg
                   else "curl exit " ++ str_of_Z returncode))
      else
        let html := translate_newlines stdout in
        match cache_path with
        | Some path => (write_text w path html, Ok html)
        | None => (w, Ok html)
        end
  end.

(** [raise RuntimeError(f"Failed to fetch {url}: {last_err}")] *)
Definition failed_to_fetch (url : string) (last_err : option string)
    : Result :=
  Error ("Failed to fetch " ++ url ++ ": "
         ++ match last_err with Some e => e | None => "None" end).

(** The [for attempt in range(1, retries + 1)] loop with its handler:
    a failed attempt sleeps and goes on while [attempt < retries], and
    breaks otherwise; the statement after the loop raises. *)
Fixpoint attempts_loop (url : string) (cache_path : option string)
    (retries : Z) (attempts : list Z) (last_err : option string)
    (w : World) : World * Result :=
  match attempts with
  | [] => (w, failed_to_fetch url last_err)
  | attempt :: rest =>
      match attempt_body url cache_path w with
      | (w, Ok html) => (w, Ok html)
      | (w, Error e) =>
          let last_err := Some e in
          if (attempt <? retries)%Z then
            attempts_loop url cache_path retries rest last_err
              (sleep w attempt)
          else (w, failed_to_fetch url last_err)
      end
  end.

(** [fetch_html]; the pause factor [backoff_s] only scales the pauses. *)
Definition fetch_html (url : string) (cache_path : option string)
    (retries : Z) (w : World) : World * Result :=
  match cache_path with
  | Some path =>
      match files w path with
      | Some content => (w, Ok (read_text content))
      | None =>
          attempts_loop url cache_path retries (range 1 (retries + 1))
            None w
      end
  | None =>
      attempts_loop url cache_path retries (range 1 (retries + 1)) None w
  end.

(** ** [main] *)

Section Main.

(** The callbacks that [HTMLParser.feed] delivers for a text. *)
Variable tokenize : string -> list Event.

(** [cache_dir / f"{d.strftime('%Y%m%d')}.html"], or [None] without a
    cache directory. *)
Definition cache_file (cache_dir : option string) (d : date)
    : option string :=
  match cache_dir with
  | Some dir => Some (dir ++ "/" ++ strftime_Ymd d ++ ".html")
  | None => None
  end.

(** The body of the [try] statement of the loop of [main]: the lines to
    write and their number, or the exception caught. *)
Definition day_body (cache_dir : option string) (d : date) (w : World)
    : World * (list string * nat + string) :=
  match fetch_html (url_for_day d) (cache_file cache_dir d) 5 w with
  | (w, Ok html) =>
      match parse_rows d (tokenize html) with
      | Some rows =>
          (w, inl (map (fun r => to_psv r ++ newline) rows,
                   List.length rows))
      | None => (w, inr "list index out of range")
      end
  | (w, Error e) => (w, inr e)
  end.

(** The loop of [main] over [enumerate(iter_dates_1999(), start=1)]. *)
Fixpoint main_days (cache_dir : option string) (days : list (nat * date))
    (w : World) (f : list string) (total_rows : nat)
    : World * list string * nat :=
  match days with
  | [] => (w, f, total_rows)
  | (i, d) :: rest =>
      let '(w, f, total_rows) :=
        match day_body cache_dir d w with
        | (w, inl (lines, n)) => (w, (f ++ lines)%list, total_rows + n)
        | (w, inr e) => (log w (WARN d e), f, total_rows)
        end in
      let w :=
        if (i mod 10 =? 0)%nat then log w (INFO i total_rows) else w in
      main_days cache_dir rest w f total_rows
  end.


End Main.

(** * [parse_rows] on a text *)

(** [parser.feed(html)] hands the text to the tokenizer of the standard
    library, which delivers the callbacks of the text or raises; no
    statement of [parse_rows] catches what it raises.  The tokenizer is
    a parameter: [None] where it raises. *)
Definition parse_rows_text (tokenize : string -> option (list Event))
    (report_date : date) (html : string) : option (list Row) :=
  callbacks <- tokenize html ;;
  parse_rows report_date callbacks.

(** * The scanner and the classifier on list objects *)

(** A Python list is an object: [l.append(v)] changes it in place, for
    every holder of a reference to it, a list put into another list is
    held there by reference, and an object lives on after the call that
    made it.  The definitions above give each attribute of the scanner
    the value of its list.  Here the attributes hold addresses, the lists
    live in a heap that one call of [parse_rows] hands over to the next,
    [[]] makes a new object and [append] changes the object it is called
    on.  The heap keeps the lists of each annotated type apart:
    [list[str]], [list[list[str]]], [list[list[list[str]]]] and
    [list[Row]]; a list of lists holds the addresses of its elements. *)

Module Ref.

Section Objects.

Context {A : Type}.

(** [[]]: a new object after the existing ones, and its address. *)
Definition new_list (objs : list (list A)) : list (list A) * nat :=
  ((objs ++ [[]])%list, List.length objs).

(** [l.append(v)] for the object [l] at address [a]. *)
Fixpoint list_append (objs : list (list A)) (a : nat) (v : A)
    : list (list A) :=
  match objs, a with
  | [], _ => []
  | o :: rest, O => (o ++ [v])%list :: rest
  | o :: rest, S a' => o :: list_append rest a' v
  end.

(** The elements of the object at address [a]. *)
Definition contents (objs : list (list A)) (a : nat) : list A :=
  nth a objs [].

End Objects.

Record Heap := mk_Heap {
  str_lists : list (list string);
  row_lists : list (list nat);
  table_lists : list (list nat);
  record_lists : list (list Row)
}.

Definition new_str_list (h : Heap) : Heap * nat :=
  (mk_Heap (fst (new_list (str_lists h))) (row_lists h) (table_lists h)
     (record_lists h),
   snd (new_list (str_lists h))).
Definition new_row_list (h : Heap) : Heap * nat :=
  (mk_Heap (str_lists h) (fst (new_list (row_lists h))) (table_lists h)
     (record_lists h),
   snd (new_list (row_lists h))).
Definition new_table_list (h : Heap) : Heap * nat :=
  (mk_Heap (str_lists h) (row_lists h) (fst (new_list (table_lists h)))
     (record_lists h),
   snd (new_list (table_lists h))).
Definition new_record_list (h : Heap) : Heap * nat :=
  (mk_Heap (str_lists h) (row_lists h) (table_lists h)
     (fst (new_list (record_lists h))),
   snd (new_list (record_lists h))).

Definition append_str (h : Heap) (l : nat) (s : string) : Heap :=
  mk_Heap (list_append (str_lists h) l s) (row_lists h) (table_lists h)
    (record_lists h).
Definition append_row (h : Heap) (l : nat) (row : nat) : Heap :=
  mk_Heap (str_lists h) (list_append (row_lists h) l row) (table_lists h)
    (record_lists h).
Definition append_table (h : Heap) (l : nat) (table : nat) : Heap :=
  mk_Heap (str_lists h) (row_lists h) (list_append (table_lists h) l table)
    (record_lists h).
Definition append_record (h : Heap) (l : nat) (r : Row) : Heap :=
  mk_Heap (str_lists h) (row_lists h) (table_lists h)
    (list_append (record_lists h) l r).

(** The value of a list, read through the references it holds. *)
Definition read_strs (h : Heap) (l : nat) : list string :=
  contents (str_lists h) l.
Definition read_rows (h : Heap) (l : nat) : list (list string) :=
  map (read_strs h) (contents (row_lists h) l).
Definition read_tables (h : Heap) (l : nat) : list (list (list string)) :=
  map (read_rows h) (contents (table_lists h) l).
Definition read_records (h : Heap) (l : nat) : list Row :=
  contents (record_lists h) l.

(** ** [_TableExtractor] *)

(** The instance attributes; the four lists are held by address. *)
Record _TableExtractor := mk_extractor {
  _in_table : Z;
  _in_tr : bool;
  _in_cell : bool;
  _cell_buf : nat;
  _current_row : nat;
  _current_table : nat;
  tables : nat
}.

(** The heap and the scanner object. *)
Definition State : Type := Heap * _TableExtractor.

(** [_TableExtractor()]: [__init__] makes four new lists. *)
Definition new_extractor (h : Heap) : State :=
  let '(h, cell_buf) := new_str_list h in
  let '(h, current_row) := new_str_list h in
  let '(h, current_table) := new_row_list h in
  let '(h, tables) := new_table_list h in
  (h, mk_extractor 0 false false cell_buf current_row current_table tables).

Definition set_in_table (self : _TableExtractor) (v : Z) :=
  mk_extractor v (_in_tr self) (_in_cell self) (_cell_buf self)
    (_current_row self) (_current_table self) (tables self).
Definition set_in_tr (self : _TableExtractor) (v : bool) :=
  mk_extractor (_in_table self) v (_in_cell self) (_cell_buf self)
    (_current_row self) (_current_table self) (tables self).
Definition set_in_cell (self : _TableExtractor) (v : bool) :=
  mk_extractor (_in_table self) (_in_tr self) v (_cell_buf self)
    (_current_row self) (_current_table self) (tables self).
Definition set_cell_buf (self : _TableExtractor) (v : nat) :=
  mk_extractor (_in_table self) (_in_tr self) (_in_cell self) v
    (_current_row self) (_current_table self) (tables self).
Definition set_current_row (self : _TableExtractor) (v : nat) :=
  mk_extractor (_in_table self) (_in_tr self) (_in_cell self) (_cell_buf self)
    v (_current_table self) (tables self).
Definition set_current_table (self : _TableExtractor) (v : nat) :=
  mk_extractor (_in_table self) (_in_tr self) (_in_cell self) (_cell_buf self)
    (_current_row self) v (tables self).

(** [_TableExtractor.handle_starttag] *)
Definition handle_starttag (st : State) (tag : string) : State :=
  let tag := lower tag in
  let st :=
    let '(h, self) := st in
    if tag =? "table" then
      let self := set_in_table self (_in_table self + 1) in
      if (_in_table self =? 1)%Z then
        let '(h, l) := new_row_list h in (h, set_current_table self l)
      else (h, self)
    else (h, self) in
  let st :=
    let '(h, self) := st in
    if (1 <=? _in_table self)%Z && (tag =? "tr") then
      let self := set_in_tr self true in
      let '(h, l) := new_str_list h in (h, set_current_row self l)
    else (h, self) in
  let st :=
    let '(h, self) := st in
    if (1 <=? _in_table self)%Z && _in_tr self && is_cell_tag tag then
      let self := set_in_cell self true in
      let '(h, l) := new_str_list h in (h, set_cell_buf self l)
    else (h, self) in
  let st :=
    let '(h, self) := st in
    if (1 <=? _in_table self)%Z && _in_cell self && is_break_tag tag then
      (append_str h (_cell_buf self) " ", self)
    else (h, self) in
  st.

(** [_TableExtractor.handle_endtag] *)
Definition handle_endtag (st : State) (tag : string) : State :=
  let tag := lower tag in
  let st :=
    let '(h, self) := st in
    if (1 <=? _in_table self)%Z && _in_tr self && is_cell_tag tag
       && _in_cell self then
      let self := set_in_cell self false in
      let cell_text := _norm_space (join (read_strs h (_cell_buf self))) in
      let h := append_str h (_current_row self) cell_text in
      let '(h, l) := new_str_list h in (h, set_cell_buf self l)
    else (h, self) in
  let st :=
    let '(h, self) := st in
    if (1 <=? _in_table self)%Z && (tag =? "tr") && _in_tr self then
      let self := set_in_tr self false in
      let h :=
        if existsb (fun c => truthy (strip c))
             (read_strs h (_current_row self)) then
          append_row h (_current_table self) (_current_row self)
        else h in
      let '(h, l) := new_str_list h in (h, set_current_row self l)
    else (h, self) in
  let st :=
    let '(h, self) := st in
    if (tag =? "table") && (1 <=? _in_table self)%Z then
      let self := set_in_table self (_in_table self - 1) in
      if (_in_table self =? 0)%Z then
        let h :=
          if nonempty (contents (row_lists h) (_current_table self)) then
            append_table h (tables self) (_current_table self)
          else h in
        let '(h, l) := new_row_list h in (h, set_current_table self l)
      else (h, self)
    else (h, self) in
  st.

(** [_TableExtractor.handle_data] *)
Definition handle_data (st : State) (d : string) : State :=
  let '(h, self) := st in
  if (1 <=? _in_table self)%Z && _in_cell self then
    (append_str h (_cell_buf self) d, self)
  else (h, self).

Definition dispatch (st : State) (e : Event) : State :=
  match e with
  | starttag tag => handle_starttag st tag
  | endtag tag => handle_endtag st tag
  | data d => handle_data st d
  end.

(** [parser.feed(html)], on the callbacks of [html]. *)
Definition feed (st : State) (html : list Event) : State :=
  fold_left dispatch html st.

(** ** [parse_rows] *)

(** A statement that changes the heap and may raise: the heap it leaves,
    with its value, or [None] when it raised. *)
Definition Run (A : Type) : Type := Heap -> Heap * option A.

Definition ret {A} (v : A) : Run A := fun h => (h, Some v).

Definition bind {A B} (m : Run A) (k : A -> Run B) : Run B :=
  fun h =>
    match m h with
    | (h, Some v) => k v h
    | (h, None) => (h, None)
    end.

Notation "x <~ m ;; k" := (bind m (fun x => k))
  (at level 61, m at next level, right associativity).

(** An expression that only reads. *)
Definition eval {A} (v : option A) : Run A := fun h => (h, v).

(** [out.append(r)] *)
Definition out_append (out : nat) (r : Row) : Run Datatypes.unit :=
  fun h => (append_record h out r, Some tt).

(** The loop over the rows after the header; [out] is the address of the
    list that the records are appended to. *)
Fixpoint rows_loop (report_date : date) (unit_idx power_idx : nat)
    (reason_idx : option nat) (rows : list (list string)) (out : nat)
    : Run Datatypes.unit :=
  match rows with
  | [] => ret tt
  | row :: rest =>
      if (List.length row <=? unit_idx)%nat
         || (List.length row <=? power_idx)%nat then
        rows_loop report_date unit_idx power_idx reason_idx rest out
      else
        u <~ eval (getitem row unit_idx) ;;
        p <~ eval (getitem row power_idx) ;;
        let unit := _norm_space u in
        let power := _norm_space p in
        reason <~
          eval match reason_idx with
               | Some ri =>
                   if (ri <? List.length row)%nat
                   then (r <- getitem row ri ;; Some (_norm_space r))
                   else Some ""
               | None => Some ""
               end ;;
        if negb (truthy unit) || (lower unit =? "unit") then
          rows_loop report_date unit_idx power_idx reason_idx rest out
        else
          _ <~ out_append out (mk_Row report_date unit power reason) ;;
          rows_loop report_date unit_idx power_idx reason_idx rest out
  end.

(** The body of [for table in tables]. *)
Definition table_body (report_date : date) (table : list (list string))
    (out : nat) : Run Datatypes.unit :=
  let '(header_row_idx, headers) := header_loop (enumerate table) in
  match header_row_idx with
  | None => ret tt
  | Some hidx =>
      if negb (nonempty headers) then ret tt
      else
        let unit_idx := _find_col_idx headers unit_pred in
        let power_idx := _find_col_idx headers power_pred in
        let reason_idx := _find_col_idx headers reason_pred in
        match unit_idx, power_idx with
        | Some ui, Some pi =>
            rows_loop report_date ui pi reason_idx (skipn (hidx + 1) table)
              out
        | _, _ => ret tt
        end
  end.

Fixpoint tables_loop (report_date : date)
    (tbls : list (list (list string))) (out : nat) : Run Datatypes.unit :=
  match tbls with
  | [] => ret tt
  | table :: rest =>
      _ <~ table_body report_date table out ;;
      tables_loop report_date rest out
  end.

(** [parse_rows], from the heap that it finds to the heap that it leaves
    and the address of the list that it returns.  The loops read the
    tables through the references of [parser.tables]; they change no
    list but [out]. *)
Definition parse_rows (report_date : date) (html : list Event)
    : Run nat :=
  fun h =>
    let '(h, out) := new_record_list h in
    let '(h, parser) := feed (new_extractor h) html in
    let tables := read_tables h (tables parser) in
    (_ <~ tables_loop report_date tables out ;; ret out) h.

End Ref.

(** * Specification-level definitions *)

Open Scope list_scope.

(** [s] begins with [p]. *)
Definition begins_with (p s : string) : Prop :=
  exists t, s = (p ++ t)%string.

(** The pairs of [enumerate] from position [k] on. *)
Definition enumerate_from {A} (k : nat) (l : list A) : list (nat * A) :=
  combine (seq k (List.length l)) l.

(** [i] is the first position of [l], counted from [k], whose element
    satisfies [p], and [a] is that element. *)
Definition first_at {A} (p : A -> bool) (k : nat) (l : list A) (i : nat)
    (a : A) : Prop :=
  k <= i /\ nth_error l (i - k) = Some a /\ p a = true /\
  forall j b, k <= j < i -> nth_error l (j - k) = Some b -> p b = false.

(** *** The classifier, in the words of the specification *)

(** A cell after lower-casing and white-space normalisation. *)
Definition lowered_cell (c : string) : string := lower (_norm_space c).

(** A row qualifies as the header row: one of its lowered cells is
    ["unit"], and one is ["power"] or begins with ["power"]. *)
Definition qualifies_as_header (row : list string) : Prop :=
  (exists c, In c row /\ lowered_cell c = "unit") /\
  (exists c, In c row /\
     (lowered_cell c = "power" \/ begins_with "power" (lowered_cell c))).

(** Column labels of the column resolution. *)
Definition unit_label (h : string) : Prop :=
  h = "unit" \/ begins_with "unit " h.
Definition power_label (h : string) : Prop :=
  h = "power" \/ begins_with "power " h.

(** The row is long enough for both required columns. *)
Definition row_covers (unit_idx power_idx : nat) (row : list string) : Prop :=
  unit_idx < List.length row /\ power_idx < List.length row.

(** The cell of [row] in column [i], normalised ([""] out of range). *)
Definition field (i : nat) (row : list string) : string :=
  _norm_space (nth i row "").

(** The reason of a row: [""] when the column is unresolved or outside
    the row. *)
Definition reason_field (reason_idx : option nat) (row : list string)
    : string :=
  match reason_idx with
  | Some ri => if (ri <? List.length row)%nat then field ri row else ""
  | None => ""
  end.

(** The three conditions under which a data row is passed over. *)
Definition row_skipped (unit_idx power_idx : nat) (row : list string)
    : Prop :=
  ~ row_covers unit_idx power_idx row
  \/ field unit_idx row = ""
  \/ lower (field unit_idx row) = "unit".

(** The record of a data row that is not passed over. *)
Definition row_record (report_date : date) (unit_idx power_idx : nat)
    (reason_idx : option nat) (row : list string) : Row :=
  mk_Row report_date (field unit_idx row) (field power_idx row)
    (reason_field reason_idx row).

(** What one data row adds to the output. *)
Definition row_output (report_date : date) (unit_idx power_idx : nat)
    (reason_idx : option nat) (row : list string) : list Row :=
  if (unit_idx <? List.length row)%nat && (power_idx <? List.length row)%nat
     && negb (field unit_idx row =? "")
     && negb (lower (field unit_idx row) =? "unit")
  then [row_record report_date unit_idx power_idx reason_idx row]
  else [].

(** What one table adds to the output: nothing without a header row or
    without both required columns, else the output of each row after the
    header row, in order. *)
Definition table_output (report_date : date) (table : list (list string))
    : list Row :=
  match header_loop (enumerate table) with
  | (Some hidx, headers) =>
      match _find_col_idx headers unit_pred,
            _find_col_idx headers power_pred with
      | Some ui, Some pi =>
          flat_map
            (row_output report_date ui pi (_find_col_idx headers reason_pred))
            (skipn (hidx + 1) table)
      | _, _ => []
      end
  | (None, _) => []
  end.

(** *** White-space normalisation, in the words of the specification *)

(** [s] starts with a character that is not white space. *)
Definition starts_word (s : string) : bool :=
  match s with
  | EmptyString => false
  | String c _ => negb (isspace c)
  end.

(** The words of [s]: its maximal runs of characters that are not white
    space, in order.  A character that is not white space extends the word
    that starts right after it, or else is a word of its own. *)
Fixpoint words (s : string) : list string :=
  match s with
  | EmptyString => []
  | String c r =>
      if isspace c then words r
      else if starts_word r then
        match words r with
        | w :: ws => String c w :: ws
        | [] => [String c EmptyString]
        end
      else String c EmptyString :: words r
  end.

(** The words joined by single spaces: white-space runs collapsed to one
    space each, none at either end. *)
Definition collapsed (s : string) : string := String.concat " " (words s).

(** *** Documents as callback sequences *)

(** The tags that the scanner treats as table structure. *)
Definition structural (tag : string) : bool :=
  (lower tag =? "table") || (lower tag =? "tr") || is_cell_tag (lower tag).

(** An event that carries no table structure: text, or a tag other than
    [table], [tr], [td], [th]. *)
Definition inline (e : Event) : Prop :=
  match e with
  | data _ => True
  | starttag t | endtag t => structural t = false
  end.

(** An event that does not open a table. *)
Definition outside (e : Event) : Prop :=
  match e with
  | starttag t => (lower t =? "table") = false
  | _ => True
  end.

(** An event that opens or closes neither a table nor a row. *)
Definition no_row_tag (e : Event) : Prop :=
  match e with
  | data _ => True
  | starttag t | endtag t =>
      (lower t =? "table") = false /\ (lower t =? "tr") = false
  end.

(** The text that an inline event puts into the buffer of an open cell. *)
Definition chunk (e : Event) : list string :=
  match e with
  | data d => [d]
  | starttag t => if is_break_tag (lower t) then [" "] else []
  | endtag _ => []
  end.

(** The text of a cell with the given inline content. *)
Definition cell_text (content : list Event) : string :=
  _norm_space (join (flat_map chunk content)).

(** [cells_of es cs]: [es] is the inside of a well-formed row, made of
    closed cells with inline content and of inline events between them;
    [cs] are the texts of the cells. *)
Inductive cells_of : list Event -> list string -> Prop :=
| cells_nil : cells_of [] []
| cells_skip e es cs :
    inline e -> cells_of es cs -> cells_of (e :: es) cs
| cells_cell t t' content es cs :
    is_cell_tag (lower t) = true -> is_cell_tag (lower t') = true ->
    Forall inline content -> cells_of es cs ->
    cells_of (starttag t :: content ++ endtag t' :: es)
             (cell_text content :: cs).

(** [rows_of es rs]: [es] is the inside of a well-formed table without
    nested tables; [rs] are its rows. *)
Inductive rows_of : list Event -> list (list string) -> Prop :=
| rows_nil : rows_of [] []
| rows_skip e es rs :
    inline e -> rows_of es rs -> rows_of (e :: es) rs
| rows_row t t' body es cs rs :
    lower t = "tr" -> lower t' = "tr" ->
    cells_of body cs -> rows_of es rs ->
    rows_of (starttag t :: body ++ endtag t' :: es) (cs :: rs).

(** [table_of es rs]: [es] is one well-formed table with rows [rs]. *)
Inductive table_of : list Event -> list (list string) -> Prop :=
| table_intro t t' body rs :
    lower t = "table" -> lower t' = "table" -> rows_of body rs ->
    table_of (starttag t :: body ++ [endtag t']) rs.

(** [doc_of es ts]: [es] is a document whose tables are well formed and
    not nested; [ts] are its tables. *)
Inductive doc_of : list Event -> list (list (list string)) -> Prop :=
| doc_nil : doc_of [] []
| doc_skip e es ts :
    outside e -> doc_of es ts -> doc_of (e :: es) ts
| doc_table tb es rs ts :
    table_of tb rs -> doc_of es ts -> doc_of (tb ++ es) (rs :: ts).

(** The rows that are kept: those with a cell that is not blank. *)
Definition kept_rows (rs : list (list string)) : list (list string) :=
  filter (existsb (fun c => truthy (strip c))) rs.

(** A table is listed when it has a kept row. *)
Definition listed (rs : list (list string)) : list (list (list string)) :=
  if nonempty rs then [rs] else [].

(** The table list of a document with tables [ts]. *)
Definition captured (ts : list (list (list string)))
    : list (list (list string)) :=
  flat_map (fun rs => listed (kept_rows rs)) ts.

(** A document with one outer table that holds a table inside a cell:
    [rows1] are the outer rows before the row with the nested table,
    [before] the cells of that row before the cell that holds it,
    [content1] and [content2] the inline content of that cell around the
    nested table [inner], [after] the cells after it, [rows3] the outer
    rows after that row; [pre] and [post] lie outside the outer table. *)
Definition nested_document (pre rows1 before : list Event) (t_cell : string)
    (content1 inner content2 : list Event) (t_cell' : string)
    (after rows3 post : list Event) : list Event :=
  pre ++ [starttag "table"] ++ rows1
    ++ [starttag "tr"] ++ before
    ++ [starttag t_cell] ++ content1 ++ inner ++ content2 ++ [endtag t_cell']
    ++ after ++ [endtag "tr"]
    ++ rows3 ++ [endtag "table"] ++ post.

(** *** Documents written out from a grid of cell texts *)

(** One cell, one row, one table, with lower-case tags and the text of
    each cell in one piece. *)
Definition cell_events (text : string) : list Event :=
  [starttag "td"; data text; endtag "td"].

Definition row_events (cs : list string) : list Event :=
  starttag "tr" :: flat_map cell_events cs ++ [endtag "tr"].

Definition table_events (rs : list (list string)) : list Event :=
  starttag "table" :: flat_map row_events rs ++ [endtag "table"].

(** *** End tags without an open element *)

(** No element that the end tag [tag] could close is open: no cell for
    [td] and [th], no row for [tr], no table for [table].  Other end tags
    close nothing that the scanner tracks. *)
Definition unmatched (self : _TableExtractor) (tag : string) : Prop :=
  (is_cell_tag (lower tag) = true -> _in_cell self = false)
  /\ (lower tag = "tr" -> _in_tr self = false)
  /\ (lower tag = "table" -> _in_table self = 0%Z).

(** The start tag [t] opens an element that the end tag [tag] closes. *)
Definition opens_for (t tag : string) : Prop :=
  (is_cell_tag (lower t) = true /\ is_cell_tag (lower tag) = true)
  \/ (lower t = "tr" /\ lower tag = "tr")
  \/ (lower t = "table" /\ lower tag = "table").

(** *** Serialisation, in the words of the specification *)

(** The date part of a line. *)
Definition date_text (d : date) : string :=
  (str_of_int (month d) ++ "/" ++ str_of_int (day d) ++ "/"
   ++ str_of_int (year d))%string.

(** A field with every ["|"] replaced by a single space. *)
Fixpoint pipes_to_spaces (s : string) : string :=
  match s with
  | EmptyString => EmptyString
  | String c r =>
      String (if Ascii.eqb c "|" then " "%char else c) (pipes_to_spaces r)
  end.

(** The line as the specification words it: the date and the three
    fields, each with its ["|"] replaced by a single space. *)
Definition psv_line_replacing (r : Row) : string :=
  (date_text (report_date r) ++ "|" ++ pipes_to_spaces (unit r)
   ++ "|" ++ pipes_to_spaces (power r)
   ++ "|" ++ pipes_to_spaces (reason r))%string.

(** The number of occurrences of the character [c] in [s]. *)
Fixpoint count_char (c : ascii) (s : string) : nat :=
  match s with
  | EmptyString => 0
  | String a r => (if Ascii.eqb a c then 1 else 0) + count_char c r
  end.

(** The lines written for one page. *)
Definition page_lines (d : date) (html : list Event) : list string :=
  match parse_rows d html with
  | Some rows => map (fun r => (to_psv r ++ newline)%string) rows
  | None => []
  end.

(** The lines written for one day of the driver loop. *)
Definition day_lines (p : date * option (list Event)) : list string :=
  match p with
  | (d, Some html) => page_lines d html
  | (_, None) => []
  end.

(** *** Normal form of a cell text *)

(** [tidy_from prev_space s]: every white-space character of [s] is a
    plain space, no space follows a space (or the start, when
    [prev_space]), and [s] does not end with a space. *)
Fixpoint tidy_from (prev_space : bool) (s : string) : bool :=
  match s with
  | EmptyString => negb prev_space
  | String c r =>
      if isspace c
      then Ascii.eqb c " " && negb prev_space && tidy_from true r
      else tidy_from false r
  end.

(** [s] is in normal form: words separated by single plain spaces, with
    nothing before the first word or after the last. *)
Definition tidy (s : string) : bool :=
  match s with
  | EmptyString => true
  | _ => tidy_from true s
  end.

(** [s] holds white space only. *)
Fixpoint blank (s : string) : bool :=
  match s with
  | EmptyString => true
  | String c r => isspace c && blank r
  end.

(** The pieces of [s] between the occurrences of [c], as [s.split(c)]
    gives them. *)
Fixpoint split_on (c : ascii) (s : string) : list string :=
  match s with
  | EmptyString => [EmptyString]
  | String a r =>
      if Ascii.eqb a c then EmptyString :: split_on c r
      else match split_on c r with
           | w :: ws => String a w :: ws
           | [] => [String a EmptyString]
           end
  end.

(** *** What the scanner keeps true *)

(** A row with a cell that is not blank, all cells in normal form. *)
Definition clean_row (r : list string) : Prop :=
  existsb (fun c => truthy (strip c)) r = true
  /\ Forall (fun c => tidy c = true) r.

(** A table with at least one row, all rows clean. *)
Definition clean_table (t : list (list string)) : Prop :=
  t <> [] /\ Forall clean_row t.

(** The invariant of the scanner. *)
Definition scan_inv (self : _TableExtractor) : Prop :=
  (0 <= _in_table self)%Z
  /\ (_in_table self = 0%Z -> _current_table self = [])
  /\ Forall (fun c => tidy c = true) (_current_row self)
  /\ Forall clean_row (_current_table self)
  /\ Forall clean_table (tables self).

(** Two events that differ at most in the case of the tag name. *)
Definition same_event (e1 e2 : Event) : Prop :=
  match e1, e2 with
  | starttag t1, starttag t2 => lower t1 = lower t2
  | endtag t1, endtag t2 => lower t1 = lower t2
  | data d1, data d2 => d1 = d2
  | _, _ => False
  end.

(** *** Records *)

(** What every record returned for the date [d] satisfies: it carries
    [d], its unit is not empty and is not the word ["unit"] in any case,
    and its three fields are in normal form. *)
Definition well_formed_record (d : date) (r : Row) : Prop :=
  report_date r = d
  /\ unit r <> "" /\ lower (unit r) <> "unit"
  /\ tidy (unit r) = true /\ tidy (power r) = true /\ tidy (reason r) = true.

(** The record [r] with the date [d]. *)
Definition with_date (d : date) (r : Row) : Row :=
  mk_Row d (unit r) (power r) (reason r).

(** *** Fetching *)

(** The attempt with this outcome fails: the call raised, or [curl]
    returned a code other than 0. *)
Definition attempt_fails (o : Outcome) : bool :=
  match o with
  | Completed returncode _ _ => negb (returncode =? 0)%Z
  | Raised _ => true
  end.

(** The error of a failed attempt: the exception raised by the call, or
    what [curl] printed on its standard error, normalised, or else its
    return code. *)
Definition attempt_error (o : Outcome) : string :=
  match o with
  | Raised e => e
  | Completed returncode _ stderr =>
      if truthy (_norm_space (translate_newlines stderr))
      then _norm_space (translate_newlines stderr)
      else ("curl exit " ++ str_of_Z returncode)%string
  end.

(** The attempt numbers [a], [a + 1], ... ([n] of them). *)
Definition attempt_numbers (a n : nat) : list Z := map Z.of_nat (seq a n).

(** Every file of [w] is a file of [w'], with the same content. *)
Definition files_kept (w w' : World) : Prop :=
  forall p c, files w p = Some c -> files w' p = Some c.

(** The number of warnings printed so far. *)
Definition warnings (w : World) : nat :=
  List.length
    (filter (fun l => match l with WARN _ _ => true | _ => false end)
       (stderr w)).

(** *** The calendar of 1999 *)

(** The [n] numbers from [a] on. *)
Definition numbers (a n : nat) : list N := map N.of_nat (seq a n).

(** The days of 1999 in calendar order: January has 31 days, February
    28, and so on. *)
Definition days_of_1999 : list date :=
  flat_map
    (fun ml : N * nat => map (mk_date 1999 (fst ml)) (numbers 1 (snd ml)))
    (combine (numbers 1 12) [31; 28; 31; 30; 31; 30; 31; 31; 30; 31; 30; 31]).

(** The number that a string of decimal digits writes. *)
Fixpoint digits_value_from (acc : N) (s : string) : N :=
  match s with
  | EmptyString => acc
  | String c r => digits_value_from (10 * acc + (N_of_ascii c - 48)) r
  end.

Definition digits_value (s : string) : N := digits_value_from 0 s.

(** Every number below [bound], padded to [width], has [width] characters
    and writes the number. *)
Definition padded_numbers_ok (width bound : nat) : bool :=
  forallb
    (fun k =>
       let s := zfill width (str_of_int (N.of_nat k)) in
       (String.length s =? width)%nat && (digits_value s =? N.of_nat k)%N)
    (seq 0 bound).

(** A date whose fields have the widths that [strftime] gives them on
    every platform. *)
Definition four_digit_year (d : date) : Prop :=
  (1000 <= year d < 10000 /\ month d < 100 /\ day d < 100)%N.

(** *** Open elements and matching end tags *)

(** The three kinds of elements that the scanner tracks. *)
Inductive Kind := KTable | KRow | KCell.

Definition kind_eqb (k1 k2 : Kind) : bool :=
  match k1, k2 with
  | KTable, KTable | KRow, KRow | KCell, KCell => true
  | _, _ => false
  end.

(** The kind of element that a tag name opens or closes, if any. *)
Definition kind_of (tag : string) : option Kind :=
  if lower tag =? "table" then Some KTable
  else if lower tag =? "tr" then Some KRow
  else if is_cell_tag (lower tag) then Some KCell
  else None.

(** An element of kind [k] is open in the stack [st] (innermost first). *)
Definition is_open (k : Kind) (st : list Kind) : bool :=
  existsb (kind_eqb k) st.

(** The stack after closing the innermost open element of kind [k], and
    with it the elements opened inside it. *)
Fixpoint close_through (k : Kind) (st : list Kind) : list Kind :=
  match st with
  | [] => []
  | x :: rest => if kind_eqb x k then rest else close_through k rest
  end.

(** The open elements after one event, by the usual nesting of markup: a
    start tag opens an element; an end tag closes the innermost open
    element of its kind with all that is open inside it, and has no
    matching open tag when no element of its kind is open. *)
Definition open_step (st : list Kind) (e : Event) : list Kind :=
  match e with
  | data _ => st
  | starttag t =>
      match kind_of t with Some k => k :: st | None => st end
  | endtag t =>
      match kind_of t with
      | Some k => if is_open k st then close_through k st else st
      | None => st
      end
  end.

(** The open elements at the end of [html]. *)
Definition open_elements (html : list Event) : list Kind :=
  fold_left open_step html [].

(** The end tag [tag] has no matching open tag after [html]. *)
Definition no_matching_open_tag (html : list Event) (tag : string) : Prop :=
  match kind_of tag with
  | Some k => is_open k (open_elements html) = false
  | None => True
  end.

(** One event keeps the markup explicitly nested: a table starts outside
    every table, a row directly in a table, a cell directly in a row, and
    an end tag that has a matching open tag closes the innermost open
    element, so that no element is closed by the end of another. *)
Definition explicit_step (st : list Kind) (e : Event) : bool :=
  match e with
  | data _ => true
  | starttag t =>
      match kind_of t, st with
      | Some KTable, [] => true
      | Some KRow, [KTable] => true
      | Some KCell, [KRow; KTable] => true
      | Some _, _ => false
      | None, _ => true
      end
  | endtag t =>
      match kind_of t with
      | Some k =>
          negb (is_open k st)
          || match st with x :: _ => kind_eqb x k | [] => false end
      | None => true
      end
  end.

Fixpoint explicit_from (st : list Kind) (html : list Event) : bool :=
  match html with
  | [] => true
  | e :: rest => explicit_step st e && explicit_from (open_step st e) rest
  end.

(** [html] is explicitly nested; elements may be left open at its end,
    and end tags without a matching open tag may occur anywhere. *)
Definition explicitly_nested (html : list Event) : bool :=
  explicit_from [] html.

(** The flags of the scanner agree with the open elements. *)
Definition in_step_with (st : list Kind) (self : _TableExtractor) : Prop :=
  match st with
  | [] =>
      _in_table self = 0%Z /\ _in_tr self = false /\ _in_cell self = false
  | [KTable] =>
      _in_table self = 1%Z /\ _in_tr self = false /\ _in_cell self = false
  | [KRow; KTable] =>
      _in_table self = 1%Z /\ _in_tr self = true /\ _in_cell self = false
  | [KCell; KRow; KTable] =>
      _in_table self = 1%Z /\ _in_tr self = true /\ _in_cell self = true
  | _ => False
  end.

(** *** List objects and the values they hold *)

(** The scanner with the values of its lists in place of their
    addresses. *)
Definition snapshot (st : Ref.State) : _TableExtractor :=
  mk_extractor (Ref._in_table (snd st)) (Ref._in_tr (snd st))
    (Ref._in_cell (snd st))
    (Ref.read_strs (fst st) (Ref._cell_buf (snd st)))
    (Ref.read_strs (fst st) (Ref._current_row (snd st)))
    (Ref.read_rows (fst st) (Ref._current_table (snd st)))
    (Ref.read_tables (fst st) (Ref.tables (snd st))).

(** The objects of [objs0] are in [objs], at their addresses and with
    their elements. *)
Definition kept {A} (objs0 objs : list (list A)) : Prop :=
  List.length objs0 <= List.length objs
  /\ forall a, a < List.length objs0 ->
       Ref.contents objs a = Ref.contents objs0 a.

(** Every list of the heap [h0] is in [h], unchanged. *)
Definition preserved (h0 h : Ref.Heap) : Prop :=
  kept (Ref.str_lists h0) (Ref.str_lists h)
  /\ kept (Ref.row_lists h0) (Ref.row_lists h)
  /\ kept (Ref.table_lists h0) (Ref.table_lists h)
  /\ kept (Ref.record_lists h0) (Ref.record_lists h).

(** The object at address [a] of [objs] was made after [objs0]. *)
Definition made_since {A} (objs0 objs : list (list A)) (a : nat) : Prop :=
  List.length objs0 <= a < List.length objs.

(** A row that the scanner has put into a table: it is neither the
    current row nor the cell buffer. *)
Definition settled (h : Ref.Heap) (cell_buf current_row row : nat)
    : Prop :=
  row < List.length (Ref.str_lists h)
  /\ row <> cell_buf /\ row <> current_row.

(** The four lists of the scanner were made after [h0], the two lists of
    texts are distinct objects, and no list reachable from the tables
    is one that [append] will still be called on. *)
Definition owns_at (h0 h : Ref.Heap)
    (cell_buf current_row current_table tables : nat) : Prop :=
  preserved h0 h
  /\ made_since (Ref.str_lists h0) (Ref.str_lists h) cell_buf
  /\ made_since (Ref.str_lists h0) (Ref.str_lists h) current_row
  /\ cell_buf <> current_row
  /\ made_since (Ref.row_lists h0) (Ref.row_lists h) current_table
  /\ made_since (Ref.table_lists h0) (Ref.table_lists h) tables
  /\ Forall (settled h cell_buf current_row)
       (Ref.contents (Ref.row_lists h) current_table)
  /\ Forall (fun t => t < List.length (Ref.row_lists h)
                      /\ t <> current_table
                      /\ Forall (settled h cell_buf current_row)
                           (Ref.contents (Ref.row_lists h) t))
       (Ref.contents (Ref.table_lists h) tables).

Definition owns (h0 : Ref.Heap) (st : Ref.State) : Prop :=
  owns_at h0 (fst st) (Ref._cell_buf (snd st)) (Ref._current_row (snd st))
    (Ref._current_table (snd st)) (Ref.tables (snd st)).

(** The [if] statements of [handle_starttag] and [handle_endtag], one by
    one, on values and on objects; [tag] is the lowered tag. *)
Definition table_start (tag : string) (self : _TableExtractor)
    : _TableExtractor :=
  if tag =? "table" then
    let self := set_in_table self (_in_table self + 1) in
    if (_in_table self =? 1)%Z then set_current_table self [] else self
  else self.

Definition row_start (tag : string) (self : _TableExtractor)
    : _TableExtractor :=
  if (1 <=? _in_table self)%Z && (tag =? "tr") then
    set_current_row (set_in_tr self true) []
  else self.

Definition cell_start (tag : string) (self : _TableExtractor)
    : _TableExtractor :=
  if (1 <=? _in_table self)%Z && _in_tr self && is_cell_tag tag then
    set_cell_buf (set_in_cell self true) []
  else self.

Definition break_start (tag : string) (self : _TableExtractor)
    : _TableExtractor :=
  if (1 <=? _in_table self)%Z && _in_cell self && is_break_tag tag then
    set_cell_buf self (_cell_buf self ++ [" "])
  else self.

Definition cell_end (tag : string) (self : _TableExtractor)
    : _TableExtractor :=
  if (1 <=? _in_table self)%Z && _in_tr self && is_cell_tag tag
     && _in_cell self then
    let self := set_in_cell self false in
    let cell_text := _norm_space (join (_cell_buf self)) in
    let self := set_current_row self (_current_row self ++ [cell_text]) in
    set_cell_buf self []
  else self.

Definition row_end (tag : string) (self : _TableExtractor)
    : _TableExtractor :=
  if (1 <=? _in_table self)%Z && (tag =? "tr") && _in_tr self then
    let self := set_in_tr self false in
    let self :=
      if existsb (fun c => truthy (strip c)) (_current_row self) then
        set_current_table self (_current_table self ++ [_current_row self])
      else self in
    set_current_row self []
  else self.

Definition table_end (tag : string) (self : _TableExtractor)
    : _TableExtractor :=
  if (tag =? "table") && (1 <=? _in_table self)%Z then
    let self := set_in_table self (_in_table self - 1) in
    if (_in_table self =? 0)%Z then
      let self :=
        if nonempty (_current_table self) then
          set_tables self (tables self ++ [_current_table self])
        else self in
      set_current_table self []
    else self
  else self.

Definition ref_table_start (tag : string) (st : Ref.State) : Ref.State :=
  let '(h, self) := st in
  if tag =? "table" then
    let self := Ref.set_in_table self (Ref._in_table self + 1) in
    if (Ref._in_table self =? 1)%Z then
      let '(h, l) := Ref.new_row_list h in (h, Ref.set_current_table self l)
    else (h, self)
  else (h, self).

Definition ref_row_start (tag : string) (st : Ref.State) : Ref.State :=
  let '(h, self) := st in
  if (1 <=? Ref._in_table self)%Z && (tag =? "tr") then
    let self := Ref.set_in_tr self true in
    let '(h, l) := Ref.new_str_list h in (h, Ref.set_current_row self l)
  else (h, self).

Definition ref_cell_start (tag : string) (st : Ref.State) : Ref.State :=
  let '(h, self) := st in
  if (1 <=? Ref._in_table self)%Z && Ref._in_tr self && is_cell_tag tag then
    let self := Ref.set_in_cell self true in
    let '(h, l) := Ref.new_str_list h in (h, Ref.set_cell_buf self l)
  else (h, self).

Definition ref_break_start (tag : string) (st : Ref.State) : Ref.State :=
  let '(h, self) := st in
  if (1 <=? Ref._in_table self)%Z && Ref._in_cell self && is_break_tag tag
  then (Ref.append_str h (Ref._cell_buf self) " ", self)
  else (h, self).

Definition ref_cell_end (tag : string) (st : Ref.State) : Ref.State :=
  let '(h, self) := st in
  if (1 <=? Ref._in_table self)%Z && Ref._in_tr self && is_cell_tag tag
     && Ref._in_cell self then
    let self := Ref.set_in_cell self false in
    let cell_text :=
      _norm_space (join (Ref.read_strs h (Ref._cell_buf self))) in
    let h := Ref.append_str h (Ref._current_row self) cell_text in
    let '(h, l) := Ref.new_str_list h in (h, Ref.set_cell_buf self l)
  else (h, self).

Definition ref_row_end (tag : string) (st : Ref.State) : Ref.State :=
  let '(h, self) := st in
  if (1 <=? Ref._in_table self)%Z && (tag =? "tr") && Ref._in_tr self then
    let self := Ref.set_in_tr self false in
    let h :=
      if existsb (fun c => truthy (strip c))
           (Ref.read_strs h (Ref._current_row self)) then
        Ref.append_row h (Ref._current_table self) (Ref._current_row self)
      else h in
    let '(h, l) := Ref.new_str_list h in (h, Ref.set_current_row self l)
  else (h, self).

Definition ref_table_end (tag : string) (st : Ref.State) : Ref.State :=
  let '(h, self) := st in
  if (tag =? "table") && (1 <=? Ref._in_table self)%Z then
    let self := Ref.set_in_table self (Ref._in_table self - 1) in
    if (Ref._in_table self =? 0)%Z then
      let h :=
        if nonempty (Ref.contents (Ref.row_lists h)
                       (Ref._current_table self)) then
          Ref.append_table h (Ref.tables self) (Ref._current_table self)
        else h in
      let '(h, l) := Ref.new_row_list h in (h, Ref.set_current_table self l)
    else (h, self)
  else (h, self).

(** The loops of [parse_rows] have changed the list [out] only, from
    the heap [h] to the heap [h']. *)
Definition only_out_changed (out : nat) (h h' : Ref.Heap) : Prop :=
  Ref.str_lists h' = Ref.str_lists h
  /\ Ref.row_lists h' = Ref.row_lists h
  /\ Ref.table_lists h' = Ref.table_lists h
  /\ List.length (Ref.record_lists h') = List.length (Ref.record_lists h)
  /\ forall l, l <> out -> Ref.read_records h' l = Ref.read_records h l.

(** *** The fetches of a run *)





(** The number of warnings among printed lines. *)
Definition warning_lines (printed : list LogLine) : nat :=
  List.length
    (filter (fun l => match l with WARN _ _ => true | _ => false end)
       printed).


(** * Properties *)

(** ** White-space normalisation *)

Example norm_space_ex : _norm_space "  Palo
  Verde  " = "Palo Verde".
Proof. reflexivity. Qed.

Lemma lstrip_sub_ws_from (b : bool) (s : string) :
  lstrip (sub_ws_from b s) = lstrip (sub_ws_from true s).
Proof.
  destruct s as [|c r]; [reflexivity|]. simpl.
  destruct (isspace c) eqn:Hc; [|reflexivity].
  destruct b; [reflexivity|]. reflexivity.
Qed.

Lemma lstrip_sub_ws_true (s : string) :
  lstrip (sub_ws_from true s) = sub_ws_from true s.
Proof.
  induction s as [|c r IH]; [reflexivity|]. simpl.
  destruct (isspace c) eqn:Hc; [exact IH|]. simpl. now rewrite Hc.
Qed.

Lemma norm_space_nil : _norm_space "" = "".
Proof. reflexivity. Qed.

Lemma norm_space_space (c : ascii) (r : string) :
  isspace c = true -> _norm_space (String c r) = _norm_space r.
Proof.
  intros Hc. unfold _norm_space, strip, sub_ws. simpl. rewrite Hc. simpl.
  now rewrite (lstrip_sub_ws_from false r).
Qed.

Lemma norm_space_letter (c : ascii) (r : string) :
  isspace c = false ->
  _norm_space (String c r)
  = String c (if starts_word r then _norm_space r
              else match _norm_space r with
                   | EmptyString => EmptyString
                   | n => String " " n
                   end).
Proof.
  intros Hc. unfold _norm_space, strip, sub_ws.
  destruct r as [|c' r']; do 3 (simpl; rewrite ?Hc); [reflexivity|].
  destruct (isspace c') eqn:Hc'; do 3 (simpl; rewrite ?Hc, ?Hc').
  - rewrite lstrip_sub_ws_true.
    destruct (rstrip (sub_ws_from true r')); reflexivity.
  - destruct (rstrip (sub_ws_from false r')); reflexivity.
Qed.

Lemma words_starts_word (s : string) :
  starts_word s = true -> words s <> [].
Proof.
  destruct s as [|c r]; [discriminate|]. simpl. intros Hc.
  apply negb_true_iff in Hc. rewrite Hc.
  destruct (starts_word r); [destruct (words r)|]; discriminate.
Qed.

Lemma words_truthy (s : string) : Forall (fun w => w <> "") (words s).
Proof.
  induction s as [|c r IH]; simpl; [constructor|].
  destruct (isspace c); [exact IH|].
  destruct (starts_word r).
  - destruct (words r) as [|w ws]; constructor; try discriminate.
    + constructor.
    + now inversion IH.
  - constructor; [discriminate | exact IH].
Qed.

Lemma concat_sp_nil (ws : list string) :
  Forall (fun w => w <> "") ws -> String.concat " " ws = "" -> ws = [].
Proof.
  intros Hne. destruct ws as [|w ws]; [reflexivity|].
  inversion Hne as [|? ? Hw _]; subst. simpl.
  destruct w as [|a w]; [contradiction|]. destruct ws; discriminate.
Qed.

Lemma concat_sp_cons (c : ascii) (w : string) (ws : list string) :
  String.concat " " (String c w :: ws) = String c (String.concat " " (w :: ws)).
Proof. simpl. destruct ws; reflexivity. Qed.

(** [_norm_space] collapses: it returns the words of its argument joined by
    single spaces. *)
Theorem norm_space_collapsed (s : string) : _norm_space s = collapsed s.
Proof.
  unfold collapsed. induction s as [|c r IH]; [reflexivity|].
  destruct (isspace c) eqn:Hc.
  - rewrite norm_space_space by exact Hc. simpl. now rewrite Hc.
  - rewrite norm_space_letter by exact Hc. simpl words. rewrite Hc.
    destruct (starts_word r) eqn:Hr.
    + destruct (words r) as [|w ws] eqn:Hw.
      * now apply words_starts_word in Hr.
      * rewrite concat_sp_cons. now rewrite IH.
    + rewrite IH. destruct (words r) as [|w ws] eqn:Hw; [reflexivity|].
      pose proof (words_truthy r) as Hne. rewrite Hw in Hne.
      change (String.concat " " (String c "" :: w :: ws))
        with (String c (String " " (String.concat " " (w :: ws)))).
      destruct (String.concat " " (w :: ws)) eqn:E.
      * apply concat_sp_nil in E; [discriminate | exact Hne].
      * reflexivity.
Qed.

(** ** Serialised fields hold no delimiter *)

Lemma replace_char_pipes (s : string) :
  replace_char "|" " " s = pipes_to_spaces s.
Proof. induction s as [|c r IH]; simpl; [reflexivity | now rewrite IH]. Qed.

Lemma count_char_app (c : ascii) (s1 s2 : string) :
  count_char c (s1 ++ s2)%string = count_char c s1 + count_char c s2.
Proof.
  induction s1 as [|a r IH]; simpl; [reflexivity|]. rewrite IH. lia.
Qed.

Lemma count_char_lstrip (c : ascii) (s : string) :
  count_char c s = 0 -> count_char c (lstrip s) = 0.
Proof.
  induction s as [|a r IH]; simpl; [reflexivity|]. intros H.
  destruct (isspace a); [apply IH; lia | exact H].
Qed.

Lemma count_char_rstrip (c : ascii) (s : string) :
  count_char c s = 0 -> count_char c (rstrip s) = 0.
Proof.
  induction s as [|a r IH]; simpl; [reflexivity|]. intros H.
  assert (Hr : count_char c (rstrip r) = 0) by (apply IH; lia).
  destruct (rstrip r) as [|b r'].
  - destruct (isspace a); simpl; lia.
  - simpl in *. lia.
Qed.

Lemma count_char_strip (c : ascii) (s : string) :
  count_char c s = 0 -> count_char c (strip s) = 0.
Proof.
  intros H. unfold strip. now apply count_char_rstrip, count_char_lstrip.
Qed.

Lemma count_pipes_replaced (s : string) :
  count_char "|" (pipes_to_spaces s) = 0.
Proof.
  induction s as [|a r IH]; simpl; [reflexivity|].
  destruct (Ascii.eqb a "|") eqn:E; simpl; [exact IH|].
  now rewrite E.
Qed.

Lemma count_pipes_safe_field (s : string) :
  count_char "|" (_safe_psv_field s) = 0.
Proof.
  unfold _safe_psv_field. rewrite replace_char_pipes.
  apply count_char_strip, count_pipes_replaced.
Qed.

Lemma count_pipes_digits (u : Decimal.uint) :
  count_char "|" (NilEmpty.string_of_uint u) = 0.
Proof. induction u; simpl; auto. Qed.

Lemma count_pipes_str_of_int (n : N) : count_char "|" (str_of_int n) = 0.
Proof.
  unfold str_of_int, NilZero.string_of_uint.
  destruct (N.to_uint n); try apply count_pipes_digits. reflexivity.
Qed.

Lemma count_pipes_date (d : date) : count_char "|" (date_text d) = 0.
Proof.
  unfold date_text. rewrite !count_char_app, !count_pipes_str_of_int.
  reflexivity.
Qed.

(** ** The scanner: one equation per kind of tag *)

(** Simplification that leaves the integer tests of the depth alone and
    removes the tests on the tag that have been decided. *)
Ltac scan_cbn :=
  repeat (progress (cbn -[Z.leb Z.eqb Z.add Z.sub feed _norm_space join];
                    rewrite ?andb_false_r, ?andb_true_r)).

(** The same once a handler equation has been applied: the attribute
    assignments are carried out as well. *)
Ltac scan_set :=
  unfold set_in_table, set_in_tr, set_in_cell, set_cell_buf,
    set_current_row, set_current_table, set_tables;
  scan_cbn.

Lemma is_cell_tag_cases (x : string) :
  is_cell_tag x = true -> x = "td" \/ x = "th".
Proof.
  unfold is_cell_tag. rewrite orb_true_iff, !String.eqb_eq. tauto.
Qed.

Lemma is_break_tag_cases (x : string) :
  is_break_tag x = true -> x = "br" \/ x = "p".
Proof.
  unfold is_break_tag. rewrite orb_true_iff, !String.eqb_eq. tauto.
Qed.

Lemma starttag_table (self : _TableExtractor) (tag : string) :
  lower tag = "table" ->
  handle_starttag self tag
  = if (_in_table self + 1 =? 1)%Z
    then set_current_table (set_in_table self (_in_table self + 1)) []
    else set_in_table self (_in_table self + 1).
Proof.
  intros Ht. unfold handle_starttag. rewrite Ht.
  destruct self as [n itr ic buf row tbl T]. scan_cbn.
  destruct (n + 1 =? 1)%Z; scan_cbn; reflexivity.
Qed.

Lemma starttag_tr (self : _TableExtractor) (tag : string) :
  lower tag = "tr" ->
  handle_starttag self tag
  = if (1 <=? _in_table self)%Z
    then set_current_row (set_in_tr self true) []
    else self.
Proof.
  intros Ht. unfold handle_starttag. rewrite Ht.
  destruct self as [n itr ic buf row tbl T]. scan_cbn.
  destruct (1 <=? n)%Z; scan_cbn; reflexivity.
Qed.

Lemma starttag_cell (self : _TableExtractor) (tag : string) :
  is_cell_tag (lower tag) = true ->
  handle_starttag self tag
  = if (1 <=? _in_table self)%Z && _in_tr self
    then set_cell_buf (set_in_cell self true) []
    else self.
Proof.
  intros Ht. unfold handle_starttag.
  destruct self as [n itr ic buf row tbl T].
  destruct (is_cell_tag_cases _ Ht) as [-> | ->]; scan_cbn;
    destruct (1 <=? n)%Z, itr; scan_cbn; reflexivity.
Qed.

Lemma starttag_break (self : _TableExtractor) (tag : string) :
  is_break_tag (lower tag) = true ->
  handle_starttag self tag
  = if (1 <=? _in_table self)%Z && _in_cell self
    then set_cell_buf self (_cell_buf self ++ [" "])
    else self.
Proof.
  intros Ht. unfold handle_starttag.
  destruct self as [n itr ic buf row tbl T].
  destruct (is_break_tag_cases _ Ht) as [-> | ->]; scan_cbn;
    reflexivity.
Qed.

Lemma structural_false (tag : string) :
  structural tag = false ->
  (lower tag =? "table") = false /\ (lower tag =? "tr") = false
  /\ is_cell_tag (lower tag) = false.
Proof.
  unfold structural. rewrite !orb_false_iff. tauto.
Qed.

Lemma starttag_other (self : _TableExtractor) (tag : string) :
  structural tag = false -> is_break_tag (lower tag) = false ->
  handle_starttag self tag = self.
Proof.
  intros Hs Hb. destruct (structural_false _ Hs) as (H1 & H2 & H3).
  unfold handle_starttag. rewrite H1, H2, H3, Hb.
  destruct self as [n itr ic buf row tbl T]. scan_cbn. reflexivity.
Qed.

Lemma endtag_cell (self : _TableExtractor) (tag : string) :
  is_cell_tag (lower tag) = true ->
  handle_endtag self tag
  = if (1 <=? _in_table self)%Z && _in_tr self && _in_cell self
    then mk_extractor (_in_table self) (_in_tr self) false []
           (_current_row self ++ [_norm_space (join (_cell_buf self))])
           (_current_table self) (tables self)
    else self.
Proof.
  intros Ht. unfold handle_endtag.
  destruct self as [n itr ic buf row tbl T].
  destruct (is_cell_tag_cases _ Ht) as [-> | ->]; scan_cbn;
    destruct (1 <=? n)%Z, itr, ic; scan_cbn; reflexivity.
Qed.

Lemma endtag_tr (self : _TableExtractor) (tag : string) :
  lower tag = "tr" ->
  handle_endtag self tag
  = if (1 <=? _in_table self)%Z && _in_tr self
    then mk_extractor (_in_table self) false (_in_cell self)
           (_cell_buf self) []
           (if existsb (fun c => truthy (strip c)) (_current_row self)
            then _current_table self ++ [_current_row self]
            else _current_table self)
           (tables self)
    else self.
Proof.
  intros Ht. unfold handle_endtag. rewrite Ht.
  destruct self as [n itr ic buf row tbl T]. scan_cbn.
  destruct (1 <=? n)%Z, itr; scan_cbn; try reflexivity.
  destruct (existsb _ row); reflexivity.
Qed.

Lemma endtag_table (self : _TableExtractor) (tag : string) :
  lower tag = "table" ->
  handle_endtag self tag
  = if (1 <=? _in_table self)%Z
    then if (_in_table self - 1 =? 0)%Z
         then mk_extractor (_in_table self - 1) (_in_tr self) (_in_cell self)
                (_cell_buf self) (_current_row self) []
                (if nonempty (_current_table self)
                 then tables self ++ [_current_table self]
                 else tables self)
         else set_in_table self (_in_table self - 1)
    else self.
Proof.
  intros Ht. unfold handle_endtag. rewrite Ht.
  destruct self as [n itr ic buf row tbl T]. scan_cbn.
  destruct (1 <=? n)%Z; scan_cbn; try reflexivity.
  destruct (n - 1 =? 0)%Z; scan_cbn; try reflexivity.
  destruct tbl; reflexivity.
Qed.

Lemma endtag_other (self : _TableExtractor) (tag : string) :
  structural tag = false -> handle_endtag self tag = self.
Proof.
  intros Hs. destruct (structural_false _ Hs) as (H1 & H2 & H3).
  unfold handle_endtag. rewrite H1, H2, H3.
  destruct self as [n itr ic buf row tbl T]. scan_cbn. reflexivity.
Qed.

(** ** The scanner on well-formed documents *)

Lemma feed_app (self : _TableExtractor) (es1 es2 : list Event) :
  feed self (es1 ++ es2) = feed (feed self es1) es2.
Proof. apply fold_left_app. Qed.

Lemma feed_nil (self : _TableExtractor) : feed self [] = self.
Proof. reflexivity. Qed.

Lemma feed_cons (self : _TableExtractor) (e : Event) (es : list Event) :
  feed self (e :: es) = feed (dispatch self e) es.
Proof. reflexivity. Qed.

Lemma dispatch_inline (self : _TableExtractor) (e : Event) :
  inline e ->
  dispatch self e
  = if (1 <=? _in_table self)%Z && _in_cell self
    then set_cell_buf self (_cell_buf self ++ chunk e)
    else self.
Proof.
  intros He. destruct e as [t|t|d]; simpl in He; simpl dispatch.
  - unfold chunk. destruct (is_break_tag (lower t)) eqn:Hb.
    + now apply starttag_break.
    + rewrite starttag_other by assumption.
      destruct self as [n itr ic buf row tbl T]. unfold set_cell_buf.
      scan_set. rewrite app_nil_r. now destruct (_ && _).
  - rewrite endtag_other by assumption.
    destruct self as [n itr ic buf row tbl T]. unfold set_cell_buf.
    scan_set. rewrite app_nil_r. now destruct (_ && _).
  - reflexivity.
Qed.

Lemma feed_inline (es : list Event) :
  Forall inline es ->
  forall self,
    feed self es
    = if (1 <=? _in_table self)%Z && _in_cell self
      then set_cell_buf self (_cell_buf self ++ flat_map chunk es)
      else self.
Proof.
  induction 1 as [|e es He _ IH]; intros self.
  - destruct self as [n itr ic buf row tbl T]. unfold set_cell_buf.
    scan_set. rewrite app_nil_r. now destruct (_ && _).
  - rewrite feed_cons, dispatch_inline by exact He. rewrite IH.
    destruct self as [n itr ic buf row tbl T]. scan_set.
    destruct ((1 <=? n)%Z && ic) eqn:E; scan_set; rewrite E;
      [|reflexivity].
    unfold set_cell_buf. scan_set. now rewrite <- app_assoc.
Qed.

Lemma feed_cells (es : list Event) (cs : list string) :
  cells_of es cs ->
  forall n ic buf row tbl T,
    (1 <= n)%Z ->
    exists ic' buf',
      feed (mk_extractor n true ic buf row tbl T) es
      = mk_extractor n true ic' buf' (row ++ cs) tbl T.
Proof.
  induction 1 as [|e es cs He _ IH|t t' content es cs Ht Ht' Hc _ IH];
    intros n ic buf row tbl T Hn.
  - exists ic, buf. now rewrite app_nil_r.
  - rewrite feed_cons, dispatch_inline by exact He.
    destruct ((1 <=? _) && _)%Z; apply IH; exact Hn.
  - assert (Hn' : (1 <=? n)%Z = true) by now apply Z.leb_le.
    rewrite feed_cons. simpl dispatch. rewrite starttag_cell by exact Ht.
    scan_set. rewrite Hn'. scan_set.
    rewrite feed_app, (feed_inline content Hc). scan_set. rewrite Hn'.
    scan_set. rewrite feed_cons. simpl dispatch.
    rewrite endtag_cell by exact Ht'. scan_set. rewrite Hn'. scan_set.
    destruct (IH n false [] (row ++ [cell_text content]) tbl T Hn)
      as (ic' & buf' & E).
    exists ic', buf'. unfold cell_text in *.
    rewrite <- app_assoc in E. exact E.
Qed.

Lemma feed_rows (es : list Event) (rs : list (list string)) :
  rows_of es rs ->
  forall n itr ic buf row tbl T,
    (1 <= n)%Z ->
    exists ic' buf' row',
      feed (mk_extractor n itr ic buf row tbl T) es
      = mk_extractor n (match rs with [] => itr | _ => false end)
          ic' buf' row' (tbl ++ kept_rows rs) T.
Proof.
  induction 1 as [|e es rs He _ IH|t t' body es cs rs Ht Ht' Hb _ IH];
    intros n itr ic buf row tbl T Hn.
  - exists ic, buf, row. simpl. now rewrite app_nil_r.
  - rewrite feed_cons, dispatch_inline by exact He.
    destruct ((1 <=? _) && _)%Z; apply IH; exact Hn.
  - assert (Hn' : (1 <=? n)%Z = true) by now apply Z.leb_le.
    rewrite feed_cons. simpl dispatch. rewrite starttag_tr by exact Ht.
    scan_set. rewrite Hn'. scan_set. rewrite feed_app.
    destruct (feed_cells body cs Hb n ic buf [] tbl T Hn)
      as (ic1 & buf1 & E1).
    rewrite E1, feed_cons. simpl dispatch. rewrite endtag_tr by exact Ht'.
    scan_set. rewrite Hn'. scan_set.
    destruct (IH n false ic1 buf1 []
                (if existsb (fun c => truthy (strip c)) cs
                 then tbl ++ [cs] else tbl) T Hn)
      as (ic2 & buf2 & row2 & E2).
    exists ic2, buf2, row2. rewrite E2. f_equal.
    + now destruct rs.
    + destruct (existsb _ cs); [|reflexivity]. now rewrite <- app_assoc.
Qed.

Lemma feed_table (es : list Event) (rs : list (list string)) :
  table_of es rs ->
  forall itr ic buf row tbl T,
    exists itr' ic' buf' row',
      feed (mk_extractor 0 itr ic buf row tbl T) es
      = mk_extractor 0 itr' ic' buf' row' [] (T ++ listed (kept_rows rs)).
Proof.
  intros [t t' body rs' Ht Ht' Hb] itr ic buf row tbl T.
  rewrite feed_cons. simpl dispatch. rewrite starttag_table by exact Ht.
  scan_set. change (0 + 1)%Z with 1%Z. change (1 =? 1)%Z with true.
  scan_set. rewrite feed_app.
  destruct (feed_rows body rs' Hb 1%Z itr ic buf row [] T)
    as (ic1 & buf1 & row1 & E1); [lia|].
  rewrite E1, feed_cons, feed_nil. simpl dispatch.
  rewrite endtag_table by exact Ht'. scan_set.
  change (1 <=? 1)%Z with true. change (1 - 1 =? 0)%Z with true.
  change (1 - 1)%Z with 0%Z. scan_set.
  eexists _, ic1, buf1, row1. f_equal. unfold listed.
  destruct (kept_rows rs'); [now rewrite app_nil_r | reflexivity].
Qed.

Lemma dispatch_outside (self : _TableExtractor) (e : Event) :
  _in_table self = 0%Z -> outside e -> dispatch self e = self.
Proof.
  destruct self as [n itr ic buf row tbl T]. simpl. intros -> He.
  destruct e as [t|t|d]; simpl in He; simpl dispatch.
  - unfold handle_starttag. rewrite He. reflexivity.
  - unfold handle_endtag. cbn. rewrite andb_false_r. reflexivity.
  - reflexivity.
Qed.

Lemma feed_doc (es : list Event) (ts : list (list (list string))) :
  doc_of es ts ->
  forall itr ic buf row tbl T,
    exists itr' ic' buf' row' tbl',
      feed (mk_extractor 0 itr ic buf row tbl T) es
      = mk_extractor 0 itr' ic' buf' row' tbl' (T ++ captured ts).
Proof.
  induction 1 as [|e es ts He _ IH|tb es rs ts Htb _ IH];
    intros itr ic buf row tbl T.
  - exists itr, ic, buf, row, tbl. simpl. now rewrite app_nil_r.
  - rewrite feed_cons, dispatch_outside by (reflexivity || exact He).
    apply IH.
  - rewrite feed_app.
    destruct (feed_table tb rs Htb itr ic buf row tbl T)
      as (itr1 & ic1 & buf1 & row1 & E1).
    rewrite E1.
    destruct (IH itr1 ic1 buf1 row1 [] (T ++ listed (kept_rows rs)))
      as (itr2 & ic2 & buf2 & row2 & tbl2 & E2).
    exists itr2, ic2, buf2, row2, tbl2. rewrite E2. f_equal.
    simpl. now rewrite <- app_assoc.
Qed.

(** The table list of a well-formed document is the list of its tables,
    each reduced to its rows with a cell that is not blank, and left out
    when no row remains. *)
Theorem tables_of_document (es : list Event)
    (ts : list (list (list string))) :
  doc_of es ts -> tables (feed new_extractor es) = captured ts.
Proof.
  intros Hd.
  destruct (feed_doc es ts Hd false false [] [] [] [])
    as (itr & ic & buf & row & tbl & E).
  unfold new_extractor. now rewrite E.
Qed.

(** ** The scanner on a nested table *)

Lemma feed_outside (es : list Event) :
  Forall outside es ->
  forall self, _in_table self = 0%Z -> feed self es = self.
Proof.
  induction 1 as [|e es He _ IH]; intros self Hs; [reflexivity|].
  rewrite feed_cons, dispatch_outside by assumption. now apply IH.
Qed.

Lemma inline_no_row_tag (e : Event) : inline e -> no_row_tag e.
Proof.
  destruct e as [t|t|d]; simpl; auto; intros Hs;
    destruct (structural_false _ Hs) as (H1 & H2 & _); auto.
Qed.

Lemma cells_no_row_tag (es : list Event) (cs : list string) :
  cells_of es cs -> Forall no_row_tag es.
Proof.
  induction 1 as [|e es cs He _ IH|t t' content es cs Ht Ht' Hc _ IH].
  - constructor.
  - constructor; [now apply inline_no_row_tag | exact IH].
  - constructor.
    + simpl. destruct (is_cell_tag_cases _ Ht) as [-> | ->]; now split.
    + apply Forall_app. split.
      * eapply Forall_impl; [|exact Hc]. apply inline_no_row_tag.
      * constructor; [|exact IH].
        simpl. destruct (is_cell_tag_cases _ Ht') as [-> | ->]; now split.
Qed.

Lemma dispatch_no_row_tag (e : Event) :
  no_row_tag e ->
  forall n ic buf row tbl T,
    exists buf',
      dispatch (mk_extractor n false ic buf row tbl T) e
      = mk_extractor n false ic buf' row tbl T.
Proof.
  intros He n ic buf row tbl T.
  destruct e as [t|t|d]; simpl in He; simpl dispatch.
  - destruct He as [H1 H2].
    destruct (is_cell_tag (lower t)) eqn:Hc.
    + rewrite starttag_cell by exact Hc. scan_set. now exists buf.
    + destruct (is_break_tag (lower t)) eqn:Hb.
      * rewrite starttag_break by exact Hb. scan_set.
        destruct ((1 <=? n)%Z && ic); eexists; reflexivity.
      * rewrite starttag_other; [now exists buf | | exact Hb].
        unfold structural. now rewrite H1, H2, Hc.
  - destruct He as [H1 H2].
    destruct (is_cell_tag (lower t)) eqn:Hc.
    + rewrite endtag_cell by exact Hc. scan_set. now exists buf.
    + rewrite endtag_other; [now exists buf|].
      unfold structural. now rewrite H1, H2, Hc.
  - unfold handle_data. scan_set.
    destruct ((1 <=? n)%Z && ic); eexists; reflexivity.
Qed.

Lemma feed_no_row_tags (es : list Event) :
  Forall no_row_tag es ->
  forall n ic buf row tbl T,
    exists buf',
      feed (mk_extractor n false ic buf row tbl T) es
      = mk_extractor n false ic buf' row tbl T.
Proof.
  induction 1 as [|e es He _ IH]; intros n ic buf row tbl T.
  - now exists buf.
  - rewrite feed_cons.
    destruct (dispatch_no_row_tag e He n ic buf row tbl T) as (buf1 & E1).
    rewrite E1. apply IH.
Qed.

Lemma kept_rows_app (rs1 rs2 : list (list string)) :
  kept_rows (rs1 ++ rs2) = kept_rows rs1 ++ kept_rows rs2.
Proof. apply filter_app. Qed.

(** A table nested in a cell of an outer row does not get an entry of its
    own: when it has a row, its rows are captured in the entry of the
    outer table, between the outer rows before and after the row that
    holds it, and that row is not captured. *)
Theorem tables_of_nested_document
    (pre rows1 before : list Event) (t_cell : string)
    (content1 inner content2 : list Event) (t_cell' : string)
    (after rows3 post : list Event)
    (g1 gi g3 : list (list string)) (cb ca : list string) :
  Forall outside pre -> Forall outside post ->
  rows_of rows1 g1 -> cells_of before cb ->
  is_cell_tag (lower t_cell) = true -> Forall inline content1 ->
  table_of inner gi -> gi <> [] ->
  Forall inline content2 -> is_cell_tag (lower t_cell') = true ->
  cells_of after ca -> rows_of rows3 g3 ->
  tables (feed new_extractor
            (nested_document pre rows1 before t_cell content1 inner
               content2 t_cell' after rows3 post))
  = listed (kept_rows (g1 ++ gi ++ g3)).
Proof.
  intros Hpre Hpost H1 Hb Hc Hc1 Hin Hgi Hc2 Hc' Ha H3.
  assert (Hc2' : Forall no_row_tag content2).
  { eapply Forall_impl; [|exact Hc2]. apply inline_no_row_tag. }
  pose proof (cells_no_row_tag after ca Ha) as Ha'.
  unfold nested_document, new_extractor.
  rewrite feed_app, (feed_outside pre Hpre) by reflexivity.
  rewrite feed_app, feed_cons, feed_nil. simpl dispatch.
  rewrite starttag_table by reflexivity. scan_set.
  change (0 + 1)%Z with 1%Z. change (1 =? 1)%Z with true. scan_set.
  rewrite feed_app.
  destruct (feed_rows rows1 g1 H1 1%Z false false [] [] [] [])
    as (ic1 & buf1 & row1 & E1); [lia|].
  rewrite E1. clear E1.
  rewrite feed_cons. simpl dispatch.
  rewrite starttag_tr by reflexivity. scan_set.
  change (1 <=? 1)%Z with true. scan_set.
  rewrite feed_app.
  destruct (feed_cells before cb Hb 1%Z ic1 buf1 [] (kept_rows g1) [])
    as (ic2 & buf2 & E2); [lia|].
  rewrite E2. clear E2.
  rewrite feed_cons. simpl dispatch.
  rewrite starttag_cell by exact Hc. scan_set.
  change (1 <=? 1)%Z with true. scan_set.
  rewrite feed_app, (feed_inline content1 Hc1). scan_set.
  change (1 <=? 1)%Z with true. scan_set.
  destruct Hin as [t t' body gi Ht Ht' Hbody].
  rewrite feed_app, feed_cons. simpl dispatch.
  rewrite starttag_table by exact Ht. scan_set.
  change (1 + 1)%Z with 2%Z. change (2 =? 1)%Z with false. scan_set.
  rewrite (feed_app _ body).
  destruct (feed_rows body gi Hbody 2%Z true true
              (flat_map chunk content1) cb (kept_rows g1) [])
    as (ic3 & buf3 & row3 & E3); [lia|].
  replace (match gi with [] => true | _ :: _ => false end)
    with false in E3 by (destruct gi; congruence).
  rewrite E3. clear E3.
  rewrite feed_cons, feed_nil. simpl dispatch.
  rewrite endtag_table by exact Ht'. scan_set.
  change (1 <=? 2)%Z with true. change (2 - 1)%Z with 1%Z.
  change (1 =? 0)%Z with false. scan_set.
  rewrite feed_app.
  destruct (feed_no_row_tags content2 Hc2' 1%Z ic3 buf3 row3
              (kept_rows g1 ++ kept_rows gi) [])
    as (buf4 & E4).
  rewrite E4. clear E4.
  rewrite feed_cons. simpl dispatch.
  rewrite endtag_cell by exact Hc'. scan_set.
  rewrite feed_app.
  destruct (feed_no_row_tags after Ha' 1%Z ic3 buf4 row3
              (kept_rows g1 ++ kept_rows gi) [])
    as (buf5 & E5).
  rewrite E5. clear E5.
  rewrite feed_cons. simpl dispatch.
  rewrite endtag_tr by reflexivity. scan_set.
  rewrite feed_app.
  destruct (feed_rows rows3 g3 H3 1%Z false ic3 buf5 row3
              (kept_rows g1 ++ kept_rows gi) [])
    as (ic6 & buf6 & row6 & E6); [lia|].
  rewrite E6. clear E6.
  rewrite feed_cons. simpl dispatch.
  rewrite endtag_table by reflexivity. scan_set.
  change (1 <=? 1)%Z with true. change (1 - 1)%Z with 0%Z.
  change (0 =? 0)%Z with true. scan_set.
  rewrite (feed_outside post Hpost) by reflexivity. scan_set.
  rewrite !kept_rows_app, <- app_assoc. unfold listed.
  now destruct (_ ++ _).
Qed.

(** ** Documents written out from a grid are well formed *)

Lemma cells_of_cell_events (cs : list string) :
  cells_of (flat_map cell_events cs) (map _norm_space cs).
Proof.
  induction cs as [|c cs IH]; [constructor|].
  apply (cells_cell "td" "td" [data c] (flat_map cell_events cs)
           (map _norm_space cs)); auto.
  repeat constructor.
Qed.

Lemma rows_of_row_events (rs : list (list string)) :
  rows_of (flat_map row_events rs) (map (map _norm_space) rs).
Proof.
  induction rs as [|r rs IH]; [constructor|].
  simpl. unfold row_events at 1. simpl. rewrite <- app_assoc.
  apply (rows_row "tr" "tr" (flat_map cell_events r)
           (flat_map row_events rs) (map _norm_space r)
           (map (map _norm_space) rs)); auto.
  apply cells_of_cell_events.
Qed.

Lemma table_of_table_events (rs : list (list string)) :
  table_of (table_events rs) (map (map _norm_space) rs).
Proof.
  apply (table_intro "table" "table"); auto. apply rows_of_row_events.
Qed.

(** ** End tags without an open element *)

Lemma tag_cases (tag : string) :
  lower tag = "table" \/ lower tag = "tr"
  \/ is_cell_tag (lower tag) = true \/ structural tag = false.
Proof.
  unfold structural.
  destruct (String.eqb_spec (lower tag) "table") as [H1|H1]; [now left|].
  destruct (String.eqb_spec (lower tag) "tr") as [H2|H2];
    [now right; left|].
  destruct (is_cell_tag (lower tag)); [now right; right; left|].
  now right; right; right.
Qed.

Lemma unmatched_endtag_noop (self : _TableExtractor) (tag : string) :
  unmatched self tag -> handle_endtag self tag = self.
Proof.
  intros (Hc & Hr & Ht).
  destruct (tag_cases tag) as [H|[H|[H|H]]].
  - rewrite endtag_table by exact H. now rewrite (Ht H).
  - rewrite endtag_tr by exact H. rewrite (Hr H).
    now rewrite andb_false_r.
  - rewrite endtag_cell by exact H. rewrite (Hc H).
    now rewrite andb_false_r.
  - now apply endtag_other.
Qed.

Lemma unmatched_step (self : _TableExtractor) (tag : string) (e : Event) :
  unmatched self tag ->
  (forall t, e = starttag t -> ~ opens_for t tag) ->
  unmatched (dispatch self e) tag.
Proof.
  intros (Hc & Hr & Ht) He.
  destruct self as [n itr ic buf row tbl T]. simpl in Hc, Hr, Ht.
  destruct e as [t|t|d]; simpl dispatch.
  - specialize (He t eq_refl). unfold opens_for in He.
    destruct (tag_cases t) as [H|[H|[H|H]]].
    + rewrite starttag_table by exact H. scan_set.
      destruct (n + 1 =? 1)%Z; scan_set; repeat split; auto;
        intros Htag; exfalso; apply He; auto.
    + rewrite starttag_tr by exact H. scan_set.
      destruct (1 <=? n)%Z; scan_set; repeat split; auto;
        intros Htag; exfalso; apply He; auto.
    + rewrite starttag_cell by exact H. scan_set.
      destruct ((1 <=? n)%Z && itr); scan_set; repeat split; auto;
        intros Htag; exfalso; apply He; auto.
    + destruct (is_break_tag (lower t)) eqn:Hb.
      * rewrite starttag_break by exact Hb. scan_set.
        destruct ((1 <=? n)%Z && ic); scan_set; repeat split; auto.
      * rewrite starttag_other by assumption. repeat split; auto.
  - destruct (tag_cases t) as [H|[H|[H|H]]].
    + rewrite endtag_table by exact H. scan_set.
      destruct (Z.leb_spec 1 n) as [Hn|Hn]; [|repeat split; auto].
      destruct (n - 1 =? 0)%Z eqn:E; scan_set; repeat split; auto;
        intros Htag; specialize (Ht Htag); lia.
    + rewrite endtag_tr by exact H. scan_set.
      destruct ((1 <=? n)%Z && itr); scan_set; repeat split; auto.
    + rewrite endtag_cell by exact H. scan_set.
      destruct ((1 <=? n)%Z && itr && ic); scan_set; repeat split; auto.
    + rewrite endtag_other by exact H. repeat split; auto.
  - unfold handle_data. scan_set.
    destruct ((1 <=? n)%Z && ic); repeat split; auto.
Qed.

Lemma unmatched_feed (tag : string) (html : list Event) :
  (forall t, In (starttag t) html -> ~ opens_for t tag) ->
  forall self, unmatched self tag -> unmatched (feed self html) tag.
Proof.
  induction html as [|e html IH]; intros Hno self Hs; [exact Hs|].
  rewrite feed_cons. apply IH.
  - intros t Hin. apply Hno. now right.
  - apply unmatched_step; [exact Hs|].
    intros t ->. apply Hno. now left.
Qed.

Lemma unmatched_new (tag : string) : unmatched new_extractor tag.
Proof. repeat split. Qed.

(** ** The classifier *)

Lemma prefix_begins_with (p s : string) :
  String.prefix p s = true <-> begins_with p s.
Proof.
  revert s; induction p as [|a p IH]; intros [|b s]; simpl.
  - split; [intros _; now exists "" | reflexivity].
  - split; [intros _; now exists (String b s) | reflexivity].
  - split; [discriminate | intros [t Ht]; discriminate].
  - destruct (ascii_dec a b) as [->|Hab].
    + rewrite IH. split; intros [t Ht]; exists t; simpl in *; congruence.
    + split; [discriminate | intros [t Ht]; simpl in Ht; congruence].
Qed.

Lemma startswith_begins_with (s p : string) :
  startswith s p = true <-> begins_with p s.
Proof. apply prefix_begins_with. Qed.

Section Loops.

Context {A : Type}.

Lemma enumerate_from_cons k (a : A) l :
  enumerate_from k (a :: l) = (k, a) :: enumerate_from (S k) l.
Proof. reflexivity. Qed.

Lemma enumerate_is_from (l : list A) : enumerate l = enumerate_from 0 l.
Proof. reflexivity. Qed.

Lemma first_at_here (p : A -> bool) k a l : p a = true -> first_at p k (a :: l) k a.
Proof.
  intros Hp; repeat split; auto.
  - now rewrite Nat.sub_diag.
  - intros j b Hj; lia.
Qed.

Lemma first_at_later (p : A -> bool) k a l i b :
  p a = false -> first_at p (S k) l i b -> first_at p k (a :: l) i b.
Proof.
  intros Hp (Hk & Hn & Hb & Hfirst); repeat split; auto; try lia.
  - replace (i - k) with (S (i - S k)) by lia. exact Hn.
  - intros j c Hj Hc.
    destruct (Nat.eq_dec j k) as [->|Hne].
    + rewrite Nat.sub_diag in Hc; simpl in Hc; congruence.
    + apply (Hfirst j c); [lia|].
      replace (j - k) with (S (j - S k)) in Hc by lia. exact Hc.
Qed.

Lemma first_at_inv (p : A -> bool) k a l i b :
  first_at p k (a :: l) i b ->
  (i = k /\ b = a /\ p a = true) \/ (p a = false /\ first_at p (S k) l i b).
Proof.
  intros (Hk & Hn & Hb & Hfirst).
  destruct (Nat.eq_dec i k) as [->|Hne].
  - left. rewrite Nat.sub_diag in Hn; simpl in Hn.
    injection Hn as <-. auto.
  - right. split.
    + apply (Hfirst k a); [lia|]. now rewrite Nat.sub_diag.
    + repeat split; auto; try lia.
      * replace (i - k) with (S (i - S k)) in Hn by lia. exact Hn.
      * intros j c Hj Hc. apply (Hfirst j c); [lia|].
        replace (j - k) with (S (j - S k)) by lia. exact Hc.
Qed.

Lemma first_at_nil (p : A -> bool) k i a : ~ first_at p k [] i a.
Proof. intros (_ & Hn & _). now destruct (i - k). Qed.

End Loops.

(** *** Column resolution and header search are first-match scans *)

Lemma find_col_loop_first (pred : string -> bool) (l : list string) :
  forall k i,
    find_col_loop (enumerate_from k l) pred = Some i <->
    exists h, first_at pred k l i h.
Proof.
  induction l as [|a l IH]; intros k i.
  - simpl. split; [discriminate | intros [h Hh]; now apply first_at_nil in Hh].
  - rewrite enumerate_from_cons. simpl. destruct (pred a) eqn:Hp.
    + split.
      * intros [= <-]. exists a. now apply first_at_here.
      * intros [h Hh]. apply first_at_inv in Hh.
        destruct Hh as [(-> & _)|(Hf & _)]; congruence.
    + rewrite IH. split; intros [h Hh]; exists h.
      * now apply first_at_later.
      * apply first_at_inv in Hh. destruct Hh as [(_ & _ & Ht)|(_ & Hh)];
          [congruence | exact Hh].
Qed.

Lemma find_col_loop_none (pred : string -> bool) (l : list string) :
  forall k,
    find_col_loop (enumerate_from k l) pred = None <->
    forall h, In h l -> pred h = false.
Proof.
  induction l as [|a l IH]; intros k.
  - simpl. split; [intros _ h [] | reflexivity].
  - rewrite enumerate_from_cons. simpl. destruct (pred a) eqn:Hp.
    + split; [discriminate|]. intros H. rewrite (H a) in Hp by now left.
      discriminate.
    + rewrite IH. split.
      * intros H h [<-|Hin]; auto.
      * intros H h Hin. apply H. now right.
Qed.

Lemma find_col_idx_none (headers : list string) (pred : string -> bool) :
  _find_col_idx headers pred = None <->
  forall h, In h headers -> pred h = false.
Proof. apply (find_col_loop_none pred headers 0). Qed.

Lemma find_col_idx_some (headers : list string) (pred : string -> bool) i :
  _find_col_idx headers pred = Some i <->
  exists h, first_at pred 0 headers i h.
Proof. apply (find_col_loop_first pred headers 0). Qed.

Lemma header_loop_first (t : list (list string)) :
  forall k i h,
    header_loop (enumerate_from k t) = (Some i, h) <->
    exists row,
      first_at (fun r => header_test (lowered_row r)) k t i row
      /\ h = lowered_row row.
Proof.
  induction t as [|a t IH]; intros k i h.
  - simpl. split; [discriminate|].
    intros (row & Hrow & _). now apply first_at_nil in Hrow.
  - rewrite enumerate_from_cons. simpl.
    destruct (header_test (lowered_row a)) eqn:Hp.
    + split.
      * intros [= <- <-]. exists a. split; [|reflexivity].
        now apply (first_at_here (fun r => header_test (lowered_row r))).
      * intros (row & Hrow & ->). apply first_at_inv in Hrow.
        destruct Hrow as [(-> & -> & _)|(Hf & _)]; [reflexivity|].
        simpl in Hf; congruence.
    + rewrite IH. split; intros (row & Hrow & ->); exists row;
        (split; [|reflexivity]).
      * now apply first_at_later.
      * apply first_at_inv in Hrow.
        destruct Hrow as [(_ & _ & Ht)|(_ & Hrow)];
          [simpl in Ht; congruence | exact Hrow].
Qed.

Lemma header_loop_none (t : list (list string)) :
  forall k,
    (forall row, In row t -> header_test (lowered_row row) = false) ->
    header_loop (enumerate_from k t) = (None, []).
Proof.
  induction t as [|a t IH]; intros k H; [reflexivity|].
  rewrite enumerate_from_cons. simpl.
  rewrite (H a) by now left. apply IH. intros row Hin. apply H. now right.
Qed.

Lemma header_loop_result (t : list (list string)) :
  forall k,
    header_loop (enumerate_from k t) = (None, []) \/
    exists i row, header_loop (enumerate_from k t) = (Some i, lowered_row row)
                  /\ header_test (lowered_row row) = true.
Proof.
  induction t as [|a t IH]; intros k; [now left|].
  rewrite enumerate_from_cons. simpl.
  destruct (header_test (lowered_row a)) eqn:Hp.
  - right. now exists k, a.
  - apply IH.
Qed.

Lemma existsb_lowered (p : string -> bool) (row : list string) :
  existsb p (lowered_row row) = true <->
  exists c, In c row /\ p (lowered_cell c) = true.
Proof.
  unfold lowered_row. rewrite existsb_exists. split.
  - intros (x & Hin & Hp). apply in_map_iff in Hin.
    destruct Hin as (c & <- & Hc). now exists c.
  - intros (c & Hc & Hp). exists (lowered_cell c). split; [|exact Hp].
    apply in_map_iff. now exists c.
Qed.

Lemma header_test_spec (row : list string) :
  header_test (lowered_row row) = true <-> qualifies_as_header row.
Proof.
  unfold header_test, qualifies_as_header.
  rewrite andb_true_iff, !existsb_lowered.
  split; intros [(c & Hc & Hu) (c' & Hc' & Hp)]; split.
  - exists c. split; [exact Hc|]. now apply String.eqb_eq.
  - exists c'. split; [exact Hc'|].
    apply orb_true_iff in Hp. destruct Hp as [Hp|Hp].
    + right. now apply startswith_begins_with.
    + left. now apply String.eqb_eq.
  - exists c. split; [exact Hc|]. now apply String.eqb_eq.
  - exists c'. split; [exact Hc'|].
    apply orb_true_iff. destruct Hp as [Hp|Hp].
    + right. now apply String.eqb_eq.
    + left. now apply startswith_begins_with.
Qed.

Lemma unit_pred_spec (h : string) : unit_pred h = true <-> unit_label h.
Proof.
  unfold unit_pred, unit_label.
  now rewrite orb_true_iff, String.eqb_eq, startswith_begins_with.
Qed.

Lemma power_pred_spec (h : string) : power_pred h = true <-> power_label h.
Proof.
  unfold power_pred, power_label.
  now rewrite orb_true_iff, String.eqb_eq, startswith_begins_with.
Qed.

(** *** The loops of [parse_rows] never raise and add row by row *)

Lemma getitem_nth (row : list string) (i : nat) :
  i < List.length row -> getitem row i = Some (nth i row "").
Proof. intros Hi. unfold getitem. now apply nth_error_nth'. Qed.

Lemma truthy_eqb (s : string) : negb (truthy s) = (s =? "").
Proof. now destruct s. Qed.

Lemma rows_loop_output (report_date : date) (ui pi : nat) (ri : option nat)
    (rows : list (list string)) :
  forall out,
    rows_loop report_date ui pi ri rows out
    = Some (out ++ flat_map (row_output report_date ui pi ri) rows)%list.
Proof.
  induction rows as [|row rows IH]; intros out; simpl.
  - now rewrite app_nil_r.
  - unfold row_output at 1.
    destruct (Nat.leb_spec (List.length row) ui) as [Hu|Hu]; simpl.
    { rewrite (proj2 (Nat.ltb_ge _ _)) by lia. simpl. apply IH. }
    destruct (Nat.leb_spec (List.length row) pi) as [Hp|Hp]; simpl.
    { rewrite (proj2 (Nat.ltb_ge pi _)) by lia.
      rewrite andb_false_r. simpl. apply IH. }
    rewrite !getitem_nth by lia.
    rewrite (proj2 (Nat.ltb_lt ui _)), (proj2 (Nat.ltb_lt pi _)) by lia.
    simpl.
    assert (Hreason :
      match ri with
      | Some r =>
          if (r <? List.length row)%nat
          then (c <- getitem row r ;; Some (_norm_space c))
          else Some ""
      | None => Some ""
      end = Some (reason_field ri row)).
    { unfold reason_field. destruct ri as [r|]; [|reflexivity].
      destruct (Nat.ltb_spec r (List.length row)) as [Hr|Hr]; [|reflexivity].
      now rewrite getitem_nth. }
    rewrite Hreason. rewrite truthy_eqb. fold (field ui row).
    destruct (field ui row =? "") eqn:He; simpl; [apply IH|].
    destruct (lower (field ui row) =? "unit") eqn:Hl; simpl; [apply IH|].
    rewrite IH. now rewrite <- app_assoc.
Qed.

Lemma table_body_output (report_date : date) (table : list (list string))
    (out : list Row) :
  table_body report_date table out
  = Some (out ++ table_output report_date table)%list.
Proof.
  unfold table_body, table_output.
  destruct (header_loop_result table 0) as [Hn|(i & row & Hs & Ht)];
    rewrite enumerate_is_from.
  - rewrite Hn. now rewrite app_nil_r.
  - rewrite Hs.
    destruct (lowered_row row) as [|c cs] eqn:Hrow; [discriminate Ht|].
    simpl negb. cbv iota.
    destruct (_find_col_idx (c :: cs) unit_pred) as [ui|];
      [|now rewrite app_nil_r].
    destruct (_find_col_idx (c :: cs) power_pred) as [pi|];
      [|now rewrite app_nil_r].
    apply rows_loop_output.
Qed.

Lemma tables_loop_output (report_date : date)
    (tbls : list (list (list string))) :
  forall out,
    tables_loop report_date tbls out
    = Some (out ++ flat_map (table_output report_date) tbls)%list.
Proof.
  induction tbls as [|t tbls IH]; intros out; simpl.
  - now rewrite app_nil_r.
  - rewrite table_body_output, IH. now rewrite <- app_assoc.
Qed.

Lemma parse_rows_output (report_date : date) (html : list Event) :
  parse_rows report_date html
  = Some (flat_map (table_output report_date)
            (tables (feed new_extractor html))).
Proof. unfold parse_rows. now rewrite tables_loop_output. Qed.

Lemma row_output_skipped (report_date : date) (ui pi : nat)
    (ri : option nat) (row : list string) :
  row_output report_date ui pi ri row = [] <-> row_skipped ui pi row.
Proof.
  unfold row_output, row_skipped, row_covers.
  destruct (Nat.ltb_spec ui (List.length row)) as [Hu|Hu]; simpl;
    [|split; [intros _; left; lia | reflexivity]].
  destruct (Nat.ltb_spec pi (List.length row)) as [Hp|Hp]; simpl;
    [|split; [intros _; left; lia | reflexivity]].
  destruct (String.eqb_spec (field ui row) "") as [He|He]; simpl;
    [split; [intros _; now right; left | reflexivity]|].
  destruct (String.eqb_spec (lower (field ui row)) "unit") as [Hl|Hl]; simpl;
    [split; [intros _; now right; right | reflexivity]|].
  split; [discriminate|]. intros [H|[H|H]]; [lia | congruence | congruence].
Qed.

Lemma row_output_kept (report_date : date) (ui pi : nat)
    (ri : option nat) (row : list string) :
  ~ row_skipped ui pi row ->
  row_output report_date ui pi ri row = [row_record report_date ui pi ri row].
Proof.
  intros Hk. unfold row_output.
  destruct (_ && _ && _ && _) eqn:E; [reflexivity|].
  exfalso. apply Hk. apply (row_output_skipped report_date ui pi ri).
  unfold row_output. now rewrite E.
Qed.

(** *** The driver loop writes page by page *)

Lemma main_loop_lines (days : list (date * option (list Event))) :
  forall f n,
    fst (main_loop days f n) = f ++ flat_map day_lines days.
Proof.
  induction days as [|[d [html|]] days IH]; intros f n; simpl.
  - now rewrite app_nil_r.
  - unfold page_lines. destruct (parse_rows d html) as [rows|].
    + rewrite IH. now rewrite <- app_assoc.
    + apply IH.
  - apply IH.
Qed.

(** ** End tags in explicitly nested markup *)

Lemma kind_of_cases (tag : string) :
  (lower tag = "table" /\ kind_of tag = Some KTable)
  \/ (lower tag = "tr" /\ kind_of tag = Some KRow)
  \/ (is_cell_tag (lower tag) = true /\ kind_of tag = Some KCell)
  \/ (structural tag = false /\ kind_of tag = None).
Proof.
  unfold kind_of, structural.
  destruct (String.eqb_spec (lower tag) "table") as [H1|H1]; [now left|].
  destruct (String.eqb_spec (lower tag) "tr") as [H2|H2];
    [now right; left|].
  destruct (is_cell_tag (lower tag)); [now right; right; left|].
  now right; right; right.
Qed.

Lemma in_step_with_shapes (st : list Kind) (self : _TableExtractor) :
  in_step_with st self ->
  st = [] \/ st = [KTable] \/ st = [KRow; KTable]
  \/ st = [KCell; KRow; KTable].
Proof.
  destruct st as [|[] [|[] [|[] [|? ?]]]]; simpl; try contradiction; auto.
Qed.

Lemma in_step_with_step (st : list Kind) (self : _TableExtractor)
    (e : Event) :
  in_step_with st self -> explicit_step st e = true ->
  in_step_with (open_step st e) (dispatch self e).
Proof.
  intros Hs He.
  destruct self as [n itr ic buf row tbl T].
  destruct (in_step_with_shapes _ _ Hs) as [-> | [-> | [-> | -> ]]];
    simpl in Hs; destruct Hs as [-> [-> ->]];
    destruct e as [t|t|d]; simpl dispatch; unfold explicit_step in He;
    unfold open_step;
    try (destruct (kind_of_cases t) as [[Ht Hk]|[[Ht Hk]|[[Ht Hk]|[Ht Hk]]]];
         rewrite Hk in *; try discriminate He);
    try (rewrite starttag_table by exact Ht);
    try (rewrite starttag_tr by exact Ht);
    try (rewrite starttag_cell by exact Ht);
    try (rewrite endtag_table by exact Ht);
    try (rewrite endtag_tr by exact Ht);
    try (rewrite endtag_cell by exact Ht);
    try (rewrite endtag_other by exact Ht);
    try (destruct (is_break_tag (lower t)) eqn:Hb;
         [rewrite starttag_break by exact Hb
         | rewrite starttag_other by assumption]);
    try (unfold handle_data);
    simpl; repeat split; auto.
Qed.

Lemma in_step_with_feed (html : list Event) :
  forall st self,
    in_step_with st self -> explicit_from st html = true ->
    in_step_with (fold_left open_step html st) (feed self html).
Proof.
  induction html as [|e html IH]; intros st self Hs He; [exact Hs|].
  simpl in He. apply andb_true_iff in He. destruct He as [He1 He2].
  rewrite feed_cons. simpl fold_left. apply IH; [|exact He2].
  now apply in_step_with_step.
Qed.

Lemma in_step_with_unmatched (st : list Kind) (self : _TableExtractor)
    (tag : string) :
  in_step_with st self ->
  match kind_of tag with
  | Some k => is_open k st = false
  | None => True
  end ->
  unmatched self tag.
Proof.
  intros Hs Hk. unfold unmatched.
  destruct (in_step_with_shapes _ _ Hs) as [-> | [-> | [-> | -> ]]];
    simpl in Hs; destruct Hs as (Hn & Hr & Hc);
    destruct (kind_of_cases tag) as [[Ht E]|[[Ht E]|[[Ht E]|[Ht E]]]];
    rewrite E in Hk; simpl in Hk; try discriminate Hk;
    repeat split; intros H; auto;
    try (rewrite Ht in H; discriminate H);
    try (rewrite H in Ht; discriminate Ht);
    try (destruct (structural_false _ Ht) as (H1 & H2 & H3);
         first [ rewrite H in H3; discriminate H3
               | rewrite H in H2; discriminate H2
               | rewrite H in H1; discriminate H1 ]).
Qed.

Lemma stray_endtag_noop (html : list Event) (tag : string) :
  explicitly_nested html = true -> no_matching_open_tag html tag ->
  handle_endtag (feed new_extractor html) tag = feed new_extractor html.
Proof.
  intros He Hno. apply unmatched_endtag_noop.
  apply (in_step_with_unmatched (open_elements html)); [|exact Hno].
  apply in_step_with_feed; [|exact He]. repeat split.
Qed.

(** *** List objects *)

Lemma length_list_append {A} (objs : list (list A)) (a : nat) (v : A) :
  List.length (Ref.list_append objs a v) = List.length objs.
Proof.
  revert a. induction objs as [|o objs IH]; intros [|a]; simpl;
    try reflexivity. now rewrite IH.
Qed.

Lemma contents_list_append_same {A} (objs : list (list A)) (a : nat)
    (v : A) :
  a < List.length objs ->
  Ref.contents (Ref.list_append objs a v) a = Ref.contents objs a ++ [v].
Proof.
  unfold Ref.contents. revert a.
  induction objs as [|o objs IH]; intros [|a] Ha; simpl in *; try lia.
  - reflexivity.
  - apply IH. lia.
Qed.

Lemma contents_list_append_other {A} (objs : list (list A)) (a b : nat)
    (v : A) :
  b <> a ->
  Ref.contents (Ref.list_append objs a v) b = Ref.contents objs b.
Proof.
  unfold Ref.contents. revert a b.
  induction objs as [|o objs IH]; intros [|a] [|b] Hb; simpl;
    try reflexivity; try congruence.
  apply IH. congruence.
Qed.

Lemma contents_new_old {A} (objs : list (list A)) (b : nat) :
  b < List.length objs ->
  Ref.contents (objs ++ [[]]) b = Ref.contents objs b.
Proof. intros Hb. unfold Ref.contents. now apply app_nth1. Qed.

Lemma contents_new {A} (objs : list (list A)) :
  Ref.contents (objs ++ [[]]) (List.length objs) = [].
Proof.
  unfold Ref.contents. rewrite app_nth2 by lia.
  now rewrite Nat.sub_diag.
Qed.

Lemma kept_refl {A} (objs : list (list A)) : kept objs objs.
Proof. split; [lia | reflexivity]. Qed.

Lemma kept_new {A} (objs0 objs : list (list A)) :
  kept objs0 objs -> kept objs0 (objs ++ [[]]).
Proof.
  intros [Hl Hc]. split.
  - rewrite length_app. simpl. lia.
  - intros a Ha. rewrite contents_new_old by lia. now apply Hc.
Qed.

Lemma kept_append {A} (objs0 objs : list (list A)) (a : nat) (v : A) :
  kept objs0 objs -> List.length objs0 <= a ->
  kept objs0 (Ref.list_append objs a v).
Proof.
  intros [Hl Hc] Ha. split.
  - now rewrite length_list_append.
  - intros b Hb. rewrite contents_list_append_other by lia. now apply Hc.
Qed.

Lemma kept_trans {A} (objs0 objs1 objs2 : list (list A)) :
  kept objs0 objs1 -> kept objs1 objs2 -> kept objs0 objs2.
Proof.
  intros [Hl1 Hc1] [Hl2 Hc2]. split; [lia|].
  intros a Ha. rewrite Hc2 by lia. now apply Hc1.
Qed.

Lemma preserved_refl (h : Ref.Heap) : preserved h h.
Proof. split; [|split; [|split]]; apply kept_refl. Qed.

Lemma preserved_trans (h0 h1 h2 : Ref.Heap) :
  preserved h0 h1 -> preserved h1 h2 -> preserved h0 h2.
Proof.
  intros (A1 & B1 & C1 & D1) (A2 & B2 & C2 & D2).
  split; [|split; [|split]]; eapply kept_trans; eassumption.
Qed.

Lemma map_agree {A B} (f g : A -> B) (Q : A -> Prop) (l : list A) :
  Forall Q l -> (forall a, Q a -> f a = g a) -> map f l = map g l.
Proof.
  intros Hl Hfg. induction Hl as [|a l Ha _ IH]; simpl; [reflexivity|].
  now rewrite IH, (Hfg a Ha).
Qed.

(** *** The statements that make or change a list *)

Ltac heap_simpl :=
  unfold owns_at, preserved, made_since, settled, Ref.read_tables,
    Ref.read_rows, Ref.read_strs in *;
  cbn [Ref.str_lists Ref.row_lists Ref.table_lists Ref.record_lists] in *.

(** [self._cell_buf = []] and [self._current_row = []] *)
Lemma made_str_list (h0 : Ref.Heap) S R T Rc (cb cr ct tb : nat) :
  let h := Ref.mk_Heap S R T Rc in
  let h' := Ref.mk_Heap (S ++ [[]]) R T Rc in
  owns_at h0 h cb cr ct tb ->
  owns_at h0 h' (List.length S) cr ct tb
  /\ owns_at h0 h' cb (List.length S) ct tb
  /\ Ref.read_strs h' (List.length S) = []
  /\ Ref.read_strs h' cb = Ref.read_strs h cb
  /\ Ref.read_strs h' cr = Ref.read_strs h cr
  /\ Ref.read_rows h' ct = Ref.read_rows h ct
  /\ Ref.read_tables h' tb = Ref.read_tables h tb.
Proof.
  intros h h' H. subst h h'. heap_simpl.
  destruct H as ((KS & KR & KT & KC) & Hcb & Hcr & Hne & Hct & Htb
                 & Hrow & Htab).
  assert (Hagree : forall b, (b < List.length S /\ b <> cb /\ b <> cr) ->
            Ref.contents (S ++ [[]]) b = Ref.contents S b).
  { intros b (Hb & _). now apply contents_new_old. }
  assert (Hrows : forall t,
            Forall (fun b => b < List.length S /\ b <> cb /\ b <> cr)
              (Ref.contents R t) ->
            map (Ref.contents (S ++ [[]])) (Ref.contents R t)
            = map (Ref.contents S) (Ref.contents R t)).
  { intros t Ht. exact (map_agree _ _ _ _ Ht Hagree). }
  assert (HP : kept (Ref.str_lists h0) (S ++ [[]])
               /\ kept (Ref.row_lists h0) R
               /\ kept (Ref.table_lists h0) T
               /\ kept (Ref.record_lists h0) Rc)
    by (split; [now apply kept_new
               | split; [exact KR | split; [exact KT | exact KC]]]).
  destruct KS as [KS _].
  rewrite length_app. simpl List.length.
  split; [|split].
  - split; [exact HP|].
    repeat split; try lia.
    + eapply Forall_impl; [|exact Hrow]. simpl. intros b Hb. lia.
    + eapply Forall_impl; [|exact Htab]. simpl. intros t (H1 & H2 & H3).
      repeat split; auto. eapply Forall_impl; [|exact H3].
      simpl. intros b Hb. lia.
  - split; [exact HP|].
    repeat split; try lia.
    + eapply Forall_impl; [|exact Hrow]. simpl. intros b Hb. lia.
    + eapply Forall_impl; [|exact Htab]. simpl. intros t (H1 & H2 & H3).
      repeat split; auto. eapply Forall_impl; [|exact H3].
      simpl. intros b Hb. lia.
  - split; [apply contents_new|].
    split; [apply contents_new_old; lia|].
    split; [apply contents_new_old; lia|].
    split; [now apply Hrows|].
    eapply map_agree; [exact Htab|]. simpl. intros t (_ & _ & Ht).
    now apply Hrows.
Qed.

(** [self._current_table = []] *)
Lemma made_row_list (h0 : Ref.Heap) S R T Rc (cb cr ct tb : nat) :
  let h := Ref.mk_Heap S R T Rc in
  let h' := Ref.mk_Heap S (R ++ [[]]) T Rc in
  owns_at h0 h cb cr ct tb ->
  owns_at h0 h' cb cr (List.length R) tb
  /\ Ref.read_rows h' (List.length R) = []
  /\ Ref.read_tables h' tb = Ref.read_tables h tb.
Proof.
  intros h h' H. subst h h'. heap_simpl.
  destruct H as ((KS & KR & KT & KC) & Hcb & Hcr & Hne & Hct & Htb
                 & Hrow & Htab).
  assert (HP : kept (Ref.str_lists h0) S
               /\ kept (Ref.row_lists h0) (R ++ [[]])
               /\ kept (Ref.table_lists h0) T
               /\ kept (Ref.record_lists h0) Rc)
    by (split; [exact KS
               | split; [now apply kept_new | split; [exact KT | exact KC]]]).
  destruct KR as [KR _].
  rewrite length_app, contents_new. simpl List.length.
  split; [|split; [reflexivity|]].
  - split; [exact HP|].
    repeat split; try lia; [constructor|].
    eapply Forall_impl; [|exact Htab]. simpl. intros t (H1 & H2 & H3).
    rewrite contents_new_old by lia. repeat split; auto; lia.
  - eapply map_agree; [exact Htab|]. simpl. intros t (H1 & _).
    now rewrite contents_new_old.
Qed.

(** [self._cell_buf.append(s)] and [self._current_row.append(s)] *)
Lemma appended_str (h0 : Ref.Heap) S R T Rc (cb cr ct tb a : nat)
    (s : string) :
  let h := Ref.mk_Heap S R T Rc in
  let h' := Ref.mk_Heap (Ref.list_append S a s) R T Rc in
  owns_at h0 h cb cr ct tb -> a = cb \/ a = cr ->
  owns_at h0 h' cb cr ct tb
  /\ Ref.read_strs h' a = Ref.read_strs h a ++ [s]
  /\ (forall b, b <> a -> Ref.read_strs h' b = Ref.read_strs h b)
  /\ Ref.read_rows h' ct = Ref.read_rows h ct
  /\ Ref.read_tables h' tb = Ref.read_tables h tb.
Proof.
  intros h h' H Ha. subst h h'. heap_simpl.
  destruct H as ((KS & KR & KT & KC) & Hcb & Hcr & Hne & Hct & Htb
                 & Hrow & Htab).
  assert (Hlo : List.length (Ref.str_lists h0) <= a < List.length S)
    by (destruct Ha as [->| ->]; assumption).
  assert (HP : kept (Ref.str_lists h0) (Ref.list_append S a s)
               /\ kept (Ref.row_lists h0) R
               /\ kept (Ref.table_lists h0) T
               /\ kept (Ref.record_lists h0) Rc)
    by (split; [apply kept_append; [exact KS | lia]
               | split; [exact KR | split; [exact KT | exact KC]]]).
  assert (Hagree : forall b, (b < List.length S /\ b <> cb /\ b <> cr) ->
            Ref.contents (Ref.list_append S a s) b = Ref.contents S b).
  { intros b (_ & Hb1 & Hb2). apply contents_list_append_other.
    destruct Ha as [->| ->]; assumption. }
  assert (Hrows : forall t,
            Forall (fun b => b < List.length S /\ b <> cb /\ b <> cr)
              (Ref.contents R t) ->
            map (Ref.contents (Ref.list_append S a s)) (Ref.contents R t)
            = map (Ref.contents S) (Ref.contents R t)).
  { intros t Ht. exact (map_agree _ _ _ _ Ht Hagree). }
  rewrite length_list_append.
  split; [|split; [|split; [|split]]].
  - split; [exact HP|]. repeat split; try lia; assumption.
  - apply contents_list_append_same. lia.
  - intros b Hb. now apply contents_list_append_other.
  - now apply Hrows.
  - eapply map_agree; [exact Htab|]. simpl. intros t (_ & _ & Ht).
    now apply Hrows.
Qed.

(** [self._current_table.append(self._current_row)] followed by
    [self._current_row = []] *)
Lemma kept_row (h0 : Ref.Heap) S R T Rc (cb cr ct tb : nat) :
  let h := Ref.mk_Heap S R T Rc in
  let h' := Ref.mk_Heap (S ++ [[]]) (Ref.list_append R ct cr) T Rc in
  owns_at h0 h cb cr ct tb ->
  owns_at h0 h' cb (List.length S) ct tb
  /\ Ref.read_strs h' (List.length S) = []
  /\ Ref.read_strs h' cb = Ref.read_strs h cb
  /\ Ref.read_rows h' ct = Ref.read_rows h ct ++ [Ref.read_strs h cr]
  /\ Ref.read_tables h' tb = Ref.read_tables h tb.
Proof.
  intros h h' H. subst h h'. heap_simpl.
  destruct H as ((KS & KR & KT & KC) & Hcb & Hcr & Hne & Hct & Htb
                 & Hrow & Htab).
  assert (HP : kept (Ref.str_lists h0) (S ++ [[]])
               /\ kept (Ref.row_lists h0) (Ref.list_append R ct cr)
               /\ kept (Ref.table_lists h0) T
               /\ kept (Ref.record_lists h0) Rc)
    by (split; [now apply kept_new
               | split; [apply kept_append; [exact KR | lia]
                        | split; [exact KT | exact KC]]]).
  destruct KS as [KS _].
  assert (Hagree : forall b, (b < List.length S /\ b <> cb /\ b <> cr) ->
            Ref.contents (S ++ [[]]) b = Ref.contents S b).
  { intros b (Hb & _). now apply contents_new_old. }
  rewrite length_app, length_list_append. simpl List.length.
  rewrite contents_list_append_same by lia.
  split; [|split; [|split; [|split]]].
  - split; [exact HP|]. repeat split; try lia.
    + apply Forall_app. split.
      * eapply Forall_impl; [|exact Hrow]. simpl. intros b Hb. lia.
      * constructor; [lia | constructor].
    + eapply Forall_impl; [|exact Htab]. simpl. intros t (H1 & H2 & H3).
      rewrite contents_list_append_other by assumption.
      repeat split; auto. eapply Forall_impl; [|exact H3].
      simpl. intros b Hb. lia.
  - apply contents_new.
  - apply contents_new_old. lia.
  - rewrite map_app. simpl. f_equal.
    + exact (map_agree _ _ _ _ Hrow Hagree).
    + f_equal. apply contents_new_old. lia.
  - eapply map_agree; [exact Htab|]. simpl. intros t (_ & Ht & Hs).
    rewrite contents_list_append_other by assumption.
    exact (map_agree _ _ _ _ Hs Hagree).
Qed.

(** [self.tables.append(self._current_table)] followed by
    [self._current_table = []] *)
Lemma kept_table (h0 : Ref.Heap) S R T Rc (cb cr ct tb : nat) :
  let h := Ref.mk_Heap S R T Rc in
  let h' := Ref.mk_Heap S (R ++ [[]]) (Ref.list_append T tb ct) Rc in
  owns_at h0 h cb cr ct tb ->
  owns_at h0 h' cb cr (List.length R) tb
  /\ Ref.read_rows h' (List.length R) = []
  /\ Ref.read_tables h' tb = Ref.read_tables h tb ++ [Ref.read_rows h ct].
Proof.
  intros h h' H. subst h h'. heap_simpl.
  destruct H as ((KS & KR & KT & KC) & Hcb & Hcr & Hne & Hct & Htb
                 & Hrow & Htab).
  assert (HP : kept (Ref.str_lists h0) S
               /\ kept (Ref.row_lists h0) (R ++ [[]])
               /\ kept (Ref.table_lists h0) (Ref.list_append T tb ct)
               /\ kept (Ref.record_lists h0) Rc)
    by (split; [exact KS
               | split; [now apply kept_new
                        | split; [apply kept_append; [exact KT | lia]
                                 | exact KC]]]).
  destruct KR as [KR _].
  rewrite length_app, length_list_append, contents_new. simpl List.length.
  rewrite contents_list_append_same by lia.
  split; [|split; [reflexivity|]].
  - split; [exact HP|]. repeat split; try lia; [constructor|].
    apply Forall_app. split.
    + eapply Forall_impl; [|exact Htab]. simpl. intros t (H1 & H2 & H3).
      rewrite contents_new_old by lia. repeat split; auto; lia.
    + constructor; [|constructor].
      rewrite contents_new_old by lia. repeat split; auto; lia.
  - rewrite map_app. simpl. f_equal.
    + eapply map_agree; [exact Htab|]. simpl. intros t (H1 & _).
      now rewrite contents_new_old.
    + f_equal. rewrite contents_new_old by lia. reflexivity.
Qed.

(** *** The handlers on list objects do what the handlers on values do *)

Lemma handle_starttag_steps (self : _TableExtractor) (tag : string) :
  handle_starttag self tag
  = break_start (lower tag)
      (cell_start (lower tag)
         (row_start (lower tag) (table_start (lower tag) self))).
Proof. reflexivity. Qed.

Lemma handle_endtag_steps (self : _TableExtractor) (tag : string) :
  handle_endtag self tag
  = table_end (lower tag) (row_end (lower tag) (cell_end (lower tag) self)).
Proof. reflexivity. Qed.

Lemma ref_handle_starttag_steps (st : Ref.State) (tag : string) :
  Ref.handle_starttag st tag
  = ref_break_start (lower tag)
      (ref_cell_start (lower tag)
         (ref_row_start (lower tag) (ref_table_start (lower tag) st))).
Proof. reflexivity. Qed.

Lemma ref_handle_endtag_steps (st : Ref.State) (tag : string) :
  Ref.handle_endtag st tag
  = ref_table_end (lower tag)
      (ref_row_end (lower tag) (ref_cell_end (lower tag) st)).
Proof. reflexivity. Qed.

Ltac ref_cbn :=
  unfold Ref.append_str, Ref.append_row, Ref.append_table;
  cbn [fst snd snapshot owns
       Ref._in_table Ref._in_tr Ref._in_cell Ref._cell_buf Ref._current_row
       Ref._current_table Ref.tables
       Ref.set_in_table Ref.set_in_tr Ref.set_in_cell Ref.set_cell_buf
       Ref.set_current_row Ref.set_current_table
       _in_table _in_tr _in_cell _cell_buf _current_row _current_table tables
       set_in_table set_in_tr set_in_cell set_cell_buf set_current_row
       set_current_table set_tables
       Ref.new_str_list Ref.new_row_list Ref.new_list Ref.append_str
       Ref.append_row Ref.append_table
       Ref.str_lists Ref.row_lists Ref.table_lists Ref.record_lists].

Ltac ref_open st H :=
  destruct st as [[S R T Rc] [it itr ic cb cr ct tb]];
  unfold owns, snapshot; ref_cbn; intros H.

Lemma table_start_sim (h0 : Ref.Heap) (tag : string) (st : Ref.State) :
  owns h0 st ->
  owns h0 (ref_table_start tag st)
  /\ snapshot (ref_table_start tag st) = table_start tag (snapshot st).
Proof.
  ref_open st H. unfold ref_table_start, table_start. ref_cbn.
  destruct (tag =? "table"); [|split; [exact H | reflexivity]].
  destruct (it + 1 =? 1)%Z; ref_cbn; [|split; [exact H | reflexivity]].
  destruct (made_row_list h0 S R T Rc cb cr ct tb H) as (Ho & E1 & E2).
  split; [exact Ho|]. rewrite E1, E2. reflexivity.
Qed.

Lemma row_start_sim (h0 : Ref.Heap) (tag : string) (st : Ref.State) :
  owns h0 st ->
  owns h0 (ref_row_start tag st)
  /\ snapshot (ref_row_start tag st) = row_start tag (snapshot st).
Proof.
  ref_open st H. unfold ref_row_start, row_start. ref_cbn.
  destruct ((1 <=? it)%Z && (tag =? "tr")); ref_cbn;
    [|split; [exact H | reflexivity]].
  destruct (made_str_list h0 S R T Rc cb cr ct tb H)
    as (_ & Ho & E0 & E1 & _ & E3 & E4).
  split; [exact Ho|]. rewrite E0, E1, E3, E4. reflexivity.
Qed.

Lemma cell_start_sim (h0 : Ref.Heap) (tag : string) (st : Ref.State) :
  owns h0 st ->
  owns h0 (ref_cell_start tag st)
  /\ snapshot (ref_cell_start tag st) = cell_start tag (snapshot st).
Proof.
  ref_open st H. unfold ref_cell_start, cell_start. ref_cbn.
  destruct ((1 <=? it)%Z && itr && is_cell_tag tag); ref_cbn;
    [|split; [exact H | reflexivity]].
  destruct (made_str_list h0 S R T Rc cb cr ct tb H)
    as (Ho & _ & E0 & _ & E2 & E3 & E4).
  split; [exact Ho|]. rewrite E0, E2, E3, E4. reflexivity.
Qed.

Lemma break_start_sim (h0 : Ref.Heap) (tag : string) (st : Ref.State) :
  owns h0 st ->
  owns h0 (ref_break_start tag st)
  /\ snapshot (ref_break_start tag st) = break_start tag (snapshot st).
Proof.
  ref_open st H. unfold ref_break_start, break_start. ref_cbn.
  destruct ((1 <=? it)%Z && ic && is_break_tag tag); ref_cbn;
    [|split; [exact H | reflexivity]].
  destruct (appended_str h0 S R T Rc cb cr ct tb cb " " H (or_introl eq_refl))
    as (Ho & E0 & E1 & E3 & E4).
  assert (Hne : cr <> cb) by (destruct H as (_ & _ & _ & Hne & _); congruence).
  split; [exact Ho|]. rewrite E0, (E1 cr Hne), E3, E4. reflexivity.
Qed.

Lemma handle_data_sim (h0 : Ref.Heap) (d : string) (st : Ref.State) :
  owns h0 st ->
  owns h0 (Ref.handle_data st d)
  /\ snapshot (Ref.handle_data st d) = handle_data (snapshot st) d.
Proof.
  ref_open st H. unfold Ref.handle_data, handle_data. ref_cbn.
  destruct ((1 <=? it)%Z && ic); ref_cbn;
    [|split; [exact H | reflexivity]].
  destruct (appended_str h0 S R T Rc cb cr ct tb cb d H (or_introl eq_refl))
    as (Ho & E0 & E1 & E3 & E4).
  assert (Hne : cr <> cb) by (destruct H as (_ & _ & _ & Hne & _); congruence).
  split; [exact Ho|]. rewrite E0, (E1 cr Hne), E3, E4. reflexivity.
Qed.

Lemma cell_end_sim (h0 : Ref.Heap) (tag : string) (st : Ref.State) :
  owns h0 st ->
  owns h0 (ref_cell_end tag st)
  /\ snapshot (ref_cell_end tag st) = cell_end tag (snapshot st).
Proof.
  ref_open st H. unfold ref_cell_end, cell_end. ref_cbn.
  destruct ((1 <=? it)%Z && itr && is_cell_tag tag && ic); ref_cbn;
    [|split; [exact H | reflexivity]].
  set (cell_text :=
         _norm_space (join (Ref.read_strs (Ref.mk_Heap S R T Rc) cb))).
  destruct (appended_str h0 S R T Rc cb cr ct tb cr cell_text H
              (or_intror eq_refl)) as (H1 & E0 & E1 & E3 & E4).
  assert (Hne : cb <> cr) by (destruct H as (_ & _ & _ & Hne & _); exact Hne).
  destruct (made_str_list h0 _ R T Rc cb cr ct tb H1)
    as (Ho & _ & F0 & _ & F2 & F3 & F4).
  split; [exact Ho|].
  rewrite F0, F2, F3, F4, E0, E3, E4. reflexivity.
Qed.

Lemma row_end_sim (h0 : Ref.Heap) (tag : string) (st : Ref.State) :
  owns h0 st ->
  owns h0 (ref_row_end tag st)
  /\ snapshot (ref_row_end tag st) = row_end tag (snapshot st).
Proof.
  ref_open st H. unfold ref_row_end, row_end. ref_cbn.
  destruct ((1 <=? it)%Z && (tag =? "tr") && itr); ref_cbn;
    [|split; [exact H | reflexivity]].
  destruct (existsb (fun c => truthy (strip c))
              (Ref.read_strs (Ref.mk_Heap S R T Rc) cr)); ref_cbn.
  - destruct (kept_row h0 S R T Rc cb cr ct tb H)
      as (Ho & E0 & E1 & E3 & E4).
    split; [exact Ho|]. rewrite E0, E1, E3, E4. reflexivity.
  - destruct (made_str_list h0 S R T Rc cb cr ct tb H)
      as (_ & Ho & E0 & E1 & _ & E3 & E4).
    split; [exact Ho|]. rewrite E0, E1, E3, E4. reflexivity.
Qed.

Lemma nonempty_read_rows (h : Ref.Heap) (l : nat) :
  nonempty (Ref.read_rows h l)
  = nonempty (Ref.contents (Ref.row_lists h) l).
Proof.
  unfold Ref.read_rows. now destruct (Ref.contents (Ref.row_lists h) l).
Qed.

Lemma table_end_sim (h0 : Ref.Heap) (tag : string) (st : Ref.State) :
  owns h0 st ->
  owns h0 (ref_table_end tag st)
  /\ snapshot (ref_table_end tag st) = table_end tag (snapshot st).
Proof.
  ref_open st H. unfold ref_table_end, table_end. ref_cbn.
  destruct ((tag =? "table") && (1 <=? it)%Z); ref_cbn;
    [|split; [exact H | reflexivity]].
  destruct (it - 1 =? 0)%Z; ref_cbn; [|split; [exact H | reflexivity]].
  rewrite nonempty_read_rows. ref_cbn.
  destruct (nonempty (Ref.contents R ct)); ref_cbn.
  - destruct (kept_table h0 S R T Rc cb cr ct tb H) as (Ho & E1 & E2).
    split; [exact Ho|]. rewrite E1, E2. reflexivity.
  - destruct (made_row_list h0 S R T Rc cb cr ct tb H) as (Ho & E1 & E2).
    split; [exact Ho|]. rewrite E1, E2. reflexivity.
Qed.

Lemma dispatch_sim (h0 : Ref.Heap) (e : Event) (st : Ref.State) :
  owns h0 st ->
  owns h0 (Ref.dispatch st e)
  /\ snapshot (Ref.dispatch st e) = dispatch (snapshot st) e.
Proof.
  intros H. destruct e as [tag|tag|d]; simpl Ref.dispatch; simpl dispatch.
  - rewrite ref_handle_starttag_steps, handle_starttag_steps.
    destruct (table_start_sim h0 (lower tag) _ H) as [H1 <-].
    destruct (row_start_sim h0 (lower tag) _ H1) as [H2 <-].
    destruct (cell_start_sim h0 (lower tag) _ H2) as [H3 <-].
    exact (break_start_sim h0 (lower tag) _ H3).
  - rewrite ref_handle_endtag_steps, handle_endtag_steps.
    destruct (cell_end_sim h0 (lower tag) _ H) as [H1 <-].
    destruct (row_end_sim h0 (lower tag) _ H1) as [H2 <-].
    exact (table_end_sim h0 (lower tag) _ H2).
  - now apply handle_data_sim.
Qed.

Lemma feed_sim (h0 : Ref.Heap) (html : list Event) :
  forall st,
    owns h0 st ->
    owns h0 (Ref.feed st html)
    /\ snapshot (Ref.feed st html) = feed (snapshot st) html.
Proof.
  induction html as [|e html IH]; intros st H.
  - split; [exact H | reflexivity].
  - destruct (dispatch_sim h0 e st H) as [H1 E1].
    destruct (IH _ H1) as [H2 E2].
    split; [exact H2|].
    change (Ref.feed st (e :: html)) with (Ref.feed (Ref.dispatch st e) html).
    rewrite E2, E1. reflexivity.
Qed.

Lemma new_extractor_sim (h : Ref.Heap) :
  owns h (Ref.new_extractor h)
  /\ snapshot (Ref.new_extractor h) = new_extractor.
Proof.
  destruct h as [Ls Lr Lt Lc].
  unfold Ref.new_extractor, owns, snapshot, new_extractor,
    Ref.new_table_list. ref_cbn.
  unfold owns_at, preserved, made_since, settled, Ref.read_tables,
    Ref.read_rows, Ref.read_strs. ref_cbn.
  rewrite !contents_new.
  rewrite (contents_new_old (Ls ++ [[]]) (List.length Ls))
    by (rewrite length_app; simpl; lia).
  rewrite contents_new. rewrite !length_app. simpl List.length.
  split; [|reflexivity].
  split.
  { split; [apply kept_new, kept_new, kept_refl|].
    split; [apply kept_new, kept_refl|].
    split; [apply kept_new, kept_refl | apply kept_refl]. }
  repeat split; try lia; constructor.
Qed.

(** *** The loops of [parse_rows] on list objects *)

Lemma only_out_changed_refl (out : nat) (h : Ref.Heap) :
  only_out_changed out h h.
Proof. repeat split; reflexivity. Qed.

Lemma only_out_changed_trans (out : nat) (h1 h2 h3 : Ref.Heap) :
  only_out_changed out h1 h2 -> only_out_changed out h2 h3 ->
  only_out_changed out h1 h3.
Proof.
  intros (A1 & B1 & C1 & D1 & E1) (A2 & B2 & C2 & D2 & E2).
  repeat split; try congruence.
  intros l Hl. now rewrite E2, E1.
Qed.

Lemma only_out_changed_append (out : nat) (h : Ref.Heap) (r : Row) :
  only_out_changed out h (Ref.append_record h out r).
Proof.
  repeat split; try reflexivity.
  - simpl. apply length_list_append.
  - intros l Hl. unfold Ref.read_records. simpl.
    now apply contents_list_append_other.
Qed.

Lemma ref_rows_loop (report_date : date) (ui pi : nat) (ri : option nat)
    (rows : list (list string)) (out : nat) :
  forall h,
    out < List.length (Ref.record_lists h) ->
    exists h',
      Ref.rows_loop report_date ui pi ri rows out h = (h', Some tt)
      /\ only_out_changed out h h'
      /\ rows_loop report_date ui pi ri rows (Ref.read_records h out)
         = Some (Ref.read_records h' out).
Proof.
  induction rows as [|row rows IH]; intros h Hout.
  - exists h. split; [reflexivity|].
    split; [apply only_out_changed_refl | reflexivity].
  - simpl.
    destruct (Nat.leb_spec (List.length row) ui) as [Hu|Hu]; simpl;
      [now apply IH|].
    destruct (Nat.leb_spec (List.length row) pi) as [Hp|Hp]; simpl;
      [now apply IH|].
    unfold Ref.bind at 1. unfold Ref.eval at 1.
    rewrite (getitem_nth row ui) by lia.
    unfold Ref.bind at 1. unfold Ref.eval at 1.
    rewrite (getitem_nth row pi) by lia.
    assert (Hreason :
      match ri with
      | Some r =>
          if (r <? List.length row)%nat
          then (c <- getitem row r ;; Some (_norm_space c))
          else Some ""
      | None => Some ""
      end = Some (reason_field ri row)).
    { unfold reason_field. destruct ri as [r|]; [|reflexivity].
      destruct (Nat.ltb_spec r (List.length row)) as [Hr|Hr]; [|reflexivity].
      now rewrite getitem_nth. }
    unfold Ref.bind at 1. unfold Ref.eval at 1. rewrite Hreason.
    destruct (negb (truthy (_norm_space (nth ui row "")))
              || (lower (_norm_space (nth ui row "")) =? "unit"));
      [now apply IH|].
    unfold Ref.bind at 1. unfold Ref.out_append at 1.
    set (r := mk_Row report_date (_norm_space (nth ui row ""))
                (_norm_space (nth pi row "")) (reason_field ri row)).
    assert (Hlen : out < List.length
                           (Ref.record_lists (Ref.append_record h out r)))
      by (simpl; now rewrite length_list_append).
    destruct (IH _ Hlen) as (h' & E & Hc & Hp').
    exists h'. split; [exact E|]. split.
    + eapply only_out_changed_trans; [apply only_out_changed_append|exact Hc].
    + rewrite <- Hp'. unfold Ref.read_records. simpl.
      now rewrite contents_list_append_same.
Qed.

Lemma ref_table_body (report_date : date) (table : list (list string))
    (out : nat) (h : Ref.Heap) :
  out < List.length (Ref.record_lists h) ->
  exists h',
    Ref.table_body report_date table out h = (h', Some tt)
    /\ only_out_changed out h h'
    /\ table_body report_date table (Ref.read_records h out)
       = Some (Ref.read_records h' out).
Proof.
  intros Hout. unfold Ref.table_body, table_body.
  assert (Hskip : exists h',
            Ref.ret tt h = (h', Some tt)
            /\ only_out_changed out h h'
            /\ Some (Ref.read_records h out)
               = Some (Ref.read_records h' out)).
  { exists h. split; [reflexivity|].
    split; [apply only_out_changed_refl | reflexivity]. }
  destruct (header_loop (enumerate table)) as [[hidx|] headers];
    [|exact Hskip].
  destruct (negb (nonempty headers)); [exact Hskip|].
  destruct (_find_col_idx headers unit_pred) as [ui|]; [|exact Hskip].
  destruct (_find_col_idx headers power_pred) as [pi|]; [|exact Hskip].
  now apply ref_rows_loop.
Qed.

Lemma ref_tables_loop (report_date : date)
    (tbls : list (list (list string))) (out : nat) :
  forall h,
    out < List.length (Ref.record_lists h) ->
    exists h',
      Ref.tables_loop report_date tbls out h = (h', Some tt)
      /\ only_out_changed out h h'
      /\ tables_loop report_date tbls (Ref.read_records h out)
         = Some (Ref.read_records h' out).
Proof.
  induction tbls as [|table tbls IH]; intros h Hout.
  - exists h. split; [reflexivity|].
    split; [apply only_out_changed_refl | reflexivity].
  - simpl. unfold Ref.bind at 1.
    destruct (ref_table_body report_date table out h Hout)
      as (h1 & E1 & C1 & P1).
    rewrite E1, P1.
    assert (Hout1 : out < List.length (Ref.record_lists h1))
      by (destruct C1 as (_ & _ & _ & -> & _); exact Hout).
    destruct (IH h1 Hout1) as (h2 & E2 & C2 & P2).
    exists h2. split; [exact E2|]. split; [|exact P2].
    eapply only_out_changed_trans; eassumption.
Qed.

(** A call of [parse_rows], whatever the heap it finds: it returns a
    list made by this call, holding the records that the classifier on
    values returns, and leaves every list that existed as it was. *)
Lemma ref_parse_rows (report_date : date) (html : list Event)
    (h : Ref.Heap) :
  exists h' out,
    Ref.parse_rows report_date html h = (h', Some out)
    /\ parse_rows report_date html = Some (Ref.read_records h' out)
    /\ made_since (Ref.record_lists h) (Ref.record_lists h') out
    /\ preserved h h'.
Proof.
  unfold Ref.parse_rows.
  destruct (Ref.new_record_list h) as [h1 out] eqn:E1.
  assert (Hh1 : h1 = Ref.mk_Heap (Ref.str_lists h) (Ref.row_lists h)
                       (Ref.table_lists h) (Ref.record_lists h ++ [[]])
                /\ out = List.length (Ref.record_lists h)).
  { unfold Ref.new_record_list in E1. simpl in E1.
    injection E1 as <- <-. split; reflexivity. }
  destruct Hh1 as [Hh1 Ho].
  destruct (new_extractor_sim h1) as [H0 S0].
  destruct (feed_sim h1 html _ H0) as [H2 S2].
  destruct (Ref.feed (Ref.new_extractor h1) html) as [h2 parser] eqn:E2.
  rewrite S0 in S2.
  assert (HP12 : preserved h1 h2) by (destruct H2 as [HP _]; exact HP).
  assert (Hlen1 : List.length (Ref.record_lists h1)
                  = Datatypes.S (List.length (Ref.record_lists h))).
  { rewrite Hh1. simpl. rewrite length_app. simpl. lia. }
  destruct HP12 as (KS & KR & KT & [KCl KCc]).
  assert (Hout2 : out < List.length (Ref.record_lists h2)) by lia.
  assert (Hempty : Ref.read_records h2 out = []).
  { unfold Ref.read_records. rewrite KCc by lia.
    rewrite Hh1, Ho. simpl. apply contents_new. }
  destruct (ref_tables_loop report_date
              (Ref.read_tables h2 (Ref.tables parser)) out h2 Hout2)
    as (h3 & E3 & (CS & CR & CT & CL & CC) & P3).
  exists h3, out. unfold Ref.bind. rewrite E3.
  split; [reflexivity|]. split; [|split].
  - unfold parse_rows. rewrite <- S2. rewrite Hempty in P3. exact P3.
  - unfold made_since. lia.
  - unfold preserved. rewrite CS, CR, CT.
    assert (K01 : forall A (l : list (list A)), kept l l)
      by (intros; apply kept_refl).
    rewrite Hh1 in KS, KR, KT. simpl in KS, KR, KT.
    split; [exact KS|]. split; [exact KR|]. split; [exact KT|].
    split; [lia|]. intros a Ha.
    change (Ref.read_records h3 a = Ref.contents (Ref.record_lists h) a).
    rewrite CC by lia. unfold Ref.read_records. rewrite KCc by lia.
    rewrite Hh1. simpl. now apply contents_new_old.
Qed.

(** * The claims *)

(** ** Extraction followed by classification *)

(** C1, as stated, fails: with the header row
    [["Unit"; "Power(%)"; "Reason"]] the row is found as the header, but
    ["power(%)"] is neither ["power"] nor begins with ["power "], so the
    power column is unresolved and the table yields no record. *)
Lemma C1_counterexample :
  let html := [starttag "html"; starttag "body"; starttag "table";
               starttag "tr";
               starttag "th"; data "Unit"; endtag "th";
               starttag "th"; data "Power(%)"; endtag "th";
               starttag "th"; data "Reason"; endtag "th";
               endtag "tr";
               starttag "tr";
               starttag "td"; data "1"; endtag "td";
               starttag "td"; data "100"; endtag "td";
               starttag "td"; data "None"; endtag "td";
               endtag "tr";
               endtag "table"; endtag "body"; endtag "html"] in
  tables (feed new_extractor html)
  = [[["Unit"; "Power(%)"; "Reason"]; ["1"; "100"; "None"]]]
  /\ parse_rows (mk_date 1999 3 15) html = Some []
  /\ parse_rows (mk_date 1999 3 15) html
     <> Some [mk_Row (mk_date 1999 3 15) "1" "100" "None"].
Proof.
  intros html. split; [reflexivity|]. split; [reflexivity|].
  intros H. vm_compute in H. discriminate H.
Qed.

(** C1, amended.  For every well-formed document with exactly one table
    whose header row is [["Unit"; "Power (%)"; "Reason/Comment"]] and
    whose single data row is [["1"; "100"; "None"]], extraction followed
    by classification returns exactly one record, with unit ["1"], power
    ["100"] and reason ["None"]. *)
Theorem C1_one_table_one_record (report_date : date) (html : list Event) :
  doc_of html [[["Unit"; "Power (%)"; "Reason/Comment"];
                ["1"; "100"; "None"]]] ->
  parse_rows report_date html = Some [mk_Row report_date "1" "100" "None"].
Proof.
  intros Hd. rewrite parse_rows_output, (tables_of_document _ _ Hd).
  reflexivity.
Qed.

(** C1 amended, on a document with text around the table and a line break
    inside a header cell. *)
Lemma C1_witness :
  let html :=
    [starttag "html"; data "Status "; endtag "p"]
    ++ [starttag "TABLE";
        starttag "tr"; data " ";
        starttag "th"; data "Unit"; endtag "th";
        starttag "th"; data "Power"; starttag "br"; data "(%)"; endtag "th";
        starttag "th"; data " Reason/Comment "; endtag "th";
        endtag "tr";
        starttag "tr";
        starttag "td"; data "1"; endtag "td";
        starttag "td"; starttag "b"; data "100"; endtag "b"; endtag "td";
        starttag "td"; data "None"; endtag "td";
        endtag "tr";
        endtag "table"]
    ++ [endtag "html"] in
  doc_of html [[["Unit"; "Power (%)"; "Reason/Comment"];
                ["1"; "100"; "None"]]]
  /\ parse_rows (mk_date 1999 3 15) html
     = Some [mk_Row (mk_date 1999 3 15) "1" "100" "None"].
Proof.
  intros html.
  assert (Hd : doc_of html [[["Unit"; "Power (%)"; "Reason/Comment"];
                             ["1"; "100"; "None"]]]).
  { apply doc_skip; [reflexivity|]. apply doc_skip; [exact I|].
    apply doc_skip; [exact I|].
    apply (doc_table _ [endtag "html"]);
      [|apply doc_skip; [exact I | apply doc_nil]].
    apply (table_intro "TABLE" "table"
             [starttag "tr"; data " ";
              starttag "th"; data "Unit"; endtag "th";
              starttag "th"; data "Power"; starttag "br"; data "(%)";
              endtag "th";
              starttag "th"; data " Reason/Comment "; endtag "th";
              endtag "tr";
              starttag "tr";
              starttag "td"; data "1"; endtag "td";
              starttag "td"; starttag "b"; data "100"; endtag "b";
              endtag "td";
              starttag "td"; data "None"; endtag "td";
              endtag "tr"]); [reflexivity | reflexivity |].
    apply (rows_row "tr" "tr"
             [data " ";
              starttag "th"; data "Unit"; endtag "th";
              starttag "th"; data "Power"; starttag "br"; data "(%)";
              endtag "th";
              starttag "th"; data " Reason/Comment "; endtag "th"]);
      [reflexivity | reflexivity | |].
    - apply cells_skip; [exact I|].
      apply (cells_cell "th" "th" [data "Unit"]);
        [reflexivity | reflexivity | repeat constructor |].
      apply (cells_cell "th" "th"
               [data "Power"; starttag "br"; data "(%)"]);
        [reflexivity | reflexivity | repeat constructor |].
      apply (cells_cell "th" "th" [data " Reason/Comment "]);
        [reflexivity | reflexivity | repeat constructor |].
      apply cells_nil.
    - apply (rows_row "tr" "tr"
               [starttag "td"; data "1"; endtag "td";
                starttag "td"; starttag "b"; data "100"; endtag "b";
                endtag "td";
                starttag "td"; data "None"; endtag "td"]);
        [reflexivity | reflexivity | | apply rows_nil].
      apply (cells_cell "td" "td" [data "1"]);
        [reflexivity | reflexivity | repeat constructor |].
      apply (cells_cell "td" "td" [starttag "b"; data "100"; endtag "b"]);
        [reflexivity | reflexivity | repeat constructor |].
      apply (cells_cell "td" "td" [data "None"]);
        [reflexivity | reflexivity | repeat constructor |].
      apply cells_nil. }
  split; [exact Hd|].
  apply (C1_one_table_one_record (mk_date 1999 3 15) html Hd).
Defined.

(** C2, as stated, fails: a table nested in the reason cell of an outer
    row leaves one entry in the table list, not two.  The entry holds the
    outer header row and the row of the inner table; the outer row that
    holds the nested table is not captured. *)
Lemma C2_counterexample :
  let html :=
    [starttag "table"]
    ++ row_events ["Unit"; "Power"; "Reason/Comment"]
    ++ [starttag "tr"]
    ++ cell_events "Unit 1" ++ cell_events "97"
    ++ [starttag "td"; data "see"]
    ++ table_events [["detail"; "value"]]
    ++ [endtag "td"; endtag "tr"; endtag "table"] in
  tables (feed new_extractor html)
  = [[["Unit"; "Power"; "Reason/Comment"]; ["detail"; "value"]]]
  /\ List.length (tables (feed new_extractor html)) <> 2.
Proof.
  intros html. split; [reflexivity|].
  intros H. vm_compute in H. discriminate H.
Qed.

(** C2, amended.  For every document with a well-formed table nested
    inside a cell of an outer table's row, the nested table having at
    least one row, the table list has at most one entry, for the outer and
    the nested table together: it holds the kept rows of the outer table
    before the row with the nested table, then those of the nested table,
    then those of the outer table after that row, and it is classified
    once, as one table. *)
Theorem C2_nested_table_one_entry
    (report_date : date)
    (pre rows1 before : list Event) (t_cell : string)
    (content1 inner content2 : list Event) (t_cell' : string)
    (after rows3 post : list Event)
    (g1 gi g3 : list (list string)) (cb ca : list string) :
  Forall outside pre -> Forall outside post ->
  rows_of rows1 g1 -> cells_of before cb ->
  is_cell_tag (lower t_cell) = true -> Forall inline content1 ->
  table_of inner gi -> gi <> [] ->
  Forall inline content2 -> is_cell_tag (lower t_cell') = true ->
  cells_of after ca -> rows_of rows3 g3 ->
  let html := nested_document pre rows1 before t_cell content1 inner
                content2 t_cell' after rows3 post in
  tables (feed new_extractor html) = listed (kept_rows (g1 ++ gi ++ g3))
  /\ List.length (tables (feed new_extractor html)) <= 1
  /\ parse_rows report_date html
     = Some (flat_map (table_output report_date)
               (listed (kept_rows (g1 ++ gi ++ g3)))).
Proof.
  intros Hpre Hpost H1 Hb Hc Hc1 Hin Hgi Hc2 Hc' Ha H3 html.
  assert (E : tables (feed new_extractor html)
              = listed (kept_rows (g1 ++ gi ++ g3))).
  { now apply (tables_of_nested_document pre rows1 before t_cell content1
                 inner content2 t_cell' after rows3 post g1 gi g3 cb ca). }
  split; [exact E|]. split.
  - rewrite E. unfold listed. destruct (kept_rows _); simpl; lia.
  - rewrite parse_rows_output. now rewrite E.
Qed.

(** C2 amended, on an outer table with a header row, a row whose reason
    cell holds a one-row table, and a last row. *)
Lemma C2_witness :
  let html :=
    nested_document [] (row_events ["Unit"; "Power"; "Reason/Comment"])
      (cell_events "Unit 1" ++ cell_events "97") "td" [data "see"]
      (table_events [["Unit 9"; "12"]]) [] "td" []
      (row_events ["Unit 2"; "0"; "Refueling"]) [] in
  tables (feed new_extractor html)
  = [[["Unit"; "Power"; "Reason/Comment"]; ["Unit 9"; "12"];
      ["Unit 2"; "0"; "Refueling"]]]
  /\ parse_rows (mk_date 1999 3 15) html
     = Some [mk_Row (mk_date 1999 3 15) "Unit 9" "12" "";
             mk_Row (mk_date 1999 3 15) "Unit 2" "0" "Refueling"].
Proof.
  intros html.
  destruct (C2_nested_table_one_entry (mk_date 1999 3 15)
              [] (row_events ["Unit"; "Power"; "Reason/Comment"])
              (cell_events "Unit 1" ++ cell_events "97") "td" [data "see"]
              (table_events [["Unit 9"; "12"]]) [] "td" []
              (row_events ["Unit 2"; "0"; "Refueling"]) []
              [["Unit"; "Power"; "Reason/Comment"]] [["Unit 9"; "12"]]
              [["Unit 2"; "0"; "Refueling"]] ["Unit 1"; "97"] [])
    as (Ht & _ & Hp).
  - constructor.
  - constructor.
  - apply (rows_of_row_events [["Unit"; "Power"; "Reason/Comment"]]).
  - apply (cells_of_cell_events ["Unit 1"; "97"]).
  - reflexivity.
  - repeat constructor.
  - apply (table_of_table_events [["Unit 9"; "12"]]).
  - discriminate.
  - constructor.
  - reflexivity.
  - constructor.
  - apply (rows_of_row_events [["Unit 2"; "0"; "Refueling"]]).
  - split; [exact Ht | exact Hp].
Defined.

(** ** Classification *)

(** C3. The header row chosen for a table is the first row, in order,
    whose lowered and normalised cells contain a cell equal to ["unit"]
    and a cell that equals ["power"] or begins with ["power"]; the header
    cells are the lowered cells of that row.  When no row of the table
    qualifies, the table adds no record to the output. *)
Theorem C3_header_is_first_qualifying_row
    (report_date : date) (table : list (list string)) (out : list Row) :
  (forall i headers,
     header_loop (enumerate table) = (Some i, headers) <->
     exists row,
       nth_error table i = Some row /\ qualifies_as_header row
       /\ headers = lowered_row row
       /\ forall j row', j < i -> nth_error table j = Some row' ->
                         ~ qualifies_as_header row')
  /\ ((forall row, In row table -> ~ qualifies_as_header row) ->
      table_body report_date table out = Some out).
Proof.
  split.
  - intros i headers. rewrite enumerate_is_from, header_loop_first.
    split.
    + intros (row & (_ & Hn & Hq & Hfirst) & ->). exists row.
      rewrite Nat.sub_0_r in Hn.
      split; [exact Hn|]. split; [now apply header_test_spec|].
      split; [reflexivity|].
      intros j row' Hj Hrow' Hq'. apply header_test_spec in Hq'.
      rewrite (Hfirst j row') in Hq'; [discriminate | lia |].
      now rewrite Nat.sub_0_r.
    + intros (row & Hn & Hq & -> & Hfirst). exists row.
      split; [|reflexivity].
      split; [lia|]. split; [now rewrite Nat.sub_0_r|].
      split; [now apply header_test_spec|].
      intros j row' Hj Hrow'. rewrite Nat.sub_0_r in Hrow'.
      destruct (header_test (lowered_row row')) eqn:E; [|reflexivity].
      exfalso. apply (Hfirst j row'); [lia | exact Hrow' |].
      now apply header_test_spec.
  - intros Hnone. rewrite table_body_output. unfold table_output.
    rewrite enumerate_is_from, header_loop_none; [now rewrite app_nil_r|].
    intros row Hin. destruct (header_test (lowered_row row)) eqn:E; auto.
    exfalso. apply (Hnone row Hin). now apply header_test_spec.
Qed.

(** C3 on a table whose second row is the first qualifying one, and on a
    table without a qualifying row. *)
Lemma C3_witness :
  header_loop (enumerate [["Status"]; ["Unit"; "Power(%)"]; ["1"; "100"]])
  = (Some 1, ["unit"; "power(%)"])
  /\ (forall row, In row [["Region"; "Plant"]; ["1"; "Salem"]] ->
                  ~ qualifies_as_header row)
  /\ table_body (mk_date 1999 3 15) [["Region"; "Plant"]; ["1"; "Salem"]] []
     = Some [].
Proof.
  assert (Hnone : forall row, In row [["Region"; "Plant"]; ["1"; "Salem"]] ->
                              ~ qualifies_as_header row).
  { intros row Hin Hq. apply header_test_spec in Hq.
    destruct Hin as [<-|[<-|[]]]; discriminate Hq. }
  split; [|split; [exact Hnone|]].
  - apply (C3_header_is_first_qualifying_row (mk_date 1999 3 15)
             [["Status"]; ["Unit"; "Power(%)"]; ["1"; "100"]] []).
    exists ["Unit"; "Power(%)"].
    split; [reflexivity|]. split; [now apply header_test_spec|].
    split; [reflexivity|].
    intros j row' Hj Hrow' Hq. apply header_test_spec in Hq.
      assert (j = 0) as -> by lia. injection Hrow' as <-. discriminate Hq.
  - apply (C3_header_is_first_qualifying_row (mk_date 1999 3 15)
             [["Region"; "Plant"]; ["1"; "Salem"]] []).
    exact Hnone.
Defined.

(** C4. For a table with a detected header row: when no header cell is
    ["unit"] or begins with ["unit "], or no header cell is ["power"] or
    begins with ["power "], the table adds no record to the output,
    whatever its data rows are. *)
Theorem C4_unresolved_column_no_records
    (report_date : date) (table : list (list string)) (out : list Row)
    (i : nat) (headers : list string) :
  header_loop (enumerate table) = (Some i, headers) ->
  (forall h, In h headers -> ~ unit_label h)
  \/ (forall h, In h headers -> ~ power_label h) ->
  table_body report_date table out = Some out.
Proof.
  intros Hh Hcols. rewrite table_body_output. unfold table_output.
  rewrite Hh.
  assert (Hnone : _find_col_idx headers unit_pred = None
                  \/ _find_col_idx headers power_pred = None).
  { destruct Hcols as [Hu|Hp]; [left|right]; apply find_col_idx_none;
      intros h Hin.
    - destruct (unit_pred h) eqn:E; [|reflexivity].
      exfalso. apply (Hu h Hin). now apply unit_pred_spec.
    - destruct (power_pred h) eqn:E; [|reflexivity].
      exfalso. apply (Hp h Hin). now apply power_pred_spec. }
  destruct Hnone as [-> | Hp]; [now rewrite app_nil_r|].
  rewrite Hp. destruct (_find_col_idx headers unit_pred);
    now rewrite app_nil_r.
Qed.

(** C4 on a table whose header row is detected through ["power(%)"],
    which is not a power column label. *)
Lemma C4_witness :
  header_loop (enumerate [["Unit"; "Power(%)"; "Reason"];
                          ["1"; "100"; "None"]])
  = (Some 0, ["unit"; "power(%)"; "reason"])
  /\ (forall h, In h ["unit"; "power(%)"; "reason"] -> ~ power_label h)
  /\ table_body (mk_date 1999 3 15)
       [["Unit"; "Power(%)"; "Reason"]; ["1"; "100"; "None"]] []
     = Some [].
Proof.
  assert (Hp : forall h, In h ["unit"; "power(%)"; "reason"] ->
                         ~ power_label h).
  { intros h Hin Hl. apply power_pred_spec in Hl.
    destruct Hin as [<-|[<-|[<-|[]]]]; discriminate Hl. }
  split; [reflexivity | split; [exact Hp|]].
  apply (C4_unresolved_column_no_records (mk_date 1999 3 15)
           [["Unit"; "Power(%)"; "Reason"]; ["1"; "100"; "None"]] []
           0 ["unit"; "power(%)"; "reason"]).
  - reflexivity.
  - right. exact Hp.
Defined.

(** C5. In a table with a header row and resolved unit and power columns,
    the output is the output of each row after the header row, in order, so
    that a row passed over never stops the rows after it.  A row is passed
    over, adding nothing, exactly when it does not cover both column
    indices, or its normalised unit cell is empty, or that cell is
    ["unit"] up to case; any other row adds exactly one record, made of the
    caller's date and the normalised unit, power and reason cells, the
    reason being [""] when its column is unresolved or outside the row. *)
Theorem C5_data_rows
    (report_date : date) (table : list (list string)) (out : list Row)
    (hidx : nat) (headers : list string) (ui pi : nat) (ri : option nat) :
  header_loop (enumerate table) = (Some hidx, headers) ->
  _find_col_idx headers unit_pred = Some ui ->
  _find_col_idx headers power_pred = Some pi ->
  _find_col_idx headers reason_pred = ri ->
  table_body report_date table out
  = Some (out ++ flat_map (row_output report_date ui pi ri)
                   (skipn (hidx + 1) table))%list
  /\ forall row,
       (row_output report_date ui pi ri row = [] <-> row_skipped ui pi row)
       /\ (~ row_skipped ui pi row ->
           row_output report_date ui pi ri row
           = [mk_Row report_date (_norm_space (nth ui row ""))
                (_norm_space (nth pi row ""))
                match ri with
                | Some r => if (r <? List.length row)%nat
                            then _norm_space (nth r row "") else ""
                | None => ""
                end]).
Proof.
  intros Hh Hu Hp Hr. split.
  - rewrite table_body_output. unfold table_output.
    now rewrite Hh, Hu, Hp, Hr.
  - intros row. split; [apply row_output_skipped|].
    intros Hk. now rewrite row_output_kept.
Qed.

(** C5 on a table with a short row, a spacer row and a repeated header
    between two data rows. *)
Lemma C5_witness :
  table_body (mk_date 1999 3 15)
    [["Unit"; "Power"; "Reason or Comment"];
     ["Salem 1"; "100"];
     ["Short"];
     [" "; "0"; "blank unit"];
     ["UNIT"; "POWER"; "REASON OR COMMENT"];
     ["Salem 2"; "0"; "Refueling
       outage"]] []
  = Some [mk_Row (mk_date 1999 3 15) "Salem 1" "100" "";
          mk_Row (mk_date 1999 3 15) "Salem 2" "0" "Refueling outage"].
Proof.
  apply (C5_data_rows (mk_date 1999 3 15)
           [["Unit"; "Power"; "Reason or Comment"];
            ["Salem 1"; "100"];
            ["Short"];
            [" "; "0"; "blank unit"];
            ["UNIT"; "POWER"; "REASON OR COMMENT"];
            ["Salem 2"; "0"; "Refueling
       outage"]] [] 0 ["unit"; "power"; "reason or comment"] 0 1 (Some 2));
    reflexivity.
Defined.

(** ** Robustness and determinism *)

(** C6, as stated, fails: an end tag with no matching open tag is not
    always a no-op.  A row left open when its table ends keeps the in-row
    flag set; a row end tag in the next table, where no row is open, then
    closes that stale row and adds it to the new table. *)
Lemma C6_counterexample :
  let html := [starttag "table"; starttag "tr"; starttag "td"; data "a";
               endtag "td"; endtag "table"; starttag "table"] in
  no_matching_open_tag html "tr"
  /\ handle_endtag (feed new_extractor html) "tr" <> feed new_extractor html
  /\ tables (feed new_extractor (html ++ [endtag "tr"; endtag "table"]))
     = [[["a"]]]
  /\ tables (feed new_extractor (html ++ [endtag "table"])) = [].
Proof.
  intros html. split; [reflexivity|]. split; [|split; reflexivity].
  intros H. apply (f_equal _in_tr) in H. vm_compute in H. discriminate H.
Qed.

(** C6, amended.  For every sequence of parser callbacks, well formed or
    not, extraction followed by classification returns a list of records
    and raises nothing; on a text, [parse_rows] raises exactly when the
    tokenizer of the standard library raises on that text.  An end tag
    with no matching open tag leaves the scanner unchanged, and can be
    removed from the input without effect, when the markup before it is
    explicitly nested (no element closed by the end of another, no
    nested table; elements may still be open and other stray end tags
    may occur), and also in any input in which no start tag has opened
    an element of its kind. *)
Theorem C6_total_and_stray_end_tags_ignored :
  (forall report_date html,
     exists out, parse_rows report_date html = Some out)
  /\ (forall tokenize report_date text,
        parse_rows_text tokenize report_date text = None
        <-> tokenize text = None)
  /\ (forall html tag,
        explicitly_nested html = true -> no_matching_open_tag html tag ->
        handle_endtag (feed new_extractor html) tag = feed new_extractor html
        /\ forall rest,
             feed new_extractor (html ++ endtag tag :: rest)
             = feed new_extractor (html ++ rest))
  /\ (forall html tag,
        (forall t, In (starttag t) html -> ~ opens_for t tag) ->
        feed new_extractor (html ++ [endtag tag]) = feed new_extractor html).
Proof.
  split; [|split; [|split]].
  - intros report_date html. rewrite parse_rows_output. eexists. reflexivity.
  - intros tokenize report_date text. unfold parse_rows_text.
    destruct (tokenize text) as [callbacks|]; [|now split].
    rewrite parse_rows_output. split; intros H; discriminate H.
  - intros html tag He Hno.
    assert (E := stray_endtag_noop html tag He Hno).
    split; [exact E|]. intros rest.
    rewrite !feed_app, feed_cons. simpl dispatch. now rewrite E.
  - intros html tag Hno. rewrite feed_app, feed_cons, feed_nil.
    simpl dispatch. apply unmatched_endtag_noop.
    apply unmatched_feed; [exact Hno | apply unmatched_new].
Qed.

(** C6 amended, on a row with a stray cell end tag after a closed cell,
    a stray row end tag between rows, and elements left open at the end
    of the input. *)
Lemma C6_witness :
  let html1 := [starttag "table"; starttag "tr"; starttag "td"; data "a";
                endtag "td"] in
  let html2 := [starttag "table"; starttag "tr"; starttag "td"; data "a";
                endtag "td"; endtag "th"; endtag "tr"] in
  let rest := [starttag "tr"; starttag "td"; data "b"] in
  explicitly_nested html1 = true /\ no_matching_open_tag html1 "TH"
  /\ explicitly_nested html2 = true /\ no_matching_open_tag html2 "tr"
  /\ feed new_extractor (html1 ++ endtag "TH" :: rest)
     = feed new_extractor (html1 ++ rest)
  /\ feed new_extractor (html2 ++ endtag "tr" :: rest)
     = feed new_extractor (html2 ++ rest)
  /\ feed new_extractor ([starttag "table"; starttag "tr"] ++ [endtag "td"])
     = feed new_extractor [starttag "table"; starttag "tr"].
Proof.
  intros html1 html2 rest.
  destruct C6_total_and_stray_end_tags_ignored
    as (_ & _ & Hstray & Hnever).
  assert (E1 : explicitly_nested html1 = true) by reflexivity.
  assert (N1 : no_matching_open_tag html1 "TH") by reflexivity.
  assert (E2 : explicitly_nested html2 = true) by reflexivity.
  assert (N2 : no_matching_open_tag html2 "tr") by reflexivity.
  split; [exact E1|]. split; [exact N1|].
  split; [exact E2|]. split; [exact N2|].
  split; [apply (proj2 (Hstray html1 "TH" E1 N1))|].
  split; [apply (proj2 (Hstray html2 "tr" E2 N2))|].
  apply Hnever. intros t [Ht|[Ht|[]]]; injection Ht as <-;
    intros [[H _]|[[_ H]|[_ H]]]; discriminate H.
Defined.

(** C7. Two calls of [parse_rows] on the same document and date return
    the same records, and no state passes from one call to the next.
    With the lists of Python as objects of a heap that outlives the
    calls: whatever heap the first call finds, it returns a list holding
    the records that the classifier on values computes; the second call,
    started on the heap that the first has left, returns a list holding
    the same records; the two lists are distinct objects, the list of the
    first call still holds its records after the second, and each call
    leaves every list that existed before it unchanged. *)
Theorem C7_invocations_share_no_state
    (report_date : date) (html : list Event) :
  exists rows,
    parse_rows report_date html = Some rows
    /\ forall h : Ref.Heap,
       exists h1 out1 h2 out2,
         Ref.parse_rows report_date html h = (h1, Some out1)
         /\ Ref.parse_rows report_date html h1 = (h2, Some out2)
         /\ Ref.read_records h1 out1 = rows
         /\ Ref.read_records h2 out2 = rows
         /\ Ref.read_records h2 out1 = rows
         /\ out1 <> out2
         /\ preserved h h1 /\ preserved h1 h2.
Proof.
  destruct (parse_rows report_date html) as [rows|] eqn:E;
    [|rewrite parse_rows_output in E; discriminate E].
  exists rows. split; [reflexivity|]. intros h.
  destruct (ref_parse_rows report_date html h)
    as (h1 & out1 & E1 & R1 & M1 & P1).
  destruct (ref_parse_rows report_date html h1)
    as (h2 & out2 & E2 & R2 & M2 & P2).
  rewrite E in R1, R2. injection R1 as R1. injection R2 as R2.
  exists h1, out1, h2, out2.
  unfold made_since in M1, M2.
  split; [exact E1|]. split; [exact E2|]. split; [now symmetry|].
  split; [now symmetry|]. split; [|split; [lia | split; assumption]].
  destruct P2 as (_ & _ & _ & _ & Hc). unfold Ref.read_records.
  rewrite Hc by lia. now symmetry.
Qed.

(** ** Serialisation *)

(** C8, as stated, fails: a ["|"] at the start of a field is replaced by a
    space that is then stripped, so the field ["|1"] is written as ["1"],
    not as [" 1"]. *)
Lemma C8_counterexample :
  let r := mk_Row (mk_date 1999 3 15) "|1" "97" "N/A" in
  parse_rows (mk_date 1999 3 15)
    (table_events [["Unit"; "Power"; "Reason/Comment"];
                   ["|1"; "97"; "N/A"]])
  = Some [r]
  /\ to_psv r = "3/15/1999|1|97|N/A"
  /\ psv_line_replacing r = "3/15/1999| 1|97|N/A"
  /\ to_psv r <> psv_line_replacing r.
Proof.
  intros r. split; [reflexivity|]. split; [reflexivity|].
  split; [reflexivity|].
  intros H. vm_compute in H. discriminate H.
Qed.

(** C8, amended.  Every record serialises to the line
    [month/day/year|unit|power|reason] in which each field has every
    ["|"] replaced by a single space, never escaped, and is then stripped
    of leading and trailing white space; the line holds exactly three
    ["|"].  The scenario with header
    [["Unit"; "Power"; "Reason/Comment"]], data rows
    [["Unit 1"; "97"; "N/A"]] and [["Unit 2"; "0"; "Refueling Outage"]]
    and date 1999-03-15 gives the lines [3/15/1999|Unit 1|97|N/A] and
    [3/15/1999|Unit 2|0|Refueling Outage]. *)
Theorem C8_psv_line :
  (forall r,
     to_psv r
     = (date_text (report_date r)
        ++ "|" ++ strip (pipes_to_spaces (unit r))
        ++ "|" ++ strip (pipes_to_spaces (power r))
        ++ "|" ++ strip (pipes_to_spaces (reason r)))%string
     /\ count_char "|" (to_psv r) = 3)
  /\ option_map (map to_psv)
       (parse_rows (mk_date 1999 3 15)
          (table_events [["Unit"; "Power"; "Reason/Comment"];
                         ["Unit 1"; "97"; "N/A"];
                         ["Unit 2"; "0"; "Refueling Outage"]]))
     = Some ["3/15/1999|Unit 1|97|N/A";
             "3/15/1999|Unit 2|0|Refueling Outage"].
Proof.
  split; [|reflexivity].
  intros r. split.
  - unfold to_psv, _safe_psv_field, date_text.
    rewrite !replace_char_pipes. reflexivity.
  - unfold to_psv. fold (date_text (report_date r)).
    rewrite !count_char_app, !count_pipes_safe_field, count_pipes_date.
    reflexivity.
Qed.

(** ** Cell text *)

(** C9. Inside a cell of a table, a [br] or [p] start tag appends a single
    space to the cell buffer and changes nothing else.  At the end of a
    cell the buffered pieces, joined, are appended to the row as one text
    with every white-space run collapsed to a single space and none left
    at either end.  In particular a cell holding [Palo<br>Verde] followed
    by stray spaces yields the cell text ["Palo Verde"]. *)
Theorem C9_breaks_and_cell_text :
  (forall self tag,
     (1 <= _in_table self)%Z -> _in_cell self = true ->
     is_break_tag (lower tag) = true ->
     handle_starttag self tag
     = set_cell_buf self (_cell_buf self ++ [" "]))
  /\ (forall self tag,
        (1 <= _in_table self)%Z -> _in_tr self = true ->
        _in_cell self = true -> is_cell_tag (lower tag) = true ->
        handle_endtag self tag
        = mk_extractor (_in_table self) true false []
            (_current_row self ++ [collapsed (join (_cell_buf self))])
            (_current_table self) (tables self))
  /\ tables (feed new_extractor
               [starttag "table"; starttag "tr"; starttag "td";
                data "Palo"; starttag "br"; data "Verde   "; endtag "td";
                endtag "tr"; endtag "table"])
     = [[["Palo Verde"]]].
Proof.
  split; [|split; [|reflexivity]].
  - intros self tag Hn Hc Hb. rewrite starttag_break by exact Hb.
    rewrite Hc. now rewrite (proj2 (Z.leb_le 1 _) Hn).
  - intros self tag Hn Hr Hc Ht. rewrite endtag_cell by exact Ht.
    rewrite Hr, Hc, (proj2 (Z.leb_le 1 _) Hn). simpl.
    now rewrite norm_space_collapsed.
Qed.

(** C9 on the scanner inside the cell that holds [Palo]. *)
Lemma C9_witness :
  let self := feed new_extractor
                [starttag "table"; starttag "tr"; starttag "td";
                 data "Palo"] in
  _cell_buf (handle_starttag self "br") = ["Palo"; " "]
  /\ _current_row
       (handle_endtag
          (handle_data (handle_starttag self "BR") "Verde   ") "td")
     = ["Palo Verde"].
Proof.
  intros self.
  destruct C9_breaks_and_cell_text as (Hbreak & Hend & _). split.
  - rewrite (Hbreak self "br"); [reflexivity | | reflexivity | reflexivity].
    apply Z.leb_le. vm_compute. reflexivity.
  - rewrite (Hend (handle_data (handle_starttag self "BR") "Verde   ") "td");
      [reflexivity | | reflexivity | reflexivity | reflexivity].
    apply Z.leb_le. vm_compute. reflexivity.
Defined.

(** C10, as stated, fails: after a row has ended with its last cell left
    open, the scanner is still inside that cell, yet a cell start tag
    leaves the buffer as it is, and the buffered text reaches the next
    row. *)
Lemma C10_counterexample :
  let self := feed new_extractor
                [starttag "table"; starttag "tr"; starttag "td";
                 data "abc"; endtag "tr"] in
  _in_cell self = true
  /\ _cell_buf self = ["abc"]
  /\ _cell_buf (handle_starttag self "td") = ["abc"]
  /\ tables (feed self [starttag "td"; starttag "tr"; data "xyz";
                        endtag "td"; endtag "tr"; endtag "table"])
     = [[["abcxyz"]]].
Proof. repeat split. Qed.

(** C10, amended.  A cell start tag met while the scanner is inside a cell
    of an open row of a table discards the text buffered for the cell
    left open: the buffer becomes empty, the cell list of the row is
    unchanged, and the scanner is the one it would be had nothing been
    buffered.  So a row with an unclosed cell and then a closed cell gets
    one entry, the text of the closed cell. *)
Theorem C10_unclosed_cell_discarded :
  (forall self tag,
     (1 <= _in_table self)%Z -> _in_tr self = true ->
     _in_cell self = true -> is_cell_tag (lower tag) = true ->
     handle_starttag self tag
     = mk_extractor (_in_table self) true true [] (_current_row self)
         (_current_table self) (tables self)
     /\ handle_starttag self tag
        = handle_starttag (set_cell_buf self []) tag)
  /\ (forall n ic buf row tbl T t1 t2 t3 content1 content2,
        (1 <= n)%Z ->
        is_cell_tag (lower t1) = true -> is_cell_tag (lower t2) = true ->
        is_cell_tag (lower t3) = true ->
        Forall inline content1 -> Forall inline content2 ->
        feed (mk_extractor n true ic buf row tbl T)
          (starttag t1 :: content1 ++ starttag t2 :: content2
             ++ [endtag t3])
        = mk_extractor n true false [] (row ++ [cell_text content2])
            tbl T).
Proof.
  split.
  - intros self tag Hn Hr Hc Ht. rewrite !starttag_cell by exact Ht.
    destruct self as [n itr ic buf row tbl T]. simpl in *. subst.
    now rewrite (proj2 (Z.leb_le 1 _) Hn).
  - intros n ic buf row tbl T t1 t2 t3 content1 content2 Hn H1 H2 H3 Hc1 Hc2.
    assert (Hn' : (1 <=? n)%Z = true) by now apply Z.leb_le.
    rewrite feed_cons. simpl dispatch. rewrite starttag_cell by exact H1.
    scan_set. rewrite Hn'. scan_set.
    rewrite feed_app, (feed_inline content1 Hc1). scan_set. rewrite Hn'.
    scan_set. rewrite feed_cons. simpl dispatch.
    rewrite starttag_cell by exact H2. scan_set. rewrite Hn'. scan_set.
    rewrite feed_app, (feed_inline content2 Hc2). scan_set. rewrite Hn'.
    scan_set. rewrite feed_cons, feed_nil. simpl dispatch.
    rewrite endtag_cell by exact H3. scan_set. rewrite Hn'. scan_set.
    reflexivity.
Qed.

(** C10 amended, on a row whose first cell is left open. *)
Lemma C10_witness :
  let self := feed new_extractor
                [starttag "table"; starttag "tr"; starttag "td";
                 data "abc"] in
  _cell_buf self = ["abc"]
  /\ _cell_buf (handle_starttag self "td") = []
  /\ feed (feed new_extractor [starttag "table"; starttag "tr"])
       (starttag "td" :: [data "abc"] ++ starttag "th" :: [data "xyz"]
          ++ [endtag "td"])
     = mk_extractor 1 true false [] ["xyz"] [] [].
Proof.
  intros self. destruct C10_unclosed_cell_discarded as (Hstate & Hrow).
  split; [reflexivity|]. split.
  - destruct (Hstate self "td") as (E & _);
      [apply Z.leb_le; vm_compute; reflexivity
      | reflexivity | reflexivity | reflexivity |].
    rewrite E. reflexivity.
  - apply (Hrow 1%Z false [] [] [] [] "td" "th" "td"
             [data "abc"] [data "xyz"]);
      [lia | reflexivity | reflexivity | reflexivity | |];
      repeat constructor.
Defined.

(** * Further properties of the code *)

(** ** Normal form of [_norm_space] *)

Lemma norm_space_starts_word (s : string) :
  starts_word s = true -> starts_word (_norm_space s) = true.
Proof.
  destruct s as [|c r]; [discriminate|]. simpl. intros Hc.
  apply negb_true_iff in Hc. rewrite norm_space_letter by exact Hc.
  simpl. now rewrite Hc.
Qed.

Lemma norm_space_head (s : string) :
  _norm_space s = "" \/ starts_word (_norm_space s) = true.
Proof.
  induction s as [|c r IH]; [now left|].
  destruct (isspace c) eqn:Hc.
  - now rewrite norm_space_space.
  - right. rewrite norm_space_letter by exact Hc. simpl. now rewrite Hc.
Qed.

Lemma tidy_from_starts_word (b : bool) (s : string) :
  starts_word s = true -> tidy_from b s = tidy_from false s.
Proof.
  destruct s as [|c r]; [discriminate|]. simpl. intros Hc.
  apply negb_true_iff in Hc. now rewrite Hc.
Qed.

Lemma tidy_from_true_tidy (s : string) :
  tidy_from true s = true -> tidy s = true.
Proof. now destruct s. Qed.

Lemma norm_space_tidy (s : string) : tidy (_norm_space s) = true.
Proof.
  induction s as [|c r IH]; [reflexivity|].
  destruct (isspace c) eqn:Hc.
  - now rewrite norm_space_space.
  - rewrite norm_space_letter by exact Hc. simpl. rewrite Hc.
    destruct (starts_word r) eqn:Hr.
    + apply norm_space_starts_word in Hr.
      destruct (_norm_space r) as [|a m] eqn:E; [reflexivity|].
      rewrite <- (tidy_from_starts_word true) by exact Hr. exact IH.
    + destruct (_norm_space r) as [|a m] eqn:E; [reflexivity|].
      destruct (norm_space_head r) as [H|H]; rewrite E in H;
        [discriminate|].
      change (tidy_from false (String " " (String a m)))
        with (tidy_from true (String a m)). exact IH.
Qed.

Lemma tidy_fixed_aux (s : string) :
  (forall c, isspace c = false -> tidy_from false s = true ->
             _norm_space (String c s) = String c s)
  /\ (tidy_from true s = true -> _norm_space s = s).
Proof.
  induction s as [|a r [IHp IHq]]; split.
  - intros c Hc _. now rewrite norm_space_letter.
  - discriminate.
  - intros c Hc Ht. rewrite norm_space_letter by exact Hc. simpl in *.
    destruct (isspace a) eqn:Ha; simpl.
    + apply andb_true_iff in Ht. destruct Ht as [Ht Hr].
      rewrite andb_true_r in Ht. apply Ascii.eqb_eq in Ht. subst a.
      rewrite norm_space_space by exact Ha. rewrite (IHq Hr).
      destruct r; [discriminate Hr | reflexivity].
    + now rewrite (IHp a Ha Ht).
  - intros Ht. simpl in Ht. destruct (isspace a) eqn:Ha.
    + now rewrite andb_false_r in Ht.
    + now apply IHp.
Qed.

Lemma tidy_fixed (s : string) : tidy s = true -> _norm_space s = s.
Proof.
  destruct s as [|a r]; [reflexivity|]. intros Ht.
  now apply (proj2 (tidy_fixed_aux (String a r))).
Qed.

Lemma norm_space_blank (s : string) :
  _norm_space s = "" <-> blank s = true.
Proof.
  induction s as [|c r IH]; [now split|]. simpl.
  destruct (isspace c) eqn:Hc.
  - now rewrite norm_space_space.
  - rewrite norm_space_letter by exact Hc. split; discriminate.
Qed.

Lemma words_norm_space (s : string) : words (_norm_space s) = words s.
Proof.
  induction s as [|c r IH]; [reflexivity|].
  destruct (isspace c) eqn:Hc.
  - rewrite norm_space_space by exact Hc. simpl. now rewrite Hc.
  - rewrite norm_space_letter by exact Hc. simpl. rewrite Hc.
    destruct (starts_word r) eqn:Hr.
    + rewrite (norm_space_starts_word r Hr). now rewrite IH.
    + destruct (_norm_space r) as [|a m] eqn:E.
      * simpl. now rewrite <- IH.
      * destruct (norm_space_head r) as [H|H]; rewrite E in H;
          [discriminate|].
        change (starts_word (String " " (String a m))) with false.
        cbv iota. change (words (String " " (String a m)))
          with (words (String a m)). now rewrite IH.
Qed.

(** ** Stripping and splitting *)

Lemma rstrip_idem (s : string) : rstrip (rstrip s) = rstrip s.
Proof.
  induction s as [|c r IH]; [reflexivity|]. simpl.
  destruct (rstrip r) as [|b r'] eqn:E.
  - destruct (isspace c) eqn:Hc; [reflexivity|]. simpl. now rewrite Hc.
  - change (rstrip (String c (String b r')))
      with (match rstrip (String b r') with
            | EmptyString =>
                if isspace c then EmptyString else String c EmptyString
            | x => String c x
            end).
    now rewrite IH.
Qed.

Lemma lstrip_head (s : string) :
  lstrip s = "" \/ starts_word (lstrip s) = true.
Proof.
  induction s as [|c r IH]; [now left|]. simpl.
  destruct (isspace c) eqn:Hc; [exact IH|]. right. simpl. now rewrite Hc.
Qed.

Lemma lstrip_rstrip (s : string) :
  s = "" \/ starts_word s = true -> lstrip (rstrip s) = rstrip s.
Proof.
  intros [->|Hs]; [reflexivity|].
  destruct s as [|c r]; [discriminate|]. simpl in Hs.
  apply negb_true_iff in Hs. simpl.
  destruct (rstrip r); rewrite ?Hs; simpl; now rewrite Hs.
Qed.

Lemma strip_idem (s : string) : strip (strip s) = strip s.
Proof.
  unfold strip. rewrite (lstrip_rstrip (lstrip s) (lstrip_head s)).
  apply rstrip_idem.
Qed.

Lemma pipes_to_spaces_fixed (s : string) :
  count_char "|" s = 0 -> pipes_to_spaces s = s.
Proof.
  induction s as [|a r IH]; simpl; [reflexivity|].
  destruct (Ascii.eqb a "|"); [discriminate|]. intros H. now rewrite IH.
Qed.

Lemma safe_psv_field_idem (s : string) :
  _safe_psv_field (_safe_psv_field s) = _safe_psv_field s.
Proof.
  unfold _safe_psv_field at 1. rewrite replace_char_pipes.
  rewrite pipes_to_spaces_fixed by apply count_pipes_safe_field.
  unfold _safe_psv_field. apply strip_idem.
Qed.

Lemma split_on_none (c : ascii) (s : string) :
  count_char c s = 0 -> split_on c s = [s].
Proof.
  induction s as [|a r IH]; simpl; [reflexivity|].
  destruct (Ascii.eqb a c); [discriminate|]. intros H. now rewrite IH.
Qed.

Lemma split_on_app (c : ascii) (s1 s2 : string) :
  count_char c s1 = 0 ->
  split_on c (s1 ++ String c s2)%string = s1 :: split_on c s2.
Proof.
  induction s1 as [|a r IH]; simpl.
  - now rewrite Ascii.eqb_refl.
  - destruct (Ascii.eqb a c); [discriminate|]. intros H. now rewrite IH.
Qed.

(** ** White space inside a normal form *)

Lemma tidy_from_count (c : ascii) (b : bool) (s : string) :
  isspace c = true -> c <> " "%char ->
  tidy_from b s = true -> count_char c s = 0.
Proof.
  intros Hc Hne. revert b. induction s as [|a r IH]; intros b; simpl;
    [reflexivity|].
  destruct (isspace a) eqn:Ha.
  - intros Ht. apply andb_true_iff in Ht. destruct Ht as [Ht Hr].
    apply andb_true_iff in Ht. destruct Ht as [Ht _].
    apply Ascii.eqb_eq in Ht. subst a.
    destruct (Ascii.eqb_spec " "%char c) as [E|_]; [now subst c|].
    now apply (IH true).
  - intros Ht. destruct (Ascii.eqb_spec a c) as [E|_].
    + subst a. congruence.
    + now apply (IH false).
Qed.

Lemma norm_space_count (c : ascii) (s : string) :
  isspace c = true -> c <> " "%char -> count_char c (_norm_space s) = 0.
Proof.
  intros Hc Hne. pose proof (norm_space_tidy s) as Ht.
  destruct (_norm_space s) as [|a r] eqn:E; [reflexivity|].
  now apply (tidy_from_count c true).
Qed.

Lemma count_pipes_to_spaces (c : ascii) (s : string) :
  c <> " "%char -> count_char c s = 0 ->
  count_char c (pipes_to_spaces s) = 0.
Proof.
  intros Hne. induction s as [|a r IH]; simpl; [reflexivity|].
  destruct (Ascii.eqb_spec a c) as [E|Ha]; [discriminate|]. intros H.
  destruct (Ascii.eqb a "|").
  - destruct (Ascii.eqb_spec " "%char c) as [E|_]; [now subst c|].
    now apply IH.
  - destruct (Ascii.eqb_spec a c) as [E|_]; [contradiction|]. now apply IH.
Qed.

Lemma count_digits_other (c : ascii) (u : Decimal.uint) :
  (forall d, In d ["0"; "1"; "2"; "3"; "4"; "5"; "6"; "7"; "8"; "9"]%char ->
             c <> d) ->
  count_char c (NilEmpty.string_of_uint u) = 0.
Proof.
  intros Hc.
  induction u; cbn [NilEmpty.string_of_uint count_char];
    [reflexivity| | | | | | | | | | ];
    match goal with
    | |- context [Ascii.eqb ?d c] =>
        destruct (Ascii.eqb_spec d c) as [E|_];
        [exfalso; apply (Hc d); [simpl; tauto | now symmetry] | exact IHu]
    end.
Qed.

(** ** Invariants of the scanner *)

Lemma scan_inv_new : scan_inv new_extractor.
Proof. unfold scan_inv. simpl. repeat split; auto; lia. Qed.

(** Splits the invariant into its five parts and closes the parts that
    the hypotheses give at once. *)
Ltac inv_split :=
  unfold scan_inv;
  cbn [_in_table _current_table _current_row tables];
  split; [|split; [|split; [|split]]];
  try assumption; try lia; try (intros; lia); try (intros; reflexivity);
  try (now constructor).

Lemma scan_inv_step (self : _TableExtractor) (e : Event) :
  scan_inv self -> scan_inv (dispatch self e).
Proof.
  destruct self as [n itr ic buf row tbl T].
  intros (Hn & H0 & Hrow & Htbl & HT). simpl in Hn, H0, Hrow, Htbl, HT.
  destruct e as [t|t|d]; simpl dispatch.
  - destruct (tag_cases t) as [H|[H|[H|H]]].
    + rewrite starttag_table by exact H. scan_set.
      destruct (n + 1 =? 1)%Z eqn:E; scan_set; inv_split.
    + rewrite starttag_tr by exact H. scan_set.
      destruct (1 <=? n)%Z; scan_set; inv_split.
    + rewrite starttag_cell by exact H. scan_set.
      destruct ((1 <=? n)%Z && itr); scan_set; inv_split.
    + destruct (is_break_tag (lower t)) eqn:Hb.
      * rewrite starttag_break by exact Hb. scan_set.
        destruct ((1 <=? n)%Z && ic); scan_set; inv_split.
      * rewrite starttag_other by assumption. inv_split.
  - destruct (tag_cases t) as [H|[H|[H|H]]].
    + rewrite endtag_table by exact H. scan_set.
      destruct (Z.leb_spec 1 n) as [Hn1|Hn1]; [|inv_split].
      destruct (n - 1 =? 0)%Z eqn:E; scan_set; inv_split.
      destruct tbl as [|r0 tbl]; simpl; [exact HT|].
      apply Forall_app. split; [exact HT|].
      constructor; [|constructor]. split; [discriminate | exact Htbl].
    + rewrite endtag_tr by exact H. scan_set.
      destruct (Z.leb_spec 1 n) as [Hn1|Hn1]; simpl; [|inv_split].
      destruct itr; scan_set; inv_split.
      destruct (existsb _ row) eqn:Hk; [|exact Htbl].
      apply Forall_app. split; [exact Htbl|].
      constructor; [|constructor]. now split.
    + rewrite endtag_cell by exact H. scan_set.
      destruct ((1 <=? n)%Z && itr && ic); scan_set; inv_split.
      apply Forall_app. split; [exact Hrow|].
      constructor; [apply norm_space_tidy | constructor].
    + rewrite endtag_other by exact H. inv_split.
  - unfold handle_data. scan_set.
    destruct ((1 <=? n)%Z && ic); inv_split.
Qed.

Lemma scan_inv_feed (html : list Event) :
  forall self, scan_inv self -> scan_inv (feed self html).
Proof.
  induction html as [|e html IH]; intros self Hs; [exact Hs|].
  rewrite feed_cons. apply IH. now apply scan_inv_step.
Qed.

Lemma tables_step (self : _TableExtractor) (e : Event) :
  exists more, tables (dispatch self e) = tables self ++ more.
Proof.
  destruct self as [n itr ic buf row tbl T].
  destruct e as [t|t|d]; simpl dispatch.
  - destruct (tag_cases t) as [H|[H|[H|H]]].
    + rewrite starttag_table by exact H. scan_set.
      exists []. destruct (n + 1 =? 1)%Z; scan_set; now rewrite app_nil_r.
    + rewrite starttag_tr by exact H. scan_set.
      exists []. destruct (1 <=? n)%Z; scan_set; now rewrite app_nil_r.
    + rewrite starttag_cell by exact H. scan_set.
      exists []. destruct ((1 <=? n)%Z && itr); scan_set;
        now rewrite app_nil_r.
    + destruct (is_break_tag (lower t)) eqn:Hb.
      * rewrite starttag_break by exact Hb. scan_set.
        exists []. destruct ((1 <=? n)%Z && ic); scan_set;
          now rewrite app_nil_r.
      * rewrite starttag_other by assumption. exists [].
        simpl. now rewrite app_nil_r.
  - destruct (tag_cases t) as [H|[H|[H|H]]].
    + rewrite endtag_table by exact H. scan_set.
      destruct (1 <=? n)%Z; scan_set;
        [|exists []; now rewrite app_nil_r].
      destruct (n - 1 =? 0)%Z; scan_set;
        [|exists []; now rewrite app_nil_r].
      destruct tbl as [|r0 tbl]; simpl;
        [exists []; now rewrite app_nil_r | now exists [r0 :: tbl]].
    + rewrite endtag_tr by exact H. scan_set.
      exists []. destruct ((1 <=? n)%Z && itr); scan_set;
        now rewrite app_nil_r.
    + rewrite endtag_cell by exact H. scan_set.
      exists []. destruct ((1 <=? n)%Z && itr && ic); scan_set;
        now rewrite app_nil_r.
    + rewrite endtag_other by exact H. exists []. simpl.
      now rewrite app_nil_r.
  - unfold handle_data. scan_set.
    exists []. destruct ((1 <=? n)%Z && ic); scan_set;
      now rewrite app_nil_r.
Qed.

Lemma tables_feed (html : list Event) :
  forall self, exists more, tables (feed self html) = tables self ++ more.
Proof.
  induction html as [|e html IH]; intros self.
  - exists []. simpl. now rewrite app_nil_r.
  - rewrite feed_cons. destruct (tables_step self e) as (m1 & E1).
    destruct (IH (dispatch self e)) as (m2 & E2).
    exists (m1 ++ m2). now rewrite E2, E1, app_assoc.
Qed.

(** ** Tag names are compared without regard to case *)

Lemma lower_char_idem (c : ascii) : lower_char (lower_char c) = lower_char c.
Proof.
  destruct c as [[] [] [] [] [] [] [] []]; reflexivity.
Qed.

Lemma lower_idem (s : string) : lower (lower s) = lower s.
Proof.
  induction s as [|c r IH]; simpl; [reflexivity|].
  now rewrite lower_char_idem, IH.
Qed.

Lemma dispatch_same_event (self : _TableExtractor) (e1 e2 : Event) :
  same_event e1 e2 -> dispatch self e1 = dispatch self e2.
Proof.
  destruct e1 as [t1|t1|d1], e2 as [t2|t2|d2]; simpl; try contradiction.
  - intros H. unfold handle_starttag. now rewrite H.
  - intros H. unfold handle_endtag. now rewrite H.
  - now intros ->.
Qed.

Lemma feed_same_events (html1 html2 : list Event) :
  Forall2 same_event html1 html2 ->
  forall self, feed self html1 = feed self html2.
Proof.
  induction 1 as [|e1 e2 l1 l2 He _ IH]; intros self; [reflexivity|].
  rewrite !feed_cons, (dispatch_same_event self e1 e2 He). apply IH.
Qed.

(** ** Records of the classifier *)

Lemma field_tidy (i : nat) (row : list string) : tidy (field i row) = true.
Proof. apply norm_space_tidy. Qed.

Lemma reason_field_tidy (ri : option nat) (row : list string) :
  tidy (reason_field ri row) = true.
Proof.
  unfold reason_field. destruct ri as [r|]; [|reflexivity].
  destruct (r <? List.length row)%nat; [apply field_tidy | reflexivity].
Qed.

Lemma row_output_well_formed (d : date) (ui pi : nat) (ri : option nat)
    (row : list string) (r : Row) :
  In r (row_output d ui pi ri row) -> well_formed_record d r.
Proof.
  unfold row_output.
  destruct (_ && _ && _ && _) eqn:E; [|intros []].
  intros [<-|[]]. apply andb_true_iff in E. destruct E as [E Hl].
  apply andb_true_iff in E. destruct E as [_ He].
  apply negb_true_iff in He, Hl.
  apply String.eqb_neq in He, Hl.
  unfold well_formed_record, row_record. simpl.
  repeat split; auto using field_tidy, reason_field_tidy.
Qed.

Lemma table_output_well_formed (d : date) (t : list (list string))
    (r : Row) :
  In r (table_output d t) -> well_formed_record d r.
Proof.
  unfold table_output.
  destruct (header_loop (enumerate t)) as [[hidx|] headers]; [|intros []].
  destruct (_find_col_idx headers unit_pred) as [ui|]; [|intros []].
  destruct (_find_col_idx headers power_pred) as [pi|]; [|intros []].
  intros Hin. apply in_flat_map in Hin. destruct Hin as (row & _ & Hr).
  now apply row_output_well_formed in Hr.
Qed.

Lemma row_output_length (d : date) (ui pi : nat) (ri : option nat)
    (row : list string) :
  List.length (row_output d ui pi ri row) <= 1.
Proof. unfold row_output. destruct (_ && _ && _ && _); simpl; lia. Qed.

Lemma flat_map_length_le {A B} (f : A -> list B) (l : list A) :
  (forall a, List.length (f a) <= 1) ->
  List.length (flat_map f l) <= List.length l.
Proof.
  intros Hf. induction l as [|a l IH]; simpl; [lia|].
  rewrite length_app. specialize (Hf a). lia.
Qed.

Lemma table_output_length (d : date) (t : list (list string)) :
  List.length (table_output d t) <= List.length t - 1.
Proof.
  unfold table_output.
  destruct (header_loop (enumerate t)) as [[hidx|] headers]; [|simpl; lia].
  destruct (_find_col_idx headers unit_pred) as [ui|]; [|simpl; lia].
  destruct (_find_col_idx headers power_pred) as [pi|]; [|simpl; lia].
  etransitivity; [apply flat_map_length_le, row_output_length|].
  rewrite length_skipn. lia.
Qed.

Lemma row_output_with_date (d d' : date) (ui pi : nat) (ri : option nat)
    (row : list string) :
  map (with_date d') (row_output d ui pi ri row)
  = row_output d' ui pi ri row.
Proof. unfold row_output. now destruct (_ && _ && _ && _). Qed.

Lemma table_output_with_date (d d' : date) (t : list (list string)) :
  map (with_date d') (table_output d t) = table_output d' t.
Proof.
  unfold table_output.
  destruct (header_loop (enumerate t)) as [[hidx|] headers];
    [|reflexivity].
  destruct (_find_col_idx headers unit_pred) as [ui|]; [|reflexivity].
  destruct (_find_col_idx headers power_pred) as [pi|]; [|reflexivity].
  induction (skipn (hidx + 1) t) as [|row rows IH]; [reflexivity|].
  simpl. now rewrite map_app, IH, row_output_with_date.
Qed.

(** ** Lines *)

Lemma tidy_count (c : ascii) (s : string) :
  isspace c = true -> c <> " "%char -> tidy s = true -> count_char c s = 0.
Proof.
  intros Hc Hne Ht. destruct s as [|a r]; [reflexivity|].
  now apply (tidy_from_count c true).
Qed.

Lemma count_str_of_int_other (c : ascii) (n : N) :
  (forall d, In d ["0"; "1"; "2"; "3"; "4"; "5"; "6"; "7"; "8"; "9"]%char ->
             c <> d) ->
  count_char c (str_of_int n) = 0.
Proof.
  intros Hc. unfold str_of_int, NilZero.string_of_uint.
  destruct (N.to_uint n) eqn:E; try now apply count_digits_other.
  cbn [count_char].
  destruct (Ascii.eqb_spec "0"%char c) as [H|_]; [|reflexivity].
  exfalso. apply (Hc "0"%char); [simpl; tauto | now symmetry].
Qed.

Lemma count_newline_date (d : date) :
  count_char (ascii_of_nat 10) (date_text d) = 0.
Proof.
  unfold date_text. rewrite !count_char_app.
  rewrite !count_str_of_int_other; [reflexivity | | |];
    intros x Hx; simpl in Hx;
    repeat (destruct Hx as [<-|Hx]; [discriminate|]); contradiction.
Qed.

Lemma count_newline_field (s : string) :
  tidy s = true -> count_char (ascii_of_nat 10) (_safe_psv_field s) = 0.
Proof.
  intros Ht. unfold _safe_psv_field. rewrite replace_char_pipes.
  apply count_char_strip, count_pipes_to_spaces; [discriminate|].
  apply tidy_count; [reflexivity | discriminate | exact Ht].
Qed.

Lemma count_newline_line (r : Row) :
  tidy (unit r) = true -> tidy (power r) = true -> tidy (reason r) = true ->
  count_char (ascii_of_nat 10) (to_psv r) = 0.
Proof.
  intros Hu Hp Hr. unfold to_psv. fold (date_text (report_date r)).
  rewrite !count_char_app, count_newline_date, !count_newline_field
    by assumption.
  reflexivity.
Qed.

Lemma parse_rows_well_formed (d : date) (html : list Event)
    (out : list Row) :
  parse_rows d html = Some out -> Forall (well_formed_record d) out.
Proof.
  rewrite parse_rows_output. intros [= <-]. apply Forall_forall.
  intros r Hin. apply in_flat_map in Hin. destruct Hin as (t & _ & Hr).
  now apply table_output_well_formed in Hr.
Qed.

(** ** Grids that the scanner gives back unchanged *)

Lemma map_norm_tidy (row : list string) :
  Forall (fun c => tidy c = true) row -> map _norm_space row = row.
Proof.
  induction 1 as [|c row Hc _ IH]; simpl; [reflexivity|].
  now rewrite IH, tidy_fixed.
Qed.

Lemma clean_grid_normal (grid : list (list string)) :
  Forall clean_row grid -> map (map _norm_space) grid = grid.
Proof.
  induction 1 as [|row grid [_ Hrow] _ IH]; simpl; [reflexivity|].
  now rewrite IH, map_norm_tidy.
Qed.

Lemma clean_grid_kept (grid : list (list string)) :
  Forall clean_row grid -> kept_rows grid = grid.
Proof.
  induction 1 as [|row grid [Hk _] _ IH]; simpl; [reflexivity|].
  rewrite Hk. f_equal. exact IH.
Qed.

Lemma doc_of_outside (pre es : list Event)
    (ts : list (list (list string))) :
  Forall outside pre -> doc_of es ts -> doc_of (pre ++ es) ts.
Proof.
  induction 1 as [|e pre He _ IH]; intros Hd; [exact Hd|].
  simpl. apply doc_skip; [exact He | now apply IH].
Qed.

Lemma doc_of_outside_only (post : list Event) :
  Forall outside post -> doc_of post [].
Proof.
  intros H. rewrite <- (app_nil_r post).
  apply doc_of_outside; [exact H | constructor].
Qed.

(** ** Line ends *)

Lemma replace_char_count (old new : ascii) (s : string) :
  old <> new -> count_char old (replace_char old new s) = 0.
Proof.
  intros Hne. induction s as [|c r IH]; simpl; [reflexivity|].
  destruct (Ascii.eqb_spec c old) as [E|E].
  - destruct (Ascii.eqb_spec new old) as [E'|_]; [congruence | exact IH].
  - destruct (Ascii.eqb_spec c old) as [E'|_]; [contradiction | exact IH].
Qed.

Lemma replace_char_fixed (old new : ascii) (s : string) :
  count_char old s = 0 -> replace_char old new s = s.
Proof.
  induction s as [|c r IH]; simpl; [reflexivity|].
  destruct (Ascii.eqb c old); [discriminate|]. intros H. now rewrite IH.
Qed.

Lemma replace_crlf_fixed (s : string) :
  count_char (ascii_of_nat 13) s = 0 -> replace_crlf s = s.
Proof.
  induction s as [|c r IH]; [reflexivity|].
  cbn [count_char]. destruct (Ascii.eqb c (ascii_of_nat 13)) eqn:E;
    [discriminate|].
  intros H. cbn [replace_crlf]. rewrite E.
  destruct r as [|c' r']; [reflexivity|]. cbn [andb].
  now rewrite IH.
Qed.

Lemma translate_newlines_count (s : string) :
  count_char (ascii_of_nat 13) (translate_newlines s) = 0.
Proof. apply replace_char_count. discriminate. Qed.

Lemma translate_newlines_idem (s : string) :
  translate_newlines (translate_newlines s) = translate_newlines s.
Proof.
  unfold translate_newlines at 1.
  rewrite replace_crlf_fixed by apply translate_newlines_count.
  apply replace_char_fixed, translate_newlines_count.
Qed.

(** ** The attempts of [fetch_html] *)

Lemma range_attempts (retries : Z) :
  range 1 (retries + 1) = attempt_numbers 1 (Z.to_nat retries).
Proof.
  unfold range, attempt_numbers.
  replace (retries + 1 - 1)%Z with retries by lia.
  rewrite <- seq_shift, map_map. apply map_ext. intros k. lia.
Qed.

Lemma attempt_body_fails (url : string) (cache_path : option string)
    (w : World) :
  attempt_fails (curl w url (runs w)) = true ->
  attempt_body url cache_path w
  = (mk_World (files w) (curl w) (S (runs w)) (sleeps w) (stderr w),
     Error (attempt_error (curl w url (runs w)))).
Proof.
  unfold attempt_body, run_curl, attempt_fails, attempt_error.
  destruct (curl w url (runs w)) as [rc out err|e]; [|reflexivity].
  intros ->. reflexivity.
Qed.

Lemma attempt_body_succeeds (url : string) (cache_path : option string)
    (w : World) (out err : string) :
  curl w url (runs w) = Completed 0 out err ->
  attempt_body url cache_path w
  = (match cache_path with
     | Some path =>
         write_text
           (mk_World (files w) (curl w) (S (runs w)) (sleeps w) (stderr w))
           path (translate_newlines out)
     | None =>
         mk_World (files w) (curl w) (S (runs w)) (sleeps w) (stderr w)
     end,
     Ok (translate_newlines out)).
Proof.
  unfold attempt_body, run_curl. intros ->. simpl.
  now destruct cache_path.
Qed.

Lemma attempts_loop_all_fail (url : string) (cache_path : option string)
    (retries : Z) (m : nat) :
  forall a last_err w,
    (1 <= m -> retries = Z.of_nat (a + m - 1)) ->
    (forall j, j < m -> attempt_fails (curl w url (runs w + j)) = true) ->
    attempts_loop url cache_path retries (attempt_numbers a m) last_err w
    = (mk_World (files w) (curl w) (runs w + m)
         (sleeps w ++ attempt_numbers a (m - 1)) (stderr w),
       failed_to_fetch url
         (match m with
          | O => last_err
          | S k => Some (attempt_error (curl w url (runs w + k)))
          end)).
Proof.
  induction m as [|m IH]; intros a last_err w Hr Hfail.
  - simpl. rewrite Nat.add_0_r, app_nil_r. now destruct w.
  - unfold attempt_numbers. simpl. fold (attempt_numbers (S a) m).
    rewrite attempt_body_fails
      by (rewrite <- (Nat.add_0_r (runs w)); apply Hfail; lia).
    destruct m as [|m'].
    + rewrite (proj2 (Z.ltb_ge _ _)) by (rewrite Hr; lia).
      simpl. rewrite Nat.add_0_r, Nat.add_1_r, app_nil_r. reflexivity.
    + rewrite (proj2 (Z.ltb_lt _ _)) by (rewrite Hr; lia).
      rewrite IH.
      * unfold sleep. simpl.
        replace (S (runs w + S m')) with (runs w + S (S m')) by lia.
        replace (S (runs w + m')) with (runs w + S m') by lia.
        rewrite Nat.sub_0_r, <- app_assoc. reflexivity.
      * intros _. rewrite Hr by lia. lia.
      * intros j Hj. unfold sleep. simpl.
        replace (S (runs w + j)) with (runs w + S j) by lia.
        apply Hfail. lia.
Qed.

Lemma attempts_loop_first_success (url : string)
    (cache_path : option string) (retries : Z) (k : nat)
    (out err : string) :
  forall m a last_err w,
    k < m -> retries = Z.of_nat (a + m - 1) ->
    (forall j, j < k -> attempt_fails (curl w url (runs w + j)) = true) ->
    curl w url (runs w + k) = Completed 0 out err ->
    attempts_loop url cache_path retries (attempt_numbers a m) last_err w
    = (match cache_path with
       | Some path =>
           write_text
             (mk_World (files w) (curl w) (runs w + k + 1)
                (sleeps w ++ attempt_numbers a k) (stderr w))
             path (translate_newlines out)
       | None =>
           mk_World (files w) (curl w) (runs w + k + 1)
             (sleeps w ++ attempt_numbers a k) (stderr w)
       end,
       Ok (translate_newlines out)).
Proof.
  induction k as [|k IH]; intros m a last_err w Hk Hr Hfail Hok.
  - destruct m as [|m]; [lia|].
    unfold attempt_numbers. simpl. fold (attempt_numbers (S a) m).
    rewrite Nat.add_0_r in Hok.
    rewrite (attempt_body_succeeds url cache_path w out err Hok).
    rewrite Nat.add_0_r, Nat.add_1_r, app_nil_r. reflexivity.
  - destruct m as [|m]; [lia|].
    unfold attempt_numbers. simpl. fold (attempt_numbers (S a) m).
    rewrite attempt_body_fails
      by (rewrite <- (Nat.add_0_r (runs w)); apply Hfail; lia).
    rewrite (proj2 (Z.ltb_lt _ _)) by (rewrite Hr; lia).
    rewrite (IH m (S a)); unfold sleep; simpl.
    + replace (S (runs w + k + 1)) with (runs w + S k + 1) by lia.
      rewrite <- !app_assoc.
      change ([Z.of_nat a] ++ attempt_numbers (S a) k)
        with (attempt_numbers a (S k)).
      reflexivity.
    + lia.
    + rewrite Hr. lia.
    + intros j Hj. replace (S (runs w + j)) with (runs w + S j) by lia.
      apply Hfail. lia.
    + replace (S (runs w + k)) with (runs w + S k) by lia. exact Hok.
Qed.

(** ** What [fetch_html] changes in the world *)

Lemma attempt_body_frame (url : string) (cache_path : option string)
    (w w1 : World) (r : Result) :
  attempt_body url cache_path w = (w1, r) ->
  curl w1 = curl w /\ stderr w1 = stderr w /\ runs w1 = S (runs w)
  /\ sleeps w1 = sleeps w
  /\ match r with
     | Error _ => files w1 = files w
     | Ok h =>
         translate_newlines h = h
         /\ match cache_path with
            | Some path =>
                files w1
                = (fun p => if String.eqb p path then Some h else files w p)
            | None => files w1 = files w
            end
     end.
Proof.
  unfold attempt_body, run_curl.
  destruct (curl w url (runs w)) as [rc out err|e].
  - destruct (negb (rc =? 0)%Z).
    + intros [= <- <-]. simpl. auto.
    + destruct cache_path as [path|]; intros [= <- <-]; simpl;
        repeat split; auto using translate_newlines_idem.
  - intros [= <- <-]. simpl. auto.
Qed.

Lemma attempts_loop_frame (url : string) (cache_path : option string)
    (retries : Z) (attempts : list Z) :
  forall last_err w w' res,
    attempts_loop url cache_path retries attempts last_err w = (w', res) ->
    curl w' = curl w /\ stderr w' = stderr w /\ runs w <= runs w'
    /\ match res with
       | Error _ => files w' = files w
       | Ok h =>
           translate_newlines h = h
           /\ match cache_path with
              | Some path =>
                  files w'
                  = (fun p => if String.eqb p path then Some h
                              else files w p)
              | None => files w' = files w
              end
       end.
Proof.
  induction attempts as [|attempt rest IH]; intros last_err w w' res.
  - simpl. intros [= <- <-]. simpl. auto.
  - simpl. destruct (attempt_body url cache_path w) as [w1 r] eqn:Eb.
    apply attempt_body_frame in Eb.
    destruct Eb as (Hc & He & Hr & Hs & Hf).
    destruct r as [h|e].
    + intros [= <- <-]. repeat split; auto; try lia; apply Hf.
    + destruct (attempt <? retries)%Z.
      * intros Hl. apply IH in Hl. unfold sleep in Hl. simpl in Hl.
        destruct Hl as (Hc' & He' & Hr' & Hf').
        rewrite Hf in Hf'.
        split; [congruence|]. split; [congruence|]. split; [lia|].
        exact Hf'.
      * intros [= <- <-]. simpl. repeat split; auto; lia.
Qed.

Lemma fetch_html_hit (url path : string) (retries : Z) (w : World)
    (content : string) :
  files w path = Some content ->
  fetch_html url (Some path) retries w = (w, Ok (read_text content)).
Proof. intros H. unfold fetch_html. now rewrite H. Qed.

Lemma fetch_html_frame (url : string) (cache_path : option string)
    (retries : Z) (w w' : World) (res : Result) :
  fetch_html url cache_path retries w = (w', res) ->
  curl w' = curl w /\ stderr w' = stderr w /\ runs w <= runs w'
  /\ files_kept w w'.
Proof.
  unfold fetch_html, files_kept.
  destruct cache_path as [path|].
  - destruct (files w path) as [content|] eqn:Ef.
    + intros [= <- <-]. auto.
    + intros Hl. apply attempts_loop_frame in Hl.
      destruct Hl as (Hc & He & Hr & Hf). repeat split; auto.
      intros p c Hp. destruct res as [h|e]; [|now rewrite Hf].
      destruct Hf as [_ ->].
      destruct (String.eqb_spec p path) as [->|_]; congruence.
  - intros Hl. apply attempts_loop_frame in Hl.
    destruct Hl as (Hc & He & Hr & Hf). repeat split; auto.
    intros p c Hp. destruct res as [h|e]; [|now rewrite Hf].
    destruct Hf as [_ ->]. exact Hp.
Qed.

Lemma fetch_html_ok_cached (url path : string) (retries : Z)
    (w w' : World) (h : string) :
  fetch_html url (Some path) retries w = (w', Ok h) ->
  exists content, files w' path = Some content /\ read_text content = h.
Proof.
  unfold fetch_html.
  destruct (files w path) as [content|] eqn:Ef.
  - intros [= <- <-]. now exists content.
  - intros Hl. apply attempts_loop_frame in Hl.
    destruct Hl as (_ & _ & _ & Ht & ->).
    exists h. rewrite String.eqb_refl. now split.
Qed.

Lemma fetch_html_error_files (url : string) (cache_path : option string)
    (retries : Z) (w w' : World) (e : string) :
  fetch_html url cache_path retries w = (w', Error e) ->
  files w' = files w.
Proof.
  unfold fetch_html. destruct cache_path as [path|].
  - destruct (files w path); [discriminate|].
    intros Hl. now apply attempts_loop_frame in Hl.
  - intros Hl. now apply attempts_loop_frame in Hl.
Qed.

(** ** The driver on the world *)

Section Driver.

Variable tokenize : string -> list Event.

Lemma warnings_log_warn (w : World) (d : date) (e : string) :
  warnings (log w (WARN d e)) = S (warnings w).
Proof.
  unfold warnings, log. simpl. rewrite filter_app, length_app. simpl. lia.
Qed.

Lemma warnings_log_info (w : World) (i n : nat) :
  warnings (log w (INFO i n)) = warnings w.
Proof.
  unfold warnings, log. simpl. rewrite filter_app, length_app. simpl. lia.
Qed.

Lemma files_kept_refl (w : World) : files_kept w w.
Proof. now intros p c. Qed.

Lemma files_kept_trans (w1 w2 w3 : World) :
  files_kept w1 w2 -> files_kept w2 w3 -> files_kept w1 w3.
Proof. intros H12 H23 p c Hp. now apply H23, H12. Qed.

Lemma day_body_frame (cache_dir : option string) (d : date)
    (w w' : World) (r : list string * nat + string) :
  day_body tokenize cache_dir d w = (w', r) ->
  curl w' = curl w /\ stderr w' = stderr w /\ runs w <= runs w'
  /\ files_kept w w'
  /\ match r with
     | inl (lines, n) => n = List.length lines
     | inr _ => True
     end.
Proof.
  unfold day_body.
  destruct (fetch_html (url_for_day d) (cache_file cache_dir d) 5 w)
    as [w1 res] eqn:Ef.
  apply fetch_html_frame in Ef. destruct Ef as (Hc & He & Hr & Hf).
  destruct res as [h|e].
  - destruct (parse_rows d (tokenize h)) as [rows|]; intros [= <- <-];
      repeat split; auto.
    now rewrite length_map.
  - intros [= <- <-]. repeat split; auto.
Qed.

(** The world after one day of the loop, with the lines added and their
    number. *)
Lemma main_days_cons (cache_dir : option string) (i : nat) (d : date)
    (rest : list (nat * date)) (w : World) (f : list string) (n : nat) :
  exists w1 lines,
    main_days tokenize cache_dir ((i, d) :: rest) w f n
    = main_days tokenize cache_dir rest w1 (f ++ lines)
        (n + List.length lines)
    /\ curl w1 = curl w /\ runs w <= runs w1 /\ files_kept w w1
    /\ warnings w <= warnings w1
    /\ (lines <> [] -> warnings w1 = warnings w).
Proof.
  cbn [main_days].
  destruct (day_body tokenize cache_dir d w) as [w1 r] eqn:Ed.
  apply day_body_frame in Ed. destruct Ed as (Hc & He & Hr & Hf & Hn).
  assert (Hw : warnings w1 = warnings w) by (unfold warnings; now rewrite He).
  destruct r as [[lines k]|e].
  - subst k. destruct (i mod 10 =? 0)%nat.
    + exists (log w1 (INFO i (n + List.length lines))), lines.
      rewrite warnings_log_info.
      split; [reflexivity|]. split; [exact Hc|]. split; [exact Hr|].
      split; [exact Hf|]. split; [lia | intros _; exact Hw].
    + exists w1, lines.
      split; [reflexivity|]. split; [exact Hc|]. split; [exact Hr|].
      split; [exact Hf|]. split; [lia | intros _; exact Hw].
  - destruct (i mod 10 =? 0)%nat.
    + exists (log (log w1 (WARN d e)) (INFO i n)), [].
      rewrite warnings_log_info, warnings_log_warn, app_nil_r, Nat.add_0_r.
      split; [reflexivity|]. split; [exact Hc|]. split; [exact Hr|].
      split; [exact Hf|]. split; [lia | intros H; now elim H].
    + exists (log w1 (WARN d e)), [].
      rewrite warnings_log_warn, app_nil_r, Nat.add_0_r.
      split; [reflexivity|]. split; [exact Hc|]. split; [exact Hr|].
      split; [exact Hf|]. split; [lia | intros H; now elim H].
Qed.

Lemma main_days_frame (cache_dir : option string)
    (days : list (nat * date)) :
  forall w f n w' f' n',
    main_days tokenize cache_dir days w f n = (w', f', n') ->
    curl w' = curl w /\ runs w <= runs w' /\ files_kept w w'
    /\ warnings w <= warnings w'
    /\ exists lines, f' = f ++ lines /\ n' = n + List.length lines.
Proof.
  induction days as [|[i d] rest IH]; intros w f n w' f' n'.
  - simpl. intros [= <- <- <-]. repeat split; auto using files_kept_refl.
    exists []. now rewrite app_nil_r, Nat.add_0_r.
  - destruct (main_days_cons cache_dir i d rest w f n)
      as (w1 & lines & E & Hc & Hr & Hf & Hw & _).
    rewrite E. intros Hm. apply IH in Hm.
    destruct Hm as (Hc' & Hr' & Hf' & Hw' & lines' & -> & ->).
    split; [congruence|]. split; [lia|].
    split; [now apply (files_kept_trans w w1 w')|]. split; [lia|].
    exists (lines ++ lines'). rewrite length_app, app_assoc.
    split; [reflexivity | lia].
Qed.

Lemma warnings_log_done (w : World) (n : nat) :
  warnings (log w (DONE n)) = warnings w.
Proof.
  unfold warnings, log. simpl. rewrite filter_app, length_app. simpl. lia.
Qed.

Lemma day_body_rerun (dir : string) (d : date) (w w1 : World)
    (lines : list string) (k : nat) :
  day_body tokenize (Some dir) d w = (w1, inl (lines, k)) ->
  forall w2, files_kept w1 w2 ->
             day_body tokenize (Some dir) d w2 = (w2, inl (lines, k)).
Proof.
  unfold day_body. simpl cache_file.
  destruct (fetch_html (url_for_day d) _ 5 w) as [wa res] eqn:Ef.
  destruct res as [h|e]; [|discriminate].
  destruct (parse_rows d (tokenize h)) as [rows|] eqn:Ep; [|discriminate].
  intros [= <- <- <-] w2 Hk.
  apply fetch_html_ok_cached in Ef. destruct Ef as (c & Hc & Hh).
  rewrite (fetch_html_hit _ _ _ w2 c (Hk _ _ Hc)). rewrite Hh, Ep.
  reflexivity.
Qed.

Lemma main_days_rerun (dir : string) (days : list (nat * date)) :
  forall w f n w1 f1 n1,
    main_days tokenize (Some dir) days w f n = (w1, f1, n1) ->
    warnings w1 = warnings w ->
    forall w2,
      files_kept w1 w2 ->
      exists w2',
        main_days tokenize (Some dir) days w2 f n = (w2', f1, n1)
        /\ files w2' = files w2 /\ runs w2' = runs w2
        /\ sleeps w2' = sleeps w2 /\ warnings w2' = warnings w2.
Proof.
  induction days as [|[i d] rest IH]; intros w f n w1 f1 n1.
  - simpl. intros [= <- <- <-] _ w2 _. now exists w2.
  - cbn [main_days].
    destruct (day_body tokenize (Some dir) d w) as [wa r] eqn:Ed.
    pose proof (day_body_frame _ _ _ _ _ Ed) as (_ & He & _ & _ & _).
    assert (Hwa : warnings wa = warnings w)
      by (unfold warnings; now rewrite He).
    destruct r as [[lines k]|e].
    + intros Hm Hw w2 Hk.
      pose proof (main_days_frame _ _ _ _ _ _ _ _ Hm)
        as (_ & _ & Hf & _ & _).
      assert (Hka : files_kept wa w2).
      { apply (files_kept_trans wa w1 w2); [|exact Hk].
        destruct (i mod 10 =? 0)%nat; exact Hf. }
      rewrite (day_body_rerun dir d w wa lines k Ed w2 Hka).
      destruct (IH _ _ _ _ _ _ Hm) with
        (w2 := if (i mod 10 =? 0)%nat then log w2 (INFO i (n + k)) else w2)
        as (w2' & E & H1 & H2 & H3 & H4).
      * rewrite Hw, <- Hwa.
        destruct (i mod 10 =? 0)%nat;
          [symmetry; apply warnings_log_info | reflexivity].
      * destruct (i mod 10 =? 0)%nat; exact Hk.
      * exists w2'. split; [exact E|].
        destruct (i mod 10 =? 0)%nat;
          rewrite ?warnings_log_info in H4; auto.
    + intros Hm Hw. exfalso.
      pose proof (main_days_frame _ _ _ _ _ _ _ _ Hm)
        as (_ & _ & _ & Hle & _).
      destruct (i mod 10 =? 0)%nat;
        rewrite ?warnings_log_info, warnings_log_warn in Hle; lia.
Qed.

Lemma main_days_as_main_loop (cache_dir : option string)
    (days : list (nat * date)) :
  forall w f n,
    exists pages,
      map fst pages = map snd days
      /\ Forall (fun p => snd p = None
                          \/ exists html, snd p = Some (tokenize html)) pages
      /\ (let '(_, f', n') := main_days tokenize cache_dir days w f n in
          (f', n'))
         = main_loop pages f n.
Proof.
  induction days as [|[i d] rest IH]; intros w f n.
  - exists []. split; [reflexivity|]. split; [constructor | reflexivity].
  - cbn [main_days]. unfold day_body.
    destruct (fetch_html (url_for_day d) (cache_file cache_dir d) 5 w)
      as [wa res].
    destruct res as [h|e].
    + destruct (parse_rows d (tokenize h)) as [rows|] eqn:Ep.
      * destruct (IH (if (i mod 10 =? 0)%nat
                      then log wa (INFO i (n + List.length rows)) else wa)
                    (f ++ map (fun r => (to_psv r ++ newline)%string) rows)
                    (n + List.length rows))
          as (pages & Hp & Hall & E).
        exists ((d, Some (tokenize h)) :: pages).
        split; [simpl; now rewrite Hp|].
        split; [constructor; [right; now exists h | exact Hall]|].
        simpl. now rewrite Ep.
      * destruct (IH (if (i mod 10 =? 0)%nat
                      then log (log wa (WARN d "list index out of range"))
                             (INFO i n)
                      else log wa (WARN d "list index out of range")) f n)
          as (pages & Hp & Hall & E).
        exists ((d, Some (tokenize h)) :: pages).
        split; [simpl; now rewrite Hp|].
        split; [constructor; [right; now exists h | exact Hall]|].
        simpl. now rewrite Ep.
    + destruct (IH (if (i mod 10 =? 0)%nat
                    then log (log wa (WARN d e)) (INFO i n)
                    else log wa (WARN d e)) f n)
        as (pages & Hp & Hall & E).
      exists ((d, None) :: pages).
      split; [simpl; now rewrite Hp|].
      split; [constructor; [now left | exact Hall] | exact E].
Qed.

End Driver.

(** ** The number of runs and pauses of [fetch_html] *)

Lemma attempt_succeeds (o : Outcome) :
  attempt_fails o = false -> exists out err, o = Completed 0 out err.
Proof.
  destruct o as [rc out err|e]; simpl; [|discriminate].
  intros H. apply negb_false_iff, Z.eqb_eq in H. subst rc.
  now exists out, err.
Qed.

Lemma first_success_or_all_fail (o : nat -> Outcome) (n : nat) :
  (forall j, j < n -> attempt_fails (o j) = true)
  \/ exists k, k < n /\ (forall j, j < k -> attempt_fails (o j) = true)
               /\ attempt_fails (o k) = false.
Proof.
  induction n as [|n [IH|(k & Hk & Hj & Hs)]].
  - left. intros j Hj. lia.
  - destruct (attempt_fails (o n)) eqn:E.
    + left. intros j Hj. destruct (Nat.eq_dec j n) as [->|Hne]; [exact E|].
      apply IH. lia.
    + right. exists n. split; [lia|]. split; [|exact E].
      intros j Hj. now apply IH.
  - right. exists k. split; [lia|]. now split.
Qed.

Lemma attempts_of_fetch (url : string) (cache_path : option string)
    (retries : Z) (w w' : World) (res : Result) :
  attempts_loop url cache_path retries (range 1 (retries + 1)) None w
  = (w', res) ->
  exists r,
    r <= Z.to_nat retries /\ runs w' = runs w + r
    /\ sleeps w' = sleeps w ++ attempt_numbers 1 (r - 1)
    /\ match res with
       | Ok _ => 1 <= r
       | Error _ => r = Z.to_nat retries
       end.
Proof.
  rewrite range_attempts.
  destruct (first_success_or_all_fail
              (fun j => curl w url (runs w + j)) (Z.to_nat retries))
    as [Hall|(k & Hk & Hj & Hs)].
  - rewrite (attempts_loop_all_fail url cache_path retries
               (Z.to_nat retries) 1 None w); [|lia|exact Hall].
    intros [= <- <-]. exists (Z.to_nat retries). simpl. auto.
  - apply attempt_succeeds in Hs. destruct Hs as (out & err & Hs).
    rewrite (attempts_loop_first_success url cache_path retries k out err
               (Z.to_nat retries) 1 None w); [|exact Hk|lia|exact Hj|exact Hs].
    intros [= <- <-]. exists (k + 1).
    replace (k + 1 - 1) with k by lia.
    destruct cache_path; simpl; repeat split; lia.
Qed.


(** ** The days that the loop yields *)

Lemma dates_loop_more_fuel (k : nat) :
  forall d end_ l j,
    dates_loop k d end_ = Some l -> dates_loop (k + j) d end_ = Some l.
Proof.
  induction k as [|k IH]; intros d end_ l j; [discriminate|].
  simpl. destruct (date_leb d end_); [|auto].
  destruct (next_day d) as [d'|]; [|discriminate].
  destruct (dates_loop k d' end_) as [rest|] eqn:E; [|discriminate].
  intros [= <-]. now rewrite (IH d' end_ rest j E).
Qed.

Lemma iter_dates_1999_366 : iter_dates_1999 366 = Some days_of_1999.
Proof. vm_compute. reflexivity. Qed.

Lemma iter_dates_1999_365 : iter_dates_1999 365 = None.
Proof. vm_compute. reflexivity. Qed.

(** ** Addresses and cache files *)

Lemma string_length_append (a b : string) :
  String.length (a ++ b) = String.length a + String.length b.
Proof. induction a as [|c a IH]; simpl; [reflexivity | now rewrite IH]. Qed.

Lemma append_inj_length (a a' x x' : string) :
  String.length a = String.length a' ->
  (a ++ x)%string = (a' ++ x')%string -> a = a' /\ x = x'.
Proof.
  revert a'. induction a as [|c a IH]; intros [|c' a']; simpl;
    try discriminate.
  - auto.
  - intros [= Hl] [= -> H]. destruct (IH a' Hl H) as [-> ->]. auto.
Qed.

Lemma padded_ok (width bound : nat) (n : N) :
  padded_numbers_ok width bound = true ->
  (n < N.of_nat bound)%N ->
  String.length (zfill width (str_of_int n)) = width
  /\ digits_value (zfill width (str_of_int n)) = n.
Proof.
  intros Hok Hn. unfold padded_numbers_ok in Hok.
  rewrite forallb_forall in Hok.
  specialize (Hok (N.to_nat n)). rewrite N2Nat.id in Hok.
  assert (Hin : In (N.to_nat n) (seq 0 bound)) by (apply in_seq; lia).
  apply Hok in Hin. apply andb_true_iff in Hin. destruct Hin as [Hl Hv].
  apply Nat.eqb_eq in Hl. apply N.eqb_eq in Hv. now split.
Qed.

Lemma padded_2_ok : padded_numbers_ok 2 100 = true.
Proof. vm_compute. reflexivity. Qed.

Lemma padded_4_ok : padded_numbers_ok 4 (100 * 100) = true.
Proof. vm_compute. reflexivity. Qed.

Lemma strftime_Ymd_length (d : date) :
  four_digit_year d -> String.length (strftime_Ymd d) = 8.
Proof.
  intros ([_ Hy] & Hm & Hd). unfold strftime_Ymd.
  rewrite !string_length_append.
  rewrite (proj1 (padded_ok 4 (100 * 100) (year d) padded_4_ok Hy)).
  rewrite (proj1 (padded_ok 2 100 (month d) padded_2_ok Hm)).
  now rewrite (proj1 (padded_ok 2 100 (day d) padded_2_ok Hd)).
Qed.

Lemma strftime_Ymd_inj (d1 d2 : date) :
  four_digit_year d1 -> four_digit_year d2 ->
  strftime_Ymd d1 = strftime_Ymd d2 -> d1 = d2.
Proof.
  intros ([_ Hy1] & Hm1 & Hd1) ([_ Hy2] & Hm2 & Hd2). unfold strftime_Ymd.
  destruct (padded_ok 4 (100 * 100) _ padded_4_ok Hy1) as [Ly1 Vy1].
  destruct (padded_ok 4 (100 * 100) _ padded_4_ok Hy2) as [Ly2 Vy2].
  destruct (padded_ok 2 100 _ padded_2_ok Hm1) as [Lm1 Vm1].
  destruct (padded_ok 2 100 _ padded_2_ok Hm2) as [Lm2 Vm2].
  destruct (padded_ok 2 100 _ padded_2_ok Hd1) as [Ld1 Vd1].
  destruct (padded_ok 2 100 _ padded_2_ok Hd2) as [Ld2 Vd2].
  intros H. apply append_inj_length in H; [|congruence].
  destruct H as [Ey H]. apply append_inj_length in H; [|congruence].
  destruct H as [Em Ed].
  rewrite Ey in Vy1. rewrite Em in Vm1. rewrite Ed in Vd1.
  destruct d1 as [y1 m1 dd1], d2 as [y2 m2 dd2]. simpl in *. congruence.
Qed.

(** ** The whole run *)

Lemma iter_dates_1999_enough (fuel : nat) :
  366 <= fuel -> iter_dates_1999 fuel = Some days_of_1999.
Proof.
  intros H. replace fuel with (366 + (fuel - 366)) by lia.
  apply dates_loop_more_fuel, iter_dates_1999_366.
Qed.

Lemma iter_dates_1999_short (fuel : nat) :
  fuel <= 365 -> iter_dates_1999 fuel = None.
Proof.
  intros H. destruct (iter_dates_1999 fuel) as [l|] eqn:E; [|reflexivity].
  apply (dates_loop_more_fuel fuel _ _ l (365 - fuel)) in E.
  replace (fuel + (365 - fuel)) with 365 in E by lia.
  change (iter_dates_1999 365 = Some l) in E.
  rewrite iter_dates_1999_365 in E. discriminate.
Qed.

Lemma fetch_html_runs (url : string) (cache_path : option string)
    (retries : Z) (w w' : World) (res : Result) :
  fetch_html url cache_path retries w = (w', res) ->
  exists r,
    r <= Z.to_nat retries /\ runs w' = runs w + r
    /\ sleeps w' = sleeps w ++ attempt_numbers 1 (r - 1).
Proof.
  unfold fetch_html. destruct cache_path as [path|].
  - destruct (files w path) as [content|].
    + intros [= <- <-]. exists 0. simpl.
      rewrite app_nil_r, Nat.add_0_r. repeat split; lia.
    + intros H. apply attempts_of_fetch in H.
      destruct H as (r & H1 & H2 & H3 & _). now exists r.
  - intros H. apply attempts_of_fetch in H.
    destruct H as (r & H1 & H2 & H3 & _). now exists r.
Qed.

Lemma main_days_runs (tokenize : string -> list Event)
    (cache_dir : option string) (days : list (nat * date)) :
  forall w f n w' f' n',
    main_days tokenize cache_dir days w f n = (w', f', n') ->
    runs w' <= runs w + 5 * List.length days.
Proof.
  induction days as [|[i d] rest IH]; intros w f n w' f' n'.
  - simpl. intros [= <- <- <-]. lia.
  - cbn [main_days]. unfold day_body.
    destruct (fetch_html (url_for_day d) (cache_file cache_dir d) 5 w)
      as [wa res] eqn:Ef.
    apply fetch_html_runs in Ef. destruct Ef as (r & Hr & Hruns & _).
    assert (Hwa : runs wa <= runs w + 5) by lia.
    destruct res as [h|e];
      [destruct (parse_rows d (tokenize h)) as [rows|]|];
      destruct (i mod 10 =? 0)%nat; intros Hm; apply IH in Hm;
      simpl in Hm |- *; lia.
Qed.

(** ** The driver and the fetches it makes *)





Lemma warning_lines_app (l1 l2 : list LogLine) :
  warning_lines (l1 ++ l2) = warning_lines l1 + warning_lines l2.
Proof. unfold warning_lines. now rewrite filter_app, length_app. Qed.






(** * Further verified properties *)

(** ** Text normalisation and serialisation *)

(** X1. [_norm_space] returns a text in normal form (words separated by
    single plain spaces, nothing at either end), it is idempotent, and the
    texts it leaves unchanged are exactly those in normal form. *)
Theorem X1_norm_space_normal_form (s : string) :
  tidy (_norm_space s) = true
  /\ _norm_space (_norm_space s) = _norm_space s
  /\ (tidy s = true <-> _norm_space s = s).
Proof.
  split; [apply norm_space_tidy|]. split.
  - apply tidy_fixed, norm_space_tidy.
  - split; [apply tidy_fixed|]. intros <-. apply norm_space_tidy.
Qed.

(** X2. [_norm_space] returns the empty text exactly for the texts that
    hold white space only, the empty text among them. *)
Theorem X2_norm_space_empty_iff_blank (s : string) :
  _norm_space s = "" <-> blank s = true.
Proof. apply norm_space_blank. Qed.

(** X3. [_norm_space] keeps the words of a text: it changes the white
    space between them only. *)
Theorem X3_norm_space_keeps_words (s : string) :
  words (_norm_space s) = words s.
Proof. apply words_norm_space. Qed.

(** X4. A line written by [to_psv] splits at ["|"] into exactly four
    pieces, the date and the three serialised fields, so a reader gets the
    fields back; and serialising a serialised field changes nothing. *)
Theorem X4_psv_line_splits_back (r : Row) :
  split_on "|" (to_psv r)
  = [date_text (report_date r); _safe_psv_field (unit r);
     _safe_psv_field (power r); _safe_psv_field (reason r)]
  /\ forall s, _safe_psv_field (_safe_psv_field s) = _safe_psv_field s.
Proof.
  split; [|apply safe_psv_field_idem].
  unfold to_psv. fold (date_text (report_date r)).
  change (split_on "|"
            (date_text (report_date r)
             ++ String "|" (_safe_psv_field (unit r)
             ++ String "|" (_safe_psv_field (power r)
             ++ String "|" (_safe_psv_field (reason r)))))%string
          = [date_text (report_date r); _safe_psv_field (unit r);
             _safe_psv_field (power r); _safe_psv_field (reason r)]).
  rewrite split_on_app by apply count_pipes_date.
  rewrite !split_on_app by apply count_pipes_safe_field.
  now rewrite split_on_none by apply count_pipes_safe_field.
Qed.

(** X5. Every record that [parse_rows] returns carries the caller's date,
    has a unit that is neither empty nor the word ["unit"] in any case,
    and has its three fields in normal form. *)
Theorem X5_records_well_formed (report_date : date) (html : list Event)
    (out : list Row) :
  parse_rows report_date html = Some out ->
  Forall (well_formed_record report_date) out.
Proof. apply parse_rows_well_formed. Qed.

(** X5 on a table with a repeated header row and a blank unit. *)
Lemma X5_witness :
  let out := [mk_Row (mk_date 1999 3 15) "Salem 1" "100" "None"] in
  parse_rows (mk_date 1999 3 15)
    (table_events [["Unit"; "Power"; "Reason or Comment"];
                   ["unit"; "power"; "x"]; [" "; "3"; "y"];
                   [" Salem  1"; "100"; "None"]])
  = Some out
  /\ Forall (well_formed_record (mk_date 1999 3 15)) out.
Proof.
  intros out.
  assert (H : parse_rows (mk_date 1999 3 15)
                (table_events [["Unit"; "Power"; "Reason or Comment"];
                               ["unit"; "power"; "x"]; [" "; "3"; "y"];
                               [" Salem  1"; "100"; "None"]])
              = Some out) by reflexivity.
  split; [exact H|].
  exact (X5_records_well_formed _ _ _ H).
Defined.

(** X6. The line of every record that [parse_rows] returns holds no
    newline, so the string that the driver writes for it, the line and a
    newline, is exactly one line of the output file. *)
Theorem X6_one_record_per_line (report_date : date) (html : list Event)
    (out : list Row) :
  parse_rows report_date html = Some out ->
  Forall (fun r =>
            count_char (ascii_of_nat 10) (to_psv r) = 0
            /\ count_char (ascii_of_nat 10) (to_psv r ++ newline)%string = 1)
         out.
Proof.
  intros H. apply parse_rows_well_formed in H.
  eapply Forall_impl; [|exact H].
  intros r (_ & _ & _ & Hu & Hp & Hr).
  assert (E : count_char (ascii_of_nat 10) (to_psv r) = 0)
    by now apply count_newline_line.
  split; [exact E|]. rewrite count_char_app, E. reflexivity.
Qed.

(** X6 on a cell that holds a newline. *)
Lemma X6_witness :
  let out := [mk_Row (mk_date 1999 3 15) "Salem 1" "100" "Refueling outage"]
  in
  parse_rows (mk_date 1999 3 15)
    (table_events [["Unit"; "Power"; "Reason or Comment"];
                   ["Salem 1"; "100"; "Refueling
outage"]])
  = Some out
  /\ Forall (fun r =>
               count_char (ascii_of_nat 10) (to_psv r) = 0
               /\ count_char (ascii_of_nat 10) (to_psv r ++ newline)%string
                  = 1)
            out.
Proof.
  intros out.
  assert (H : parse_rows (mk_date 1999 3 15)
                (table_events [["Unit"; "Power"; "Reason or Comment"];
                               ["Salem 1"; "100"; "Refueling
outage"]])
              = Some out) by reflexivity.
  split; [exact H|].
  exact (X6_one_record_per_line _ _ _ H).
Defined.

(** ** The scanner on arbitrary input *)

(** X7. Whatever the input, malformed or not, the table depth is never
    negative, and every table in the table list has at least one row,
    every row has a cell that is not blank, and every cell is in normal
    form. *)
Theorem X7_scanner_invariant (html : list Event) :
  (0 <= _in_table (feed new_extractor html))%Z
  /\ Forall clean_table (tables (feed new_extractor html)).
Proof.
  destruct (scan_inv_feed html new_extractor scan_inv_new)
    as (Hn & _ & _ & _ & HT).
  now split.
Qed.

(** X8. A table that is in the table list stays there unchanged: more
    input only adds tables after it. *)
Theorem X8_listed_tables_are_final (html1 html2 : list Event) :
  exists more,
    tables (feed new_extractor (html1 ++ html2))
    = tables (feed new_extractor html1) ++ more.
Proof. rewrite feed_app. apply tables_feed. Qed.

(** X9. The case of tag names is not significant: two inputs that differ
    only in the case of their tag names give the same scanner state and
    the same records. *)
Theorem X9_tag_case_is_ignored (report_date : date)
    (html1 html2 : list Event) :
  Forall2 same_event html1 html2 ->
  feed new_extractor html1 = feed new_extractor html2
  /\ parse_rows report_date html1 = parse_rows report_date html2.
Proof.
  intros H. assert (E := feed_same_events html1 html2 H new_extractor).
  split; [exact E|]. unfold parse_rows. now rewrite E.
Qed.

(** X9 on a table written in upper case and in lower case. *)
Lemma X9_witness :
  let html1 := [starttag "TABLE"; starttag "Tr"; starttag "TD"; data "Unit";
                endtag "Td"; starttag "tH"; data "Power"; endtag "TH";
                endtag "TR"; starttag "tr"; starttag "td"; data "1";
                endtag "td"; starttag "td"; data "9"; starttag "BR";
                endtag "TD"; endtag "tr"; endtag "Table"] in
  let html2 := [starttag "table"; starttag "tr"; starttag "td"; data "Unit";
                endtag "td"; starttag "th"; data "Power"; endtag "th";
                endtag "tr"; starttag "tr"; starttag "td"; data "1";
                endtag "td"; starttag "td"; data "9"; starttag "br";
                endtag "td"; endtag "tr"; endtag "table"] in
  Forall2 same_event html1 html2
  /\ parse_rows (mk_date 1999 3 15) html1
     = parse_rows (mk_date 1999 3 15) html2.
Proof.
  intros html1 html2.
  assert (H : Forall2 same_event html1 html2)
    by (repeat constructor).
  split; [exact H|].
  exact (proj2 (X9_tag_case_is_ignored (mk_date 1999 3 15) html1 html2 H)).
Defined.

(** X10. An input without a table start tag leaves the scanner in its
    initial state, whatever else it holds, and yields no record. *)
Theorem X10_no_table_no_records (report_date : date) (html : list Event) :
  Forall outside html ->
  feed new_extractor html = new_extractor
  /\ parse_rows report_date html = Some [].
Proof.
  intros H. assert (E := feed_outside html H new_extractor eq_refl).
  split; [exact E|]. unfold parse_rows. now rewrite E.
Qed.

(** X10 on rows and cells that stand outside any table. *)
Lemma X10_witness :
  let html := [starttag "html"; endtag "table"; starttag "tr";
               starttag "td"; data "Unit"; endtag "td"; starttag "td";
               data "Power"; endtag "td"; endtag "tr"; endtag "html"] in
  Forall outside html
  /\ parse_rows (mk_date 1999 12 25) html = Some [].
Proof.
  intros html.
  assert (H : Forall outside html)
    by (repeat constructor).
  split; [exact H|].
  exact (proj2 (X10_no_table_no_records (mk_date 1999 12 25) html H)).
Defined.

(** X11. Writing a table out and scanning it gives the table back: for a
    grid with at least one row, whose rows each have a cell that is not
    blank and whose cells are in normal form, the table list of the
    document that holds the grid as its only table is the grid alone. *)
Theorem X11_written_table_read_back
    (pre post : list Event) (grid : list (list string)) :
  Forall outside pre -> Forall outside post -> clean_table grid ->
  tables (feed new_extractor (pre ++ table_events grid ++ post)) = [grid].
Proof.
  intros Hpre Hpost [Hne Hrows].
  rewrite (tables_of_document _ [map (map _norm_space) grid]).
  - simpl. rewrite clean_grid_normal, clean_grid_kept by exact Hrows.
    unfold listed. now destruct grid.
  - apply doc_of_outside; [exact Hpre|].
    apply doc_table; [apply table_of_table_events|].
    now apply doc_of_outside_only.
Qed.

(** X11 on a grid with a ragged row and an empty cell. *)
Lemma X11_witness :
  let grid := [["Unit"; "Power"]; ["Salem 1"; ""; "see note"]] in
  clean_table grid
  /\ tables (feed new_extractor
               ([data "Status"] ++ table_events grid ++ [endtag "body"]))
     = [grid].
Proof.
  intros grid.
  assert (H : clean_table grid).
  { split; [discriminate|]. repeat constructor. }
  split; [exact H|].
  apply (X11_written_table_read_back [data "Status"] [endtag "body"] grid);
    [repeat constructor | repeat constructor | exact H].
Defined.

(** X12. For a document of well-formed tables that are not nested, the
    table list holds the tables in document order, each reduced to its
    rows with a cell that is not blank and left out when none remains,
    and the records are those of the listed tables, in that order. *)
Theorem X12_tables_in_document_order (report_date : date)
    (html : list Event) (ts : list (list (list string))) :
  doc_of html ts ->
  tables (feed new_extractor html) = captured ts
  /\ parse_rows report_date html
     = Some (flat_map (table_output report_date) (captured ts)).
Proof.
  intros Hd. assert (E := tables_of_document html ts Hd).
  split; [exact E|]. rewrite parse_rows_output. now rewrite E.
Qed.

(** X12 on a document with a blank table between two tables. *)
Lemma X12_witness :
  let html := table_events [["Unit"; "Power"]; ["Salem 1"; "100"]]
              ++ table_events [[" "; ""]]
              ++ table_events [["Power"; "Unit"]; ["0"; "Salem 2"]] in
  tables (feed new_extractor html)
  = [[["Unit"; "Power"]; ["Salem 1"; "100"]];
     [["Power"; "Unit"]; ["0"; "Salem 2"]]]
  /\ parse_rows (mk_date 1999 3 15) html
     = Some [mk_Row (mk_date 1999 3 15) "Salem 1" "100" "";
             mk_Row (mk_date 1999 3 15) "Salem 2" "0" ""].
Proof.
  intros html.
  apply (X12_tables_in_document_order (mk_date 1999 3 15) html
           [map (map _norm_space) [["Unit"; "Power"]; ["Salem 1"; "100"]];
            map (map _norm_space) [[" "; ""]];
            map (map _norm_space) [["Power"; "Unit"]; ["0"; "Salem 2"]]]).
  apply doc_table; [apply table_of_table_events|].
  apply doc_table; [apply table_of_table_events|].
  rewrite <- (app_nil_r (table_events _)).
  apply doc_table; [apply table_of_table_events | constructor].
Defined.

(** X13. A table whose end tag is missing is not listed: when the input
    ends inside a table, the rows captured for that table are dropped, and
    the table list holds the tables closed before it only. *)
Theorem X13_unclosed_table_is_dropped
    (pre body : list Event) (t : string)
    (ts : list (list (list string))) (rs : list (list string)) :
  doc_of pre ts -> lower t = "table" -> rows_of body rs ->
  tables (feed new_extractor (pre ++ starttag t :: body)) = captured ts.
Proof.
  intros Hd Ht Hb. unfold new_extractor. rewrite feed_app.
  destruct (feed_doc pre ts Hd false false [] [] [] [])
    as (itr & ic & buf & row & tbl & E).
  rewrite E, feed_cons. simpl dispatch.
  rewrite starttag_table by exact Ht. scan_set.
  change (0 + 1)%Z with 1%Z. change (1 =? 1)%Z with true. scan_set.
  destruct (feed_rows body rs Hb 1%Z itr ic buf row [] (captured ts))
    as (ic1 & buf1 & row1 & E1); [lia|].
  now rewrite E1.
Qed.

(** X13 on a closed table followed by a table that is never closed. *)
Lemma X13_witness :
  tables (feed new_extractor
            (table_events [["Unit"; "Power"]]
             ++ starttag "table" :: row_events ["Salem 1"; "100"]))
  = [[["Unit"; "Power"]]].
Proof.
  apply (X13_unclosed_table_is_dropped
           (table_events [["Unit"; "Power"]])
           (row_events ["Salem 1"; "100"]) "table"
           [map (map _norm_space) [["Unit"; "Power"]]]
           (map (map _norm_space) [["Salem 1"; "100"]])).
  - rewrite <- (app_nil_r (table_events _)).
    apply doc_table; [apply table_of_table_events | constructor].
  - reflexivity.
  - apply (rows_of_row_events [["Salem 1"; "100"]]).
Defined.

(** ** The classifier *)

(** X14. [_find_col_idx] returns the position of the first header that
    satisfies the predicate, and [None] exactly when no header does. *)
Theorem X14_find_col_idx_first_match
    (headers : list string) (pred : string -> bool) :
  (forall i,
     _find_col_idx headers pred = Some i <->
     exists h,
       nth_error headers i = Some h /\ pred h = true
       /\ forall j h', j < i -> nth_error headers j = Some h' ->
                       pred h' = false)
  /\ (_find_col_idx headers pred = None <->
      forall h, In h headers -> pred h = false).
Proof.
  split; [|apply find_col_idx_none].
  intros i. rewrite find_col_idx_some. unfold first_at.
  split; intros (h & H); exists h.
  - destruct H as (_ & Hn & Hp & Hfirst). rewrite Nat.sub_0_r in Hn.
    split; [exact Hn|]. split; [exact Hp|].
    intros j h' Hj Hh'. apply (Hfirst j h'); [lia|].
    now rewrite Nat.sub_0_r.
  - destruct H as (Hn & Hp & Hfirst).
    split; [lia|]. split; [now rewrite Nat.sub_0_r|]. split; [exact Hp|].
    intros j h' Hj Hh'. rewrite Nat.sub_0_r in Hh'.
    apply (Hfirst j h'); [lia | exact Hh'].
Qed.

(** X15. A table only adds records to the output, after those already
    there, and it adds at most one record for each of its rows but one:
    a table without a row after its header row adds nothing. *)
Theorem X15_table_adds_at_most_its_data_rows
    (report_date : date) (table : list (list string)) (out : list Row) :
  exists added,
    table_body report_date table out = Some (out ++ added)
    /\ List.length added <= List.length table - 1.
Proof.
  exists (table_output report_date table).
  split; [apply table_body_output | apply table_output_length].
Qed.

(** X16. The report date is carried into the records and decides nothing:
    the records for another date are the same records with that date. *)
Theorem X16_date_is_only_carried
    (d d' : date) (html : list Event) :
  parse_rows d' html = option_map (map (with_date d')) (parse_rows d html).
Proof.
  rewrite !parse_rows_output. simpl. f_equal.
  induction (tables (feed new_extractor html)) as [|t ts IH];
    [reflexivity|].
  simpl. now rewrite map_app, <- IH, table_output_with_date.
Qed.

(** ** Fetching a page *)

(** X17. Without a cached file, [fetch_html] runs [curl] until the first
    run that returns the code 0: when the first [k] runs fail and the next
    one succeeds within the [retries] allowed, it returns the output of
    that run with line ends translated, has run [curl] [k + 1] times, has
    paused after each failed attempt (attempts 1 to [k]), and has written
    the text to the cache file, when there is one, and nothing else. *)
Theorem X17_fetch_html_first_success
    (url : string) (cache_path : option string) (retries : Z) (w : World)
    (k : nat) (out err : string) :
  match cache_path with Some path => files w path = None | None => True end ->
  k < Z.to_nat retries ->
  (forall j, j < k -> attempt_fails (curl w url (runs w + j)) = true) ->
  curl w url (runs w + k) = Completed 0 out err ->
  fetch_html url cache_path retries w
  = (mk_World
       (match cache_path with
        | Some path =>
            fun p => if String.eqb p path
                     then Some (translate_newlines out) else files w p
        | None => files w
        end)
       (curl w) (runs w + k + 1) (sleeps w ++ attempt_numbers 1 k)
       (stderr w),
     Ok (translate_newlines out)).
Proof.
  intros Hmiss Hk Hfail Hok. unfold fetch_html.
  rewrite range_attempts.
  rewrite (attempts_loop_first_success url cache_path retries k out err
             (Z.to_nat retries) 1 None w Hk); [| lia | exact Hfail | exact Hok].
  destruct cache_path as [path|]; [now rewrite Hmiss | reflexivity].
Qed.

(** X17 on a server that answers at the third run. *)
Lemma X17_witness :
  let w := mk_World (fun _ => None)
             (fun _ n => if (n <? 2)%nat
                         then Completed 22 "" "curl: (22) 404"
                         else Completed 0 "<table></table>" "")
             0 [] [] in
  let '(w', res) := fetch_html "u" (Some "cache/19990101.html") 5 w in
  res = Ok "<table></table>" /\ runs w' = 3 /\ sleeps w' = [1%Z; 2%Z]
  /\ files w' "cache/19990101.html" = Some "<table></table>".
Proof.
  intros w.
  rewrite (X17_fetch_html_first_success "u" (Some "cache/19990101.html") 5
             w 2 "<table></table>" "");
    [repeat split | reflexivity | simpl; lia | | reflexivity].
  intros j Hj. destruct j as [|[|j]]; [reflexivity | reflexivity | lia].
Defined.

(** X18. Without a cached file, when every one of the [retries] runs of
    [curl] fails, [fetch_html] raises an error that names the address and
    the error of the last attempt, has run [curl] exactly [retries] times,
    has paused after every attempt but the last, and has changed no file.
    With [retries] at 0 or below it raises at once, without a run. *)
Theorem X18_fetch_html_gives_up
    (url : string) (cache_path : option string) (retries : Z) (w : World) :
  match cache_path with Some path => files w path = None | None => True end ->
  (forall j, j < Z.to_nat retries ->
             attempt_fails (curl w url (runs w + j)) = true) ->
  fetch_html url cache_path retries w
  = (mk_World (files w) (curl w) (runs w + Z.to_nat retries)
       (sleeps w ++ attempt_numbers 1 (Z.to_nat retries - 1)) (stderr w),
     failed_to_fetch url
       (match Z.to_nat retries with
        | O => None
        | S k => Some (attempt_error (curl w url (runs w + k)))
        end)).
Proof.
  intros Hmiss Hfail. unfold fetch_html. rewrite range_attempts.
  rewrite (attempts_loop_all_fail url cache_path retries
             (Z.to_nat retries) 1 None w); [| lia | exact Hfail].
  destruct cache_path as [path|]; [now rewrite Hmiss | reflexivity].
Qed.

(** X18 on a server that never answers, with three attempts and with
    none. *)
Lemma X18_witness :
  let w := mk_World (fun _ => None)
             (fun _ n => Completed 22 "" "curl: (22)  404
") 0 [] [] in
  (let '(w', res) := fetch_html "u" (Some "c.html") 3 w in
   res = Error "Failed to fetch u: curl: (22) 404"
   /\ runs w' = 3 /\ sleeps w' = [1%Z; 2%Z] /\ files w' "c.html" = None)
  /\ (let '(w', res) := fetch_html "u" None 0 w in
      res = Error "Failed to fetch u: None" /\ runs w' = 0
      /\ sleeps w' = []).
Proof.
  intros w. split.
  - rewrite (X18_fetch_html_gives_up "u" (Some "c.html") 3 w);
      [repeat split | reflexivity | intros j _; reflexivity].
  - rewrite (X18_fetch_html_gives_up "u" None 0 w);
      [repeat split | exact I | intros j _; reflexivity].
Defined.

(** X19. Whatever the outcomes of [curl], a call of [fetch_html] runs
    [curl] at most [retries] times, pauses once after each run but the
    last, prints nothing, and never changes or removes a file that
    exists: the only file it can create is the cache file. *)
Theorem X19_fetch_html_effects
    (url : string) (cache_path : option string) (retries : Z) (w : World) :
  let w' := fst (fetch_html url cache_path retries w) in
  (exists r,
     r <= Z.to_nat retries /\ runs w' = runs w + r
     /\ sleeps w' = sleeps w ++ attempt_numbers 1 (r - 1))
  /\ stderr w' = stderr w /\ curl w' = curl w
  /\ files_kept w w'
  /\ (forall p, cache_path <> Some p -> files w' p = files w p).
Proof.
  destruct (fetch_html url cache_path retries w) as [w' res] eqn:E.
  simpl. split; [now apply fetch_html_runs in E|].
  destruct (fetch_html_frame _ _ _ _ _ _ E) as (Hc & He & _ & Hk).
  split; [exact He|]. split; [exact Hc|]. split; [exact Hk|].
  intros p Hp. unfold fetch_html in E.
  assert (Hloop :
    attempts_loop url cache_path retries (range 1 (retries + 1)) None w
    = (w', res) -> files w' p = files w p).
  { intros Hl. apply attempts_loop_frame in Hl.
    destruct Hl as (_ & _ & _ & Hf).
    destruct res as [h|e]; [|now rewrite Hf].
    destruct Hf as [_ Hf]. destruct cache_path as [path|];
      [|now rewrite Hf].
    rewrite Hf. destruct (String.eqb_spec p path) as [->|_];
      [now elim Hp | reflexivity]. }
  destruct cache_path as [path|]; [|now apply Hloop].
  destruct (files w path); [now injection E as <- _ | now apply Hloop].
Qed.

(** X20. What [fetch_html] has returned for a cache file it returns
    again: after a call that returns a text, any later call for the same
    cache file, in any world that has kept the files, returns the same
    text without a run of [curl] and without changing the world. *)
Theorem X20_fetch_html_cached_round_trip
    (url path : string) (retries : Z) (w w1 : World) (h : string) :
  fetch_html url (Some path) retries w = (w1, Ok h) ->
  forall url' retries' w2,
    files_kept w1 w2 ->
    fetch_html url' (Some path) retries' w2 = (w2, Ok h).
Proof.
  intros H url' retries' w2 Hk.
  apply fetch_html_ok_cached in H. destruct H as (c & Hc & <-).
  apply fetch_html_hit. now apply Hk.
Qed.

(** X20 on a page with a carriage return and a line feed, fetched at the
    second run and then read from the cache with the network down. *)
Lemma X20_witness :
  let page := ("a" ++ String (ascii_of_nat 13)
                        (String (ascii_of_nat 10) "b"))%string in
  let text := ("a" ++ String (ascii_of_nat 10) "b")%string in
  let w := mk_World (fun _ => None)
             (fun _ n => if (n =? 1)%nat then Completed 0 page ""
                         else Raised "no network")
             0 [] [] in
  let w1 := fst (fetch_html "u" (Some "c.html") 5 w) in
  fetch_html "u" (Some "c.html") 5 w = (w1, Ok text)
  /\ fetch_html "u" (Some "c.html") 0 w1 = (w1, Ok text).
Proof.
  intros page text w w1.
  assert (H : fetch_html "u" (Some "c.html") 5 w = (w1, Ok text))
    by reflexivity.
  split; [exact H|].
  apply (X20_fetch_html_cached_round_trip "u" "c.html" 5 w w1 text H).
  intros p c Hp. exact Hp.
Defined.

(** ** The whole run *)

(** X21. A run with a cache directory that printed no warning can be
    repeated from the cache alone: a second run, in any world that has
    kept the files, writes the same output file and reports the same
    number of rows, without a run of [curl], a pause, a warning or a
    change to a file, whatever the network has become. *)
Theorem X21_rerun_from_cache
    (tokenize : string -> list Event) (dir : string)
    (days : list (nat * date)) (w w1 : World) (f1 : list string)
    (n1 : nat) :
  main_days tokenize (Some dir) days w [] 0 = (w1, f1, n1) ->
  warnings w1 = warnings w ->
  forall w2,
    files_kept w1 w2 ->
    exists w2',
      main_days tokenize (Some dir) days w2 [] 0 = (w2', f1, n1)
      /\ files w2' = files w2 /\ runs w2' = runs w2
      /\ sleeps w2' = sleeps w2 /\ warnings w2' = warnings w2.
Proof. apply main_days_rerun. Qed.

(** X21 on two days fetched from a server that then goes down. *)
Lemma X21_witness :
  let tokenize := fun _ : string =>
    table_events [["Unit"; "Power"]; ["Salem 1"; "100"]] in
  let days := [(1, mk_date 1999 1 1); (2, mk_date 1999 1 2)] in
  let w := mk_World (fun _ => None)
             (fun _ n => if (n <? 3)%nat then Completed 0 "page" ""
                         else Raised "no network")
             0 [] [] in
  let r := main_days tokenize (Some "cache") days w [] 0 in
  let w1 := fst (fst r) in
  warnings w1 = warnings w
  /\ runs w1 = 2
  /\ exists w2',
       main_days tokenize (Some "cache") days w1 [] 0
       = (w2', ["1/1/1999|Salem 1|100|" ++ newline;
                "1/2/1999|Salem 1|100|" ++ newline]%string, 2)
       /\ runs w2' = 2.
Proof.
  intros tokenize days w r w1.
  assert (Hw : warnings w1 = warnings w) by reflexivity.
  split; [exact Hw|]. split; [reflexivity|].
  destruct (X21_rerun_from_cache tokenize "cache" days w w1
              ["1/1/1999|Salem 1|100|" ++ newline;
               "1/2/1999|Salem 1|100|" ++ newline]%string 2)
    with (w2 := w1) as (w2' & E & _ & Hr & _).
  - reflexivity.
  - exact Hw.
  - intros p c Hp. exact Hp.
  - exists w2'. split; [exact E | exact Hr].
Defined.




(** X24. The loop of [iter_dates_1999] ends after 366 tests of its
    condition and not before: it yields the 365 days of 1999, from
    January 1 to December 31, in calendar order. *)
Theorem X24_iter_dates_1999_is_the_year (fuel : nat) :
  (366 <= fuel ->
   iter_dates_1999 fuel = Some days_of_1999
   /\ List.length days_of_1999 = 365)
  /\ (fuel <= 365 -> iter_dates_1999 fuel = None).
Proof.
  split.
  - intros H. split; [now apply iter_dates_1999_enough | reflexivity].
  - apply iter_dates_1999_short.
Qed.

(** X24 with 400 steps and with 365. *)
Lemma X24_witness :
  iter_dates_1999 400 = Some days_of_1999
  /\ iter_dates_1999 365 = None.
Proof.
  split.
  - apply (proj1 (X24_iter_dates_1999_is_the_year 400)). lia.
  - apply (proj2 (X24_iter_dates_1999_is_the_year 365)). lia.
Defined.

(** X25. Two days with four-digit years never share an address or a
    cache file: [url_for_day] and the cache file name determine the
    day. *)
Theorem X25_one_address_per_day (d1 d2 : date) :
  four_digit_year d1 -> four_digit_year d2 ->
  (url_for_day d1 = url_for_day d2 -> d1 = d2)
  /\ (forall dir,
        cache_file (Some dir) d1 = cache_file (Some dir) d2 -> d1 = d2).
Proof.
  intros H1 H2.
  pose proof (strftime_Ymd_length d1 H1) as L1.
  pose proof (strftime_Ymd_length d2 H2) as L2.
  split.
  - unfold url_for_day. intros H.
    apply append_inj_length in H; [|reflexivity]. destruct H as [_ H].
    injection H as H.
    apply append_inj_length in H; [|congruence]. destruct H as [H _].
    now apply strftime_Ymd_inj.
  - intros dir. unfold cache_file. intros [= H].
    apply append_inj_length in H; [|reflexivity]. destruct H as [_ H].
    injection H as H.
    apply append_inj_length in H; [|congruence]. destruct H as [H _].
    now apply strftime_Ymd_inj.
Qed.

(** X25 on the first and the last day of 1999. *)
Lemma X25_witness :
  four_digit_year (mk_date 1999 1 1) /\ four_digit_year (mk_date 1999 12 31)
  /\ url_for_day (mk_date 1999 1 1) <> url_for_day (mk_date 1999 12 31).
Proof.
  assert (H1 : four_digit_year (mk_date 1999 1 1))
    by (unfold four_digit_year; simpl; lia).
  assert (H2 : four_digit_year (mk_date 1999 12 31))
    by (unfold four_digit_year; simpl; lia).
  split; [exact H1|]. split; [exact H2|].
  intros E.
  apply (proj1 (X25_one_address_per_day _ _ H1 H2)) in E. discriminate E.
Defined.
